(** * gltf-viewer: unit simulation and spatial queries of [main.c]

    A shallow embedding of the unit/selection/grouping code of [main.c], of
    its three spatial queries, of its two camera controllers and of the
    frame loop of [main], followed by the properties the design document
    states about them and by further properties of the code.

    - C [float] is IEEE-754 binary32, taken from the Standard Library's
      executable specification [SpecFloat] at precision 24 and [emax] 128;
      every operation rounds to binary32, nothing is kept in a wider format.
    - C [int] values that the program keeps small (counts, indices, group
      numbers) are [Z]; array positions are [nat] after the bounds test that
      guards them in the source.
    - The global arrays [units] and [controlGroups] are lists that are read
      and written by position. A read outside a list yields a zero cell and
      a write outside is dropped; in C both are undefined, and the shape
      [wf_world], which every operation keeps, rules them out.
    - [UpdateUnit] works on the unit a pointer into [units] designates; the
      pointer is the slot number here, and the update is written back to
      that slot.
    - The two [while] loops of [UpdateUnit] need not terminate on every
      float; they run on fuel, and the result is an [option].
    - What raylib's input queries answer in one frame is a record [Input];
      a run of the frame loop takes one such record per round. Drawing is
      left out except where it writes a global ([DrawCommandMarker]). *)

From Stdlib Require Import ZArith Lia Bool List.
From Stdlib Require Import Floats.SpecFloat.
From stdpp Require Import prelude.

(** ** binary32 arithmetic *)

Module F32.

Definition prec : Z := 24.
Definition emax : Z := 128.

Definition float : Type := spec_float.

Definition add : float → float → float := SFadd prec emax.
Definition sub : float → float → float := SFsub prec emax.
Definition mul : float → float → float := SFmul prec emax.
Definition div : float → float → float := SFdiv prec emax.
Definition sqrtf : float → float := SFsqrt prec emax.
Definition neg : float → float := SFopp.

(** C comparisons: every one of them is false on a NaN operand, except
    [!=] which is true. *)
Definition lt (a b : float) : bool := SFltb a b.
Definition le (a b : float) : bool := SFleb a b.
Definition gt (a b : float) : bool := SFltb b a.
Definition ge (a b : float) : bool := SFleb b a.
Definition eq (a b : float) : bool := SFeqb a b.
Definition ne (a b : float) : bool := negb (SFeqb a b).

(** [(float)n] for an [int] n. *)
Definition of_int (n : Z) : float := binary_normalize prec emax n 0 false.

(** The literal [n/d] written in decimal with an [f] suffix, for n and d
    below 2^24: both convert exactly, so the correctly rounded quotient is
    the binary32 value nearest to the decimal. *)
Definition lit (n d : Z) : float := div (of_int n) (of_int d).

Definition zero : float := S754_zero false.
Definition one : float := of_int 1.

Definition INT_MIN : Z := - 2 ^ 31.
Definition INT_MAX : Z := 2 ^ 31 - 1.

(** [(int)f]: truncation toward zero. Outside the range of [int] (and on
    NaN and infinities) the C cast is undefined; the value written here
    is the one the x86 conversion instruction delivers. *)
Definition to_int (f : float) : Z :=
  match f with
  | S754_zero _ => 0
  | S754_finite s m e =>
      let mag := if (0 <=? e)%Z then (Z.pos m * 2 ^ e)%Z
                 else (Z.pos m / 2 ^ (- e))%Z in
      let v := if s then (- mag)%Z else mag in
      if (INT_MIN <=? v)%Z && (v <=? INT_MAX)%Z then v else INT_MIN
  | _ => INT_MIN
  end.

Definition is_nan (f : float) : bool :=
  match f with S754_nan => true | _ => false end.

(** [fminf] / [fmaxf] of <math.h>: a NaN operand is ignored. *)
Definition fminf (a b : float) : float :=
  if is_nan a then b else if is_nan b then a
  else if lt a b then a else b.
Definition fmaxf (a b : float) : float :=
  if is_nan a then b else if is_nan b then a
  else if lt a b then b else a.

End F32.

Abbreviation float := F32.float.

#[global] Arguments F32.add : simpl never.
#[global] Arguments F32.sub : simpl never.
#[global] Arguments F32.mul : simpl never.
#[global] Arguments F32.div : simpl never.
#[global] Arguments F32.sqrtf : simpl never.
#[global] Arguments F32.neg : simpl never.
#[global] Arguments F32.lt : simpl never.
#[global] Arguments F32.le : simpl never.
#[global] Arguments F32.gt : simpl never.
#[global] Arguments F32.ge : simpl never.
#[global] Arguments F32.of_int : simpl never.
#[global] Arguments F32.lit : simpl never.

Declare Scope f32_scope.
Delimit Scope f32_scope with f32.
Infix "+f" := F32.add (at level 50, left associativity) : f32_scope.
Infix "-f" := F32.sub (at level 50, left associativity) : f32_scope.
Infix "*f" := F32.mul (at level 40, left associativity) : f32_scope.
Infix "/f" := F32.div (at level 40, left associativity) : f32_scope.
Infix "<f" := F32.lt (at level 70, no associativity) : f32_scope.
Infix "<=f" := F32.le (at level 70, no associativity) : f32_scope.
Infix ">f" := F32.gt (at level 70, no associativity) : f32_scope.
Infix ">=f" := F32.ge (at level 70, no associativity) : f32_scope.
Local Open Scope f32_scope.

(** ** Constants of [main.c] and of raylib.h *)

Definition MAX_UNITS : Z := 100.
Definition UNIT_SIZE : float := F32.lit 3 10.
Definition UNIT_SPEED : float := F32.of_int 2.
Definition UNIT_TURN_SPEED : float := F32.of_int 3.
Definition UNIT_AVOIDANCE_DISTANCE : float := F32.lit 15 10.
Definition UNIT_HEIGHT_OFFSET : float := F32.lit 2 10.
Definition UNIT_ARRIVAL_DISTANCE : float := F32.lit 5 10.

(** [PI] is [3.14159265358979323846f], that is 0x40490FDB. *)
Definition PI : float := S754_finite false 13176795 (-22).
(** [DEG2RAD] is [(PI/180.0f)]. *)
Definition DEG2RAD : float := PI /f F32.of_int 180.

(** ** raymath.h vectors *)

Record Vector2 := mkVector2 { px : float; py : float }.
Record Vector3 := mkVector3 { vx : float; vy : float; vz : float }.

Definition Vector3Add (a b : Vector3) : Vector3 :=
  mkVector3 (vx a +f vx b) (vy a +f vy b) (vz a +f vz b).
Definition Vector3Subtract (a b : Vector3) : Vector3 :=
  mkVector3 (vx a -f vx b) (vy a -f vy b) (vz a -f vz b).
Definition Vector3Scale (v : Vector3) (s : float) : Vector3 :=
  mkVector3 (vx v *f s) (vy v *f s) (vz v *f s).
Definition Vector3Length (v : Vector3) : float :=
  F32.sqrtf (vx v *f vx v +f vy v *f vy v +f vz v *f vz v).
Definition Vector3Distance (a b : Vector3) : float :=
  let dx := vx b -f vx a in
  let dy := vy b -f vy a in
  let dz := vz b -f vz a in
  F32.sqrtf (dx *f dx +f dy *f dy +f dz *f dz).
Definition Vector3Normalize (v : Vector3) : Vector3 :=
  let length := Vector3Length v in
  if F32.ne length F32.zero then
    let ilength := F32.one /f length in
    mkVector3 (vx v *f ilength) (vy v *f ilength) (vz v *f ilength)
  else v.

Definition with_vy (v : Vector3) (h : float) : Vector3 :=
  mkVector3 (vx v) h (vz v).

(** ** Data of [main.c] *)

Record Color := mkColor { cr : Z; cg : Z; cb : Z; ca : Z }.
Definition WHITE : Color := mkColor 255 255 255 255.

Record Unit := mkUnit {
  position : Vector3;
  velocity : Vector3;
  targetPosition : Vector3;
  commandTarget : Vector3;
  hasCommand : bool;
  rotation : float;
  moveTimer : float;
  size : float;
  color : Color;
  active : bool;
  selected : bool;
  groupId : Z
}.

Record CommandMarker := mkCommandMarker {
  m_position : Vector3;
  m_timer : float;
  m_active : bool
}.

(** [unitIndices] keeps all its [MAX_UNITS] cells; only the first
    [g_unitCount] are members. *)
Record ControlGroup := mkControlGroup {
  unitIndices : list Z;
  g_unitCount : Z;
  g_active : bool
}.

Record Ray := mkRay { ray_position : Vector3; ray_direction : Vector3 }.

Record RayCollision := mkRayCollision {
  hit : bool;
  distance : float;
  point : Vector3;
  normal : Vector3
}.

(** A raylib mesh: [indices] is [None] for the NULL pointer, in which case
    consecutive vertex triples are the triangles. *)
Record Mesh := mkMesh {
  vertexCount : Z;
  triangleCount : Z;
  vertices : list float;
  indices : option (list Z)
}.

(** Field updates, one per assignment form used in the source. *)
Definition set_position (u : Unit) (p : Vector3) : Unit :=
  mkUnit p (velocity u) (targetPosition u) (commandTarget u) (hasCommand u)
    (rotation u) (moveTimer u) (size u) (color u) (active u) (selected u) (groupId u).
Definition set_targetPosition (u : Unit) (p : Vector3) : Unit :=
  mkUnit (position u) (velocity u) p (commandTarget u) (hasCommand u)
    (rotation u) (moveTimer u) (size u) (color u) (active u) (selected u) (groupId u).
Definition set_commandTarget (u : Unit) (p : Vector3) : Unit :=
  mkUnit (position u) (velocity u) (targetPosition u) p (hasCommand u)
    (rotation u) (moveTimer u) (size u) (color u) (active u) (selected u) (groupId u).
Definition set_hasCommand (u : Unit) (b : bool) : Unit :=
  mkUnit (position u) (velocity u) (targetPosition u) (commandTarget u) b
    (rotation u) (moveTimer u) (size u) (color u) (active u) (selected u) (groupId u).
Definition set_rotation (u : Unit) (r : float) : Unit :=
  mkUnit (position u) (velocity u) (targetPosition u) (commandTarget u) (hasCommand u)
    r (moveTimer u) (size u) (color u) (active u) (selected u) (groupId u).
Definition set_moveTimer (u : Unit) (t : float) : Unit :=
  mkUnit (position u) (velocity u) (targetPosition u) (commandTarget u) (hasCommand u)
    (rotation u) t (size u) (color u) (active u) (selected u) (groupId u).
Definition set_selected (u : Unit) (b : bool) : Unit :=
  mkUnit (position u) (velocity u) (targetPosition u) (commandTarget u) (hasCommand u)
    (rotation u) (moveTimer u) (size u) (color u) (active u) b (groupId u).
Definition set_groupId (u : Unit) (g : Z) : Unit :=
  mkUnit (position u) (velocity u) (targetPosition u) (commandTarget u) (hasCommand u)
    (rotation u) (moveTimer u) (size u) (color u) (active u) (selected u) g.

(** A raylib model over some matrix type; [meshes] stands for the pointer
    together with [meshCount]. *)
Record ModelOf (M : Type) := mkModel {
  transform : M;
  meshes : list Mesh
}.
Arguments mkModel {M} _ _.
Arguments transform {M} _.
Arguments meshes {M} _.

(** The globals of [main.c], with the generator state the raylib calls
    thread through. *)
Record WorldOf (R : Type) := mkWorld {
  units : list Unit;
  unitCount : Z;
  commandMarker : CommandMarker;
  controlGroups : list ControlGroup;
  rng : R
}.
Arguments mkWorld {R} _ _ _ _ _.
Arguments units {R} _.
Arguments unitCount {R} _.
Arguments commandMarker {R} _.
Arguments controlGroups {R} _.
Arguments rng {R} _.

(** ** The capability surface the program consumes

    raylib's random generator, ray casting and camera projection and the
    libm trigonometric functions are not part of [main.c]; the program is
    embedded over any implementation of them. *)

Class Externals := {
  RngState : Type;
  Camera3D : Type;
  Matrix : Type;
  BoundingBox : Type;
  GetRandomValue : Z → Z → RngState → Z * RngState;
  cosf : float → float;
  sinf : float → float;
  atan2f : float → float → float;
  GetMeshBoundingBox : Mesh → BoundingBox;
  GetRayCollisionBox : Ray → BoundingBox → RayCollision;
  GetRayCollisionTriangle : Ray → Vector3 → Vector3 → Vector3 → RayCollision;
  Vector3Transform : Vector3 → Matrix → Vector3;
  GetMouseRay : Vector2 → Camera3D → Ray;
  GetWorldToScreen : Vector3 → Camera3D → Vector2
}.

Section Program.
Context {E : Externals}.

Definition Model : Type := ModelOf Matrix.
Definition World : Type := WorldOf RngState.

Definition zeroVector3 : Vector3 := mkVector3 F32.zero F32.zero F32.zero.

(** A zero-initialised array cell. *)
Definition zeroUnit : Unit :=
  mkUnit zeroVector3 zeroVector3 zeroVector3 zeroVector3 false
    F32.zero F32.zero F32.zero (mkColor 0 0 0 0) false false 0.
Definition zeroGroup : ControlGroup :=
  mkControlGroup (replicate (Z.to_nat MAX_UNITS) 0%Z) 0 false.

Definition unit_at (w : World) (i : nat) : Unit :=
  default zeroUnit (units w !! i).

Definition set_units (w : World) (us : list Unit) : World :=
  mkWorld us (unitCount w) (commandMarker w) (controlGroups w) (rng w).
Definition set_unitCount (w : World) (n : Z) : World :=
  mkWorld (units w) n (commandMarker w) (controlGroups w) (rng w).
Definition set_controlGroups (w : World) (gs : list ControlGroup) : World :=
  mkWorld (units w) (unitCount w) (commandMarker w) gs (rng w).
Definition set_rng (w : World) (r : RngState) : World :=
  mkWorld (units w) (unitCount w) (commandMarker w) (controlGroups w) r.
Definition set_commandMarker (w : World) (m : CommandMarker) : World :=
  mkWorld (units w) (unitCount w) m (controlGroups w) (rng w).
Definition set_unit (w : World) (i : nat) (u : Unit) : World :=
  set_units w (<[i := u]> (units w)).

(** *** InitUnit *)
Definition InitUnit (position : Vector3) (r : RngState) : Unit * RngState :=
  let '(deg, r1) := GetRandomValue 0 360 r in
  (mkUnit position zeroVector3 position position false
     (F32.of_int deg *f DEG2RAD) F32.zero UNIT_SIZE WHITE true false 0, r1).

(** *** SpawnUnit *)
Definition SpawnUnit (centerPos : Vector3) (radius : float) (w : World) : World :=
  if (unitCount w >=? MAX_UNITS)%Z then w
  else
    let '(a, r1) := GetRandomValue 0 360 (rng w) in
    let angle := F32.of_int a *f DEG2RAD in
    let '(d, r2) :=
      GetRandomValue 10 (F32.to_int (radius *f F32.of_int 10)) r1 in
    let distance := F32.of_int d /f F32.of_int 10 in
    let spawnPos :=
      mkVector3 (vx centerPos +f cosf angle *f distance)
                (vy centerPos +f UNIT_HEIGHT_OFFSET)
                (vz centerPos +f sinf angle *f distance) in
    let '(u, r3) := InitUnit spawnPos r2 in
    set_unitCount
      (set_rng (set_unit w (Z.to_nat (unitCount w)) u) r3)
      (unitCount w + 1).

(** Any number of spawn requests, in order. *)
Definition spawn_many (calls : list (Vector3 * float)) (w : World) : World :=
  foldl (λ w call, SpawnUnit call.1 call.2 w) w calls.

(** ** Spatial queries *)

(** The values [0, 1, ..., n-1] that [for (int t = 0; t < n; t++)] visits. *)
Definition Zrange (n : Z) : list Z := Z.of_nat <$> seq 0 (Z.to_nat n).

(** [a[k]] on a float array and on an index array. Reading outside the
    array is undefined in C; the cells read as zero here. *)
Definition float_at (a : list float) (k : Z) : float :=
  default F32.zero (a !! Z.to_nat k).
Definition index_at (a : list Z) (k : Z) : Z :=
  default 0%Z (a !! Z.to_nat k).

(** The vertex whose three coordinates start at [vertices[i * 3]]. *)
Definition vertex_at (mesh : Mesh) (i : Z) : Vector3 :=
  mkVector3 (float_at (vertices mesh) (i * 3 + 0))
            (float_at (vertices mesh) (i * 3 + 1))
            (float_at (vertices mesh) (i * 3 + 2)).

Definition Triangle : Type := Vector3 * Vector3 * Vector3.

(** Triangle [t] of an indexed mesh and of a non-indexed one. *)
Definition indexed_triangle (mesh : Mesh) (idx : list Z) (t : Z) : Triangle :=
  (vertex_at mesh (index_at idx (t * 3 + 0)),
   vertex_at mesh (index_at idx (t * 3 + 1)),
   vertex_at mesh (index_at idx (t * 3 + 2))).
Definition plain_triangle (mesh : Mesh) (t : Z) : Triangle :=
  (vertex_at mesh (t * 3 + 0), vertex_at mesh (t * 3 + 1), vertex_at mesh (t * 3 + 2)).

(** The ray-triangle test on the transformed vertices. *)
Definition triangle_collision (ray : Ray) (tf : Matrix) (tri : Triangle) : RayCollision :=
  let '(v0, v1, v2) := tri in
  GetRayCollisionTriangle ray (Vector3Transform v0 tf) (Vector3Transform v1 tf)
    (Vector3Transform v2 tf).

Definition box_collision (ray : Ray) (mesh : Mesh) : RayCollision :=
  GetRayCollisionBox ray (GetMeshBoundingBox mesh).

(** *** CheckCollisionWithModel

    The function returns [true] from inside the loops at the first triangle
    hit below [maxDistance]; all the tests are pure, so that is a
    disjunction over the triangles in loop order. *)
Definition CheckCollisionWithModel (origin direction : Vector3) (model : Model)
    (maxDistance : float) : bool :=
  let ray := mkRay origin direction in
  existsb (λ mesh,
    let boxCollision := box_collision ray mesh in
    if hit boxCollision && (distance boxCollision <f maxDistance) then
      let near tri :=
        let triCollision := triangle_collision ray (transform model) tri in
        hit triCollision && (distance triCollision <f maxDistance) in
      match indices mesh with
      | Some idx =>
          existsb (λ t, near (indexed_triangle mesh idx t)) (Zrange (triangleCount mesh))
      | None =>
          existsb (λ t, near (plain_triangle mesh t)) (Zrange (triangleCount mesh))
      end
    else false) (meshes model).

(** *** GetGroundHeight *)

(** The ray cast downward from 10 above the position. *)
Definition down_ray (position : Vector3) : Ray :=
  mkRay (mkVector3 (vx position) (vy position +f F32.of_int 10) (vz position))
        (mkVector3 (F32.of_int 0) (F32.of_int (-1)) (F32.of_int 0)).

(** The loop-carried pair [(closestDistance, groundY)] after one triangle. *)
Definition ground_step (ray : Ray) (tf : Matrix) (acc : float * float)
    (tri : Triangle) : float * float :=
  let triCollision := triangle_collision ray tf tri in
  if hit triCollision && (distance triCollision <f acc.1)
  then (distance triCollision, vy (point triCollision))
  else acc.

Definition ground_mesh (ray : Ray) (tf : Matrix) (acc : float * float)
    (mesh : Mesh) : float * float :=
  if hit (box_collision ray mesh) then
    match indices mesh with
    | Some idx =>
        foldl (λ acc t, ground_step ray tf acc (indexed_triangle mesh idx t))
          acc (Zrange (triangleCount mesh))
    | None =>
        foldl (λ acc t, ground_step ray tf acc (plain_triangle mesh t))
          acc (Zrange (triangleCount mesh))
    end
  else acc.

Definition GetGroundHeight (position : Vector3) (model : Model) : float :=
  let ray := down_ray position in
  let '(closestDistance, groundY) :=
    foldl (ground_mesh ray (transform model))
      (F32.of_int 10000, F32.zero) (meshes model) in
  if closestDistance >=f F32.of_int 10000 then UNIT_HEIGHT_OFFSET
  else groundY +f UNIT_HEIGHT_OFFSET.

(** *** GetGroundPositionFromMouse *)

(** The loop-carried triple [(closestDistance, hitPoint, hitFound)]. *)
Definition mouse_step (ray : Ray) (tf : Matrix) (acc : float * Vector3 * bool)
    (tri : Triangle) : float * Vector3 * bool :=
  let triCollision := triangle_collision ray tf tri in
  if hit triCollision && (distance triCollision <f acc.1.1)
  then (distance triCollision, point triCollision, true)
  else acc.

(** Only the [mesh.indices != NULL] branch exists in this function. *)
Definition mouse_mesh (ray : Ray) (tf : Matrix) (acc : float * Vector3 * bool)
    (mesh : Mesh) : float * Vector3 * bool :=
  if hit (box_collision ray mesh) then
    match indices mesh with
    | Some idx =>
        foldl (λ acc t, mouse_step ray tf acc (indexed_triangle mesh idx t))
          acc (Zrange (triangleCount mesh))
    | None => acc
    end
  else acc.

Definition has_indices (mesh : Mesh) : bool :=
  match indices mesh with Some _ => true | None => false end.

(** Lines 373-385: the intersection with the plane y = 0. *)
Definition ground_plane_point (ray : Ray) : Vector3 :=
  let t := F32.neg (vy (ray_position ray)) /f vy (ray_direction ray) in
  if t >f F32.of_int 0 then
    mkVector3 (vx (ray_position ray) +f vx (ray_direction ray) *f t)
              UNIT_HEIGHT_OFFSET
              (vz (ray_position ray) +f vz (ray_direction ray) *f t)
  else mkVector3 (F32.of_int 0) UNIT_HEIGHT_OFFSET (F32.of_int 0).

Definition mouse_scan (ray : Ray) (model : Model) : float * Vector3 * bool :=
  foldl (mouse_mesh ray (transform model))
    (F32.of_int 10000, zeroVector3, false) (meshes model).

Definition ground_position_of_ray (ray : Ray) (model : Model) : Vector3 :=
  let '(_, hitPoint, hitFound) := mouse_scan ray model in
  if hitFound then with_vy hitPoint (vy hitPoint +f UNIT_HEIGHT_OFFSET)
  else ground_plane_point ray.

Definition GetGroundPositionFromMouse (mousePos : Vector2) (camera : Camera3D)
    (model : Model) : Vector3 :=
  ground_position_of_ray (GetMouseRay mousePos camera) model.

(** ** UpdateUnit *)

(** Lines 443-470: which target the unit steers to this tick. *)
Definition resolve_target (unit : Unit) (deltaTime : float) (r : RngState)
    : Unit * Vector3 * RngState :=
  if hasCommand unit then
    let distToCommand := Vector3Distance (position unit) (commandTarget unit) in
    let unit1 :=
      if distToCommand <f UNIT_ARRIVAL_DISTANCE
      then set_moveTimer (set_hasCommand unit false) (F32.of_int 0)
      else unit in
    (unit1, commandTarget unit, r)
  else
    let unit1 := set_moveTimer unit (moveTimer unit -f deltaTime) in
    if moveTimer unit1 <=f F32.of_int 0 then
      let '(a, r1) := GetRandomValue 0 360 r in
      let angle := F32.of_int a *f DEG2RAD in
      let '(d, r2) := GetRandomValue 2 8 r1 in
      let distance := F32.of_int d in
      let unit2 :=
        set_targetPosition unit1
          (mkVector3 (vx (position unit1) +f cosf angle *f distance)
                     (vy (position unit1))
                     (vz (position unit1) +f sinf angle *f distance)) in
      let '(m, r3) := GetRandomValue 20 50 r2 in
      let unit3 := set_moveTimer unit2 (F32.of_int m /f F32.of_int 10) in
      (unit3, targetPosition unit3, r3)
    else (unit1, targetPosition unit1, r).

(** Lines 483-491: some other active unit is closer than [UNIT_SIZE * 3].
    [i] is the slot [unit] points to. *)
Definition near_other_unit (w : World) (i : nat) (pos : Vector3) : bool :=
  existsb (λ j,
    negb (Nat.eqb j i) && active (unit_at w j) &&
    (Vector3Distance pos (position (unit_at w j)) <f UNIT_SIZE *f F32.of_int 3))
    (seq 0 (Z.to_nat (unitCount w))).

Definition will_collide (w : World) (i : nat) (model : Model) (unit : Unit)
    (direction : Vector3) : bool :=
  CheckCollisionWithModel (position unit) direction model UNIT_AVOIDANCE_DISTANCE
  || near_other_unit w i (position unit).

(** Lines 494-514: the [willCollide] branch. *)
Definition avoid (unit : Unit) (direction : Vector3) (deltaTime : float)
    (r : RngState) : Unit * RngState :=
  let '(a, r1) := GetRandomValue (-90) 90 r in
  let avoidanceAngle := F32.of_int a *f DEG2RAD in
  let currentAngle := atan2f (vz direction) (vx direction) in
  let newAngle := currentAngle +f avoidanceAngle in
  let direction := mkVector3 (cosf newAngle) (F32.of_int 0) (sinf newAngle) in
  if hasCommand unit then
    let movement :=
      Vector3Scale direction (UNIT_SPEED *f deltaTime *f F32.lit 5 10) in
    (set_position unit (Vector3Add (position unit) movement), r1)
  else
    (set_moveTimer
       (set_targetPosition unit
          (Vector3Add (position unit) (Vector3Scale direction (F32.of_int 3))))
       F32.one, r1).

(** The two normalisation loops of lines 525-526. Each round of [fuel] is
    one evaluation of the loop test; [None] when the loop is still running
    after [fuel] rounds. *)
Fixpoint wrap_down (fuel : nat) (rotationDiff : float) : option float :=
  match fuel with
  | O => None
  | S n =>
      if rotationDiff >f PI
      then wrap_down n (rotationDiff -f F32.of_int 2 *f PI)
      else Some rotationDiff
  end.
Fixpoint wrap_up (fuel : nat) (rotationDiff : float) : option float :=
  match fuel with
  | O => None
  | S n =>
      if rotationDiff <f F32.neg PI
      then wrap_up n (rotationDiff +f F32.of_int 2 *f PI)
      else Some rotationDiff
  end.

(** Lines 516-528: the clear branch. *)
Definition advance (fuel : nat) (unit : Unit) (direction : Vector3)
    (deltaTime : float) : option Unit :=
  let movement := Vector3Scale direction (UNIT_SPEED *f deltaTime) in
  let unit1 := set_position unit (Vector3Add (position unit) movement) in
  let targetRotation := atan2f (vz direction) (vx direction) in
  let rotationDiff := targetRotation -f rotation unit1 in
  d1 ← wrap_down fuel rotationDiff;
  d2 ← wrap_up fuel d1;
  Some (set_rotation unit1
          (rotation unit1 +f d2 *f UNIT_TURN_SPEED *f deltaTime)).

(** Lines 472-530. *)
Definition steer (fuel : nat) (w : World) (i : nat) (model : Model)
    (deltaTime : float) (unit : Unit) (actualTarget : Vector3) (r : RngState)
    : option (Unit * RngState) :=
  let direction := Vector3Subtract actualTarget (position unit) in
  let distanceToTarget := Vector3Length direction in
  if distanceToTarget >f F32.lit 1 10 then
    let direction := Vector3Normalize direction in
    if will_collide w i model unit direction
    then Some (avoid unit direction deltaTime r)
    else unit1 ← advance fuel unit direction deltaTime; Some (unit1, r)
  else Some (unit, r).

(** Lines 532-534. *)
Definition ground_clamp (model : Model) (unit : Unit) : Unit :=
  let groundHeight := GetGroundHeight (position unit) model in
  set_position unit (with_vy (position unit) groundHeight).

(** Lines 440-530 on the unit of slot [i]: the unit as it is just before
    the ground clamp, with the generator state. *)
Definition move_unit (fuel : nat) (i : nat) (model : Model) (deltaTime : float)
    (w : World) : option (Unit * RngState) :=
  let '(unit1, actualTarget, r1) :=
    resolve_target (unit_at w i) deltaTime (rng w) in
  steer fuel w i model deltaTime unit1 actualTarget r1.

(** [UpdateUnit(&units[i], model, deltaTime)]. The result is [None] when a
    normalisation loop does not finish within [fuel] rounds. *)
Definition UpdateUnit (fuel : nat) (i : nat) (model : Model) (deltaTime : float)
    (w : World) : option World :=
  if negb (active (unit_at w i)) then Some w
  else
    '(unit2, r2) ← move_unit fuel i model deltaTime w;
    Some (set_rng (set_unit w i (ground_clamp model unit2)) r2).

(** [n] consecutive calls of [UpdateUnit] on slot [i]. *)
Fixpoint UpdateUnit_iter (n : nat) (fuel : nat) (i : nat) (model : Model)
    (deltaTime : float) (w : World) : option World :=
  match n with
  | O => Some w
  | S k => w1 ← UpdateUnit fuel i model deltaTime w;
           UpdateUnit_iter k fuel i model deltaTime w1
  end.

(** ** Selection and control groups *)

(** The slots [0 .. unitCount-1] that the unit loops visit. *)
Definition slots (w : World) : list nat := seq 0 (Z.to_nat (unitCount w)).

(** [for (i < unitCount) units[i].selected = false;] *)
Definition deselect_all (w : World) : World :=
  foldl (λ w i, set_unit w i (set_selected (unit_at w i) false)) w (slots w).

(** *** SelectUnitsInBox *)
Definition in_box (minX maxX minY maxY : float) (screenPos : Vector2) : bool :=
  (px screenPos >=f minX) && (px screenPos <=f maxX) &&
  (py screenPos >=f minY) && (py screenPos <=f maxY).

Definition SelectUnitsInBox (start end_ : Vector2) (camera : Camera3D)
    (w : World) : World :=
  let w1 := deselect_all w in
  let minX := F32.fminf (px start) (px end_) in
  let maxX := F32.fmaxf (px start) (px end_) in
  let minY := F32.fminf (py start) (py end_) in
  let maxY := F32.fmaxf (py start) (py end_) in
  foldl (λ w i,
    let u := unit_at w i in
    if negb (active u) then w
    else
      let screenPos := GetWorldToScreen (position u) camera in
      if in_box minX maxX minY maxY screenPos
      then set_unit w i (set_selected u true)
      else w) w1 (slots w).

(** *** AssignControlGroup *)

Definition group_at (w : World) (g : Z) : ControlGroup :=
  default zeroGroup (controlGroups w !! Z.to_nat g).
Definition set_group (w : World) (g : Z) (cg : ControlGroup) : World :=
  set_controlGroups w (<[Z.to_nat g := cg]> (controlGroups w)).

(** Lines 642-644: [for (k = j; k < unitCount - 1; k++) a[k] = a[k + 1];] *)
Definition shift_left (a : list Z) (j : nat) (count : Z) : list Z :=
  foldl (λ a k, <[k := index_at a (Z.of_nat k + 1)]> a) a
    (seq j (Z.to_nat (count - 1) - j)).

(** Lines 639-648: drop the first cell of the member prefix that holds [i]. *)
Definition remove_member (oldGroup : ControlGroup) (i : Z) : ControlGroup :=
  match List.find (λ j, (index_at (unitIndices oldGroup) (Z.of_nat j) =? i)%Z)
          (seq 0 (Z.to_nat (g_unitCount oldGroup))) with
  | Some j =>
      mkControlGroup (shift_left (unitIndices oldGroup) j (g_unitCount oldGroup))
        (g_unitCount oldGroup - 1) (g_active oldGroup)
  | None => oldGroup
  end.

(** Lines 634-652. *)
Definition clear_old_assignment (groupNum : Z) (w : World) (i : nat) : World :=
  let u := unit_at w i in
  if active u && selected u then
    let w1 :=
      if (groupId u >? 0)%Z
      then set_group w (groupId u)
             (remove_member (group_at w (groupId u)) (Z.of_nat i))
      else w in
    set_unit w1 i (set_groupId u groupNum)
  else w.

(** Lines 659-663: [group->unitIndices[group->unitCount++] = i;] *)
Definition append_selected (w : World) (group : ControlGroup) (i : nat)
    : ControlGroup :=
  let u := unit_at w i in
  if active u && selected u then
    mkControlGroup
      (<[Z.to_nat (g_unitCount group) := Z.of_nat i]> (unitIndices group))
      (g_unitCount group + 1) (g_active group)
  else group.

Definition AssignControlGroup (groupNum : Z) (w : World) : World :=
  if (groupNum <? 1)%Z || (groupNum >? 9)%Z then w
  else
    let w1 := foldl (clear_old_assignment groupNum) w (slots w) in
    let group := group_at w1 groupNum in
    let group0 := mkControlGroup (unitIndices group) 0 true in
    set_group w1 groupNum (foldl (append_selected w1) group0 (slots w1)).

(** *** SelectControlGroup *)
Definition select_member (group : ControlGroup)
    (acc : World * Vector3 * Z) (i : Z) : World * Vector3 * Z :=
  let '(w, center, validCount) := acc in
  let unitIdx := index_at (unitIndices group) i in
  let u := unit_at w (Z.to_nat unitIdx) in
  if (unitIdx <? unitCount w)%Z && active u then
    (set_unit w (Z.to_nat unitIdx) (set_selected u true),
     mkVector3 (vx center +f vx (position u)) (vy center +f vy (position u))
               (vz center +f vz (position u)),
     (validCount + 1)%Z)
  else acc.

Definition SelectControlGroup (groupNum : Z) (w : World) : Vector3 * World :=
  if (groupNum <? 1)%Z || (groupNum >? 9)%Z then (zeroVector3, w)
  else
    let group := group_at w groupNum in
    if negb (g_active group) || (g_unitCount group =? 0)%Z then (zeroVector3, w)
    else
      let '(w2, center, validCount) :=
        foldl (select_member group) (deselect_all w, zeroVector3, 0%Z)
          (Zrange (g_unitCount group)) in
      if (validCount >? 0)%Z then
        (mkVector3 (vx center /f F32.of_int validCount)
                   (vy center /f F32.of_int validCount)
                   (vz center /f F32.of_int validCount), w2)
      else (zeroVector3, w2).

(** The members of a group: the first [g_unitCount] cells of its array. *)
Definition members (group : ControlGroup) : list Z :=
  take (Z.to_nat (g_unitCount group)) (unitIndices group).

(** The tests of lines 476 and 493 together, on the unit as target
    resolution left it: the update goes into the [willCollide] branch. *)
Definition takes_avoidance (w : World) (i : nat) (model : Model) (unit : Unit)
    (actualTarget : Vector3) : bool :=
  let direction := Vector3Subtract actualTarget (position unit) in
  (Vector3Length direction >f F32.lit 1 10) &&
  will_collide w i model unit (Vector3Normalize direction).

(** The deflected direction of lines 495-503. *)
Definition deflected (unit : Unit) (actualTarget : Vector3) (r : RngState)
    : Vector3 :=
  let direction :=
    Vector3Normalize (Vector3Subtract actualTarget (position unit)) in
  let avoidanceAngle := F32.of_int (GetRandomValue (-90) 90 r).1 *f DEG2RAD in
  let newAngle := atan2f (vz direction) (vx direction) +f avoidanceAngle in
  mkVector3 (cosf newAngle) (F32.of_int 0) (sinf newAngle).

(** The triangles of a mesh in loop order, in either layout. *)
Definition mesh_triangles (mesh : Mesh) : list Triangle :=
  match indices mesh with
  | Some idx => indexed_triangle mesh idx <$> Zrange (triangleCount mesh)
  | None => plain_triangle mesh <$> Zrange (triangleCount mesh)
  end.

(** Every triangle test the scan of [GetGroundHeight] carries out, in scan
    order: all triangles of every mesh whose bounding box the downward ray
    strikes. *)
Definition ground_candidates (position : Vector3) (model : Model)
    : list RayCollision :=
  flat_map (λ mesh,
      if hit (box_collision (down_ray position) mesh)
      then triangle_collision (down_ray position) (transform model)
             <$> mesh_triangles mesh
      else [])
    (meshes model).

(** Lines 268-271 and 294-297 on one collision. *)
Definition ground_pick (acc : float * float) (c : RayCollision) : float * float :=
  if hit c && (distance c <f acc.1) then (distance c, vy (point c)) else acc.

(** The initial [closestDistance], 10000.0f. *)
Definition far : float := F32.of_int 10000.

(** What the pair [(closestDistance, groundY)] is once the collisions
    [seen] have been scanned. *)
Definition scanned (seen : list RayCollision) (acc : float * float) : Prop :=
  (acc = (far, F32.zero) ∧
   ∀ c, c ∈ seen → hit c = true → (distance c <f far) = false) ∨
  (∃ c, c ∈ seen ∧ hit c = true ∧ (distance c <f far) = true ∧
        acc = (distance c, vy (point c)) ∧
        ∀ c', c' ∈ seen → hit c' = true → (distance c' <f distance c) = false).

(** ** CommandUnitsToPosition *)

(** Lines 393-397. *)
Definition selected_count (w : World) : Z :=
  foldl (λ n i,
    if active (unit_at w i) && selected (unit_at w i) then (n + 1)%Z else n)
    0%Z (seq 0 (Z.to_nat (unitCount w))).

(** Lines 408-427 for slot [i]; the second component is [currentUnit]. *)
Definition command_unit (targetPos : Vector3) (model : Model)
    (selectedCount cols : Z) (acc : World * Z) (i : nat) : World * Z :=
  let '(w, currentUnit) := acc in
  let u := unit_at w i in
  if active u && selected u then
    let row := Z.quot currentUnit cols in
    let col := Z.rem currentUnit cols in
    let spacing := UNIT_SIZE *f F32.lit 25 10 in
    let formationOffset :=
      mkVector3
        ((F32.of_int col -f F32.of_int cols /f F32.of_int 2) *f spacing)
        (F32.of_int 0)
        ((F32.of_int row -f F32.of_int (Z.quot selectedCount cols) /f F32.of_int 2)
           *f spacing) in
    let finalTarget := Vector3Add targetPos formationOffset in
    let finalTarget := with_vy finalTarget (GetGroundHeight finalTarget model) in
    (set_unit w i
       (set_moveTimer (set_hasCommand (set_commandTarget u finalTarget) true)
          (F32.of_int 0)),
     (currentUnit + 1)%Z)
  else acc.

Definition CommandUnitsToPosition (targetPos : Vector3) (model : Model)
    (w : World) : World :=
  let selectedCount := selected_count w in
  if (selectedCount =? 0)%Z then w
  else
    let cols := F32.to_int (F32.sqrtf (F32.of_int selectedCount)) in
    let cols := if (cols =? 0)%Z then 1%Z else cols in
    let w1 :=
      (foldl (command_unit targetPos model selectedCount cols) (w, 0%Z)
         (seq 0 (Z.to_nat (unitCount w)))).1 in
    set_commandMarker w1 (mkCommandMarker targetPos F32.one true).

(** The arrival test of line 448. *)
Definition arrived (u : Unit) : bool :=
  Vector3Distance (position u) (commandTarget u) <f UNIT_ARRIVAL_DISTANCE.

(** A unit loop seen from outside: [f] applied to the first [n] slots. *)
Definition map_slots (n : nat) (f : Unit → Unit) (us : list Unit) : list Unit :=
  imap (λ i u, if decide (i < n) then f u else u) us.

(** Whether the unit's projection falls in the box, and the selection flag
    the two loops of [SelectUnitsInBox] leave on a slot. *)
Definition box_hit (start end_ : Vector2) (camera : Camera3D) (u : Unit) : bool :=
  in_box (F32.fminf (px start) (px end_)) (F32.fmaxf (px start) (px end_))
         (F32.fminf (py start) (py end_)) (F32.fmaxf (py start) (py end_))
         (GetWorldToScreen (position u) camera).
Definition box_mark (start end_ : Vector2) (camera : Camera3D) (u : Unit) : Unit :=
  set_selected u (active u && box_hit start end_ camera u).

(** ** Group bookkeeping seen from outside *)

(** [l] without its first [x]. *)
Fixpoint remove_first (x : Z) (l : list Z) : list Z :=
  match l with
  | [] => []
  | y :: l' => if decide (y = x) then l' else y :: remove_first x l'
  end.

(** The unit of slot [i] is a currently selected active unit. *)
Definition is_assigned (w : World) (i : nat) : bool :=
  active (unit_at w i) && selected (unit_at w i).

(** The selected active slots in increasing order, as [int]s. *)
Definition assigned_slots (w : World) : list Z :=
  Z.of_nat <$> List.filter (is_assigned w) (slots w).

(** What the first loop of [AssignControlGroup] does to a unit. *)
Definition regroup (groupNum : Z) (u : Unit) : Unit :=
  if active u && selected u then set_groupId u groupNum else u.

(** What round [i] of that loop does to the group array. *)
Definition drop_from_old (w : World) (gs : list ControlGroup) (i : nat)
    : list ControlGroup :=
  let u := unit_at w i in
  if active u && selected u && (groupId u >? 0)%Z then
    <[Z.to_nat (groupId u) :=
        remove_member (default zeroGroup (gs !! Z.to_nat (groupId u))) (Z.of_nat i)]> gs
  else gs.

(** [x] is one of the first [k] slots, selected and active, with group id [g]. *)
Definition leaves (w : World) (k : nat) (g : Z) (x : Z) : bool :=
  bool_decide (0 ≤ x < Z.of_nat k)%Z && is_assigned w (Z.to_nat x) &&
  (groupId (unit_at w (Z.to_nat x)) =? g)%Z.

Definition wf_group (g : ControlGroup) : Prop :=
  length (unitIndices g) = Z.to_nat MAX_UNITS ∧
  (0 ≤ g_unitCount g ≤ MAX_UNITS)%Z ∧
  NoDup (members g).

(** The shape of the globals: the sizes of the arrays and the ranges the
    program keeps its counters and group numbers in. *)
Definition wf_world (w : World) : Prop :=
  (0 ≤ unitCount w ≤ MAX_UNITS)%Z ∧
  length (units w) = Z.to_nat MAX_UNITS ∧
  length (controlGroups w) = 10 ∧
  Forall wf_group (controlGroups w) ∧
  Forall (λ u, (0 ≤ groupId u ≤ 9)%Z) (units w).

#[global] Instance wf_group_dec (g : ControlGroup) : Decision (wf_group g).
Proof. unfold wf_group. apply _. Defined.
#[global] Instance wf_world_dec (w : World) : Decision (wf_world w).
Proof. unfold wf_world. apply _. Defined.

(** Lines 473-477 and 517-518 for a unit under command: where the clear
    branch puts the unit before the clamp. *)
Definition command_step (unit : Unit) (deltaTime : float) : Vector3 :=
  let direction :=
    Vector3Normalize (Vector3Subtract (commandTarget unit) (position unit)) in
  Vector3Add (position unit) (Vector3Scale direction (UNIT_SPEED *f deltaTime)).

(** A unit under command, short of its target, on the clear path, whose
    step is lost in the addition of line 518: position plus movement
    rounds back to the position, and the clamp keeps the height. *)
Definition stalled (w : World) (i : nat) (model : Model)
    (deltaTime : float) : Prop :=
  let u := unit_at w i in
  active u = true ∧ hasCommand u = true ∧ arrived u = false ∧
  (Vector3Length (Vector3Subtract (commandTarget u) (position u)) >f F32.lit 1 10)
    = true ∧
  will_collide w i model u
    (Vector3Normalize (Vector3Subtract (commandTarget u) (position u))) = false ∧
  command_step u deltaTime = position u ∧
  GetGroundHeight (position u) model = vy (position u).

End Program.

(** ** The cameras, the frame loop and the model bounds of [main.c] *)

(** Lines 8-25. *)
Definition WINDOW_WIDTH : Z := 800.
Definition WINDOW_HEIGHT : Z := 600.
Definition CAMERA_MOUSE_SENSITIVITY : float := F32.lit 3 1000.
Definition CAMERA_ZOOM_SPEED : float := F32.lit 1 10.
Definition CAMERA_MIN_DISTANCE : float := F32.of_int 1.
Definition CAMERA_MAX_DISTANCE : float := F32.of_int 100.
Definition ISO_CAMERA_ANGLE : float := F32.of_int 45.
Definition ISO_CAMERA_PAN_SPEED : float := F32.of_int 10.
Definition ISO_CAMERA_EDGE_SCROLL_ZONE : Z := 20.
Definition ISO_CAMERA_MIN_HEIGHT : float := F32.of_int 5.
Definition ISO_CAMERA_MAX_HEIGHT : float := F32.of_int 50.
Definition ISO_CAMERA_ZOOM_SPEED : float := F32.of_int 2.
Definition ISO_CAMERA_SMOOTHING : float := F32.lit 15 100.

(** Key and button codes of raylib.h. *)
Definition KEY_SPACE : Z := 32.
Definition KEY_ONE : Z := 49.
Definition KEY_A : Z := 65.
Definition KEY_C : Z := 67.
Definition KEY_D : Z := 68.
Definition KEY_G : Z := 71.
Definition KEY_I : Z := 73.
Definition KEY_R : Z := 82.
Definition KEY_S : Z := 83.
Definition KEY_U : Z := 85.
Definition KEY_W : Z := 87.
Definition KEY_X : Z := 88.
Definition KEY_TAB : Z := 258.
Definition KEY_DELETE : Z := 261.
Definition KEY_RIGHT : Z := 262.
Definition KEY_LEFT : Z := 263.
Definition KEY_DOWN : Z := 264.
Definition KEY_UP : Z := 265.
Definition KEY_LEFT_CONTROL : Z := 341.
Definition KEY_RIGHT_CONTROL : Z := 345.
Definition MOUSE_BUTTON_LEFT : Z := 0.
Definition MOUSE_BUTTON_RIGHT : Z := 1.
Definition MOUSE_BUTTON_MIDDLE : Z := 2.
Definition CAMERA_PERSPECTIVE : Z := 0.

Inductive ViewMode := VIEW_MODE_ORBIT | VIEW_MODE_ISOMETRIC.

Record OrbitCamera := mkOrbitCamera {
  o_distance : float;
  o_rotationH : float;
  o_rotationV : float;
  o_target : Vector3
}.

Record IsometricCamera := mkIsometricCamera {
  i_position : Vector3;
  i_target : Vector3;
  i_height : float;
  i_angle : float;
  i_targetPosition : Vector3;
  i_targetTarget : Vector3;
  i_selecting : bool;
  i_selectionStart : Vector2;
  i_selectionEnd : Vector2
}.

(** raylib's [Camera3D] struct and [BoundingBox] struct, field by field. *)
Record Camera := mkCamera {
  cam_position : Vector3;
  cam_target : Vector3;
  cam_up : Vector3;
  cam_fovy : float;
  cam_projection : Z
}.
Record Bounds := mkBounds { b_min : Vector3; b_max : Vector3 }.

(** What raylib's input queries answer during one frame; raylib polls the
    devices once per frame, so each query is a constant of the frame. *)
Record Input := mkInput {
  IsKeyPressed : Z → bool;
  IsKeyDown : Z → bool;
  IsMouseButtonDown : Z → bool;
  IsMouseButtonPressed : Z → bool;
  IsMouseButtonReleased : Z → bool;
  GetMouseDelta : Vector2;
  GetMousePosition : Vector2;
  GetMouseWheelMove : float;
  GetFrameTime : float
}.

(** The locals of [main] that live across the rounds of its loop, with the
    globals, over the type of the generator state. *)
Record AppOf (R : Type) := mkApp {
  a_world : WorldOf R;
  a_camera : Camera;
  a_viewMode : ViewMode;
  a_orbit : OrbitCamera;
  a_isometric : IsometricCamera;
  a_showInfo : bool;
  a_showGrid : bool;
  a_showAxes : bool;
  a_showUnits : bool
}.
Arguments mkApp {R} _ _ _ _ _ _ _ _ _.
Arguments a_world {R} _.
Arguments a_camera {R} _.
Arguments a_viewMode {R} _.
Arguments a_orbit {R} _.
Arguments a_isometric {R} _.
Arguments a_showInfo {R} _.
Arguments a_showGrid {R} _.
Arguments a_showAxes {R} _.
Arguments a_showUnits {R} _.

Definition set_active (u : Unit) (b : bool) : Unit :=
  mkUnit (position u) (velocity u) (targetPosition u) (commandTarget u) (hasCommand u)
    (rotation u) (moveTimer u) (size u) (color u) b (selected u) (groupId u).

Definition with_vx (v : Vector3) (x : float) : Vector3 := mkVector3 x (vy v) (vz v).
Definition with_vz (v : Vector3) (z : float) : Vector3 := mkVector3 (vx v) (vy v) z.

(** How the structs of [main.c] are handed to the raylib calls, and the
    identity matrix of raymath.h. *)
Class Structs {E : Externals} := {
  to_Camera3D : Camera → Camera3D;
  to_Bounds : BoundingBox → Bounds;
  MatrixIdentity : Matrix
}.

Section MainLoop.
Context {E : Externals} {V : Structs}.

(** *** CommandUnitsToPosition, piece by piece *)

(** Lines 402-403. *)
Definition formation_cols (selectedCount : Z) : Z :=
  let cols := F32.to_int (F32.sqrtf (F32.of_int selectedCount)) in
  if (cols =? 0)%Z then 1%Z else cols.

(** Lines 409-420: the target of the selected unit number [currentUnit]. *)
Definition formation_target (targetPos : Vector3) (model : Model)
    (selectedCount cols currentUnit : Z) : Vector3 :=
  let row := Z.quot currentUnit cols in
  let col := Z.rem currentUnit cols in
  let spacing := UNIT_SIZE *f F32.lit 25 10 in
  let formationOffset :=
    mkVector3
      ((F32.of_int col -f F32.of_int cols /f F32.of_int 2) *f spacing)
      (F32.of_int 0)
      ((F32.of_int row -f F32.of_int (Z.quot selectedCount cols) /f F32.of_int 2)
         *f spacing) in
  let finalTarget := Vector3Add targetPos formationOffset in
  with_vy finalTarget (GetGroundHeight finalTarget model).

(** Lines 422-424. *)
Definition order_to (u : Unit) (finalTarget : Vector3) : Unit :=
  set_moveTimer (set_hasCommand (set_commandTarget u finalTarget) true) (F32.of_int 0).

(** How many selected active units stand in the slots before [i]. *)
Definition rank (w : World) (i : nat) : Z :=
  Z.of_nat (length (List.filter (is_assigned w) (seq 0 i))).

(** *** GetGroundPositionFromMouse, seen from outside *)

(** Every triangle test the scan of [GetGroundPositionFromMouse] carries
    out, in scan order: the triangles of every indexed mesh whose bounding
    box the ray strikes. *)
Definition mouse_candidates (ray : Ray) (model : Model) : list RayCollision :=
  flat_map (λ mesh,
      if hit (box_collision ray mesh) then
        match indices mesh with
        | Some idx =>
            (λ t, triangle_collision ray (transform model) (indexed_triangle mesh idx t))
              <$> Zrange (triangleCount mesh)
        | None => []
        end
      else [])
    (meshes model).

(** Lines 357-361 on one collision. *)
Definition mouse_pick (acc : float * Vector3 * bool) (c : RayCollision)
    : float * Vector3 * bool :=
  if hit c && (distance c <f acc.1.1) then (distance c, point c, true) else acc.

(** The default point of line 385. *)
Definition default_point : Vector3 :=
  mkVector3 (F32.of_int 0) UNIT_HEIGHT_OFFSET (F32.of_int 0).

(** *** UpdateUnit, seen from outside *)

(** The fields no statement of [UpdateUnit] assigns. *)
Definition same_identity (u u' : Unit) : Prop :=
  active u' = active u ∧ selected u' = selected u ∧ groupId u' = groupId u ∧
  size u' = size u ∧ color u' = color u ∧ velocity u' = velocity u ∧
  commandTarget u' = commandTarget u.

(** The difference the two loops of lines 525-526 start from. *)
Definition rotation_gap (unit : Unit) (actualTarget : Vector3) : float :=
  let direction := Vector3Normalize (Vector3Subtract actualTarget (position unit)) in
  atan2f (vz direction) (vx direction) -f rotation unit.

(** What a run of [UpdateUnit] calls leaves of the globals [w] in [w']:
    the count, the groups, the marker, every unit's identity, and every
    inactive unit as a whole; no unit has gained a command. *)
Definition same_cast (w w' : World) : Prop :=
  unitCount w' = unitCount w ∧ controlGroups w' = controlGroups w ∧
  commandMarker w' = commandMarker w ∧ length (units w') = length (units w) ∧
  ∀ i, same_identity (unit_at w i) (unit_at w' i) ∧
       (hasCommand (unit_at w' i) = true → hasCommand (unit_at w i) = true) ∧
       (active (unit_at w i) = false → unit_at w' i = unit_at w i).

(** *** GetModelBounds *)
Definition zeroBounds : Bounds := mkBounds zeroVector3 zeroVector3.

Definition mesh_bounds (mesh : Mesh) : Bounds := to_Bounds (GetMeshBoundingBox mesh).

(** Lines 873-881. *)
Definition grow_bounds (bounds : Bounds) (mesh : Mesh) : Bounds :=
  let meshBounds := mesh_bounds mesh in
  mkBounds
    (mkVector3 (F32.fminf (vx (b_min bounds)) (vx (b_min meshBounds)))
               (F32.fminf (vy (b_min bounds)) (vy (b_min meshBounds)))
               (F32.fminf (vz (b_min bounds)) (vz (b_min meshBounds))))
    (mkVector3 (F32.fmaxf (vx (b_max bounds)) (vx (b_max meshBounds)))
               (F32.fmaxf (vy (b_max bounds)) (vy (b_max meshBounds)))
               (F32.fmaxf (vz (b_max bounds)) (vz (b_max meshBounds)))).

Definition GetModelBounds (model : Model) : Bounds :=
  match meshes model with
  | [] => zeroBounds
  | mesh0 :: rest => foldl grow_bounds (mesh_bounds mesh0) rest
  end.

Inductive Axis := AxisX | AxisY | AxisZ.
Definition coord (a : Axis) (v : Vector3) : float :=
  match a with AxisX => vx v | AxisY => vy v | AxisZ => vz v end.

(** *** UpdateOrbitCamera *)

(** Lines 706-714. *)
Definition orbit_rotate (input : Input) (orbit : OrbitCamera) : OrbitCamera :=
  if IsMouseButtonDown input MOUSE_BUTTON_LEFT then
    let mouseDelta := GetMouseDelta input in
    let rotationH := o_rotationH orbit -f px mouseDelta *f CAMERA_MOUSE_SENSITIVITY in
    let rotationV := o_rotationV orbit +f py mouseDelta *f CAMERA_MOUSE_SENSITIVITY in
    let rotationV :=
      if rotationV >f PI /f F32.of_int 2 -f F32.lit 1 10
      then PI /f F32.of_int 2 -f F32.lit 1 10 else rotationV in
    let rotationV :=
      if rotationV <f F32.neg PI /f F32.of_int 2 +f F32.lit 1 10
      then F32.neg PI /f F32.of_int 2 +f F32.lit 1 10 else rotationV in
    mkOrbitCamera (o_distance orbit) rotationH rotationV (o_target orbit)
  else orbit.

(** Lines 717-722. *)
Definition orbit_zoom (input : Input) (orbit : OrbitCamera) : OrbitCamera :=
  let wheelMove := GetMouseWheelMove input in
  if F32.ne wheelMove (F32.of_int 0) then
    let distance := o_distance orbit -f wheelMove *f o_distance orbit *f CAMERA_ZOOM_SPEED in
    let distance :=
      if distance <f CAMERA_MIN_DISTANCE then CAMERA_MIN_DISTANCE else distance in
    let distance :=
      if distance >f CAMERA_MAX_DISTANCE then CAMERA_MAX_DISTANCE else distance in
    mkOrbitCamera distance (o_rotationH orbit) (o_rotationV orbit) (o_target orbit)
  else orbit.

(** Lines 725-736. *)
Definition orbit_pan (input : Input) (orbit : OrbitCamera) : OrbitCamera :=
  if IsMouseButtonDown input MOUSE_BUTTON_MIDDLE then
    let mouseDelta := GetMouseDelta input in
    let cosH := cosf (o_rotationH orbit) in
    let sinH := sinf (o_rotationH orbit) in
    let target := o_target orbit in
    let x := vx target +f
      (px mouseDelta *f cosH -f py mouseDelta *f F32.of_int 0)
        *f o_distance orbit *f F32.lit 1 1000 in
    let z := vz target +f
      (px mouseDelta *f sinH) *f o_distance orbit *f F32.lit 1 1000 in
    let y := vy target +f py mouseDelta *f o_distance orbit *f F32.lit 1 1000 in
    mkOrbitCamera (o_distance orbit) (o_rotationH orbit) (o_rotationV orbit)
      (mkVector3 x y z)
  else orbit.

(** Lines 739-744. *)
Definition orbit_home : OrbitCamera :=
  mkOrbitCamera (F32.of_int 5) (PI *f F32.lit 25 100) (PI *f F32.lit 15 100)
    (mkVector3 (F32.of_int 0) (F32.of_int 0) (F32.of_int 0)).
Definition orbit_reset (input : Input) (orbit : OrbitCamera) : OrbitCamera :=
  if IsKeyPressed input KEY_R then orbit_home else orbit.

(** Lines 747-756. *)
Definition orbit_place (camera : Camera) (orbit : OrbitCamera) : Camera :=
  let cosV := cosf (o_rotationV orbit) in
  let sinV := sinf (o_rotationV orbit) in
  let cosH := cosf (o_rotationH orbit) in
  let sinH := sinf (o_rotationH orbit) in
  mkCamera
    (mkVector3 (vx (o_target orbit) +f o_distance orbit *f cosV *f sinH)
               (vy (o_target orbit) +f o_distance orbit *f sinV)
               (vz (o_target orbit) +f o_distance orbit *f cosV *f cosH))
    (o_target orbit) (cam_up camera) (cam_fovy camera) (cam_projection camera).

Definition UpdateOrbitCamera (input : Input) (camera : Camera) (orbit : OrbitCamera)
    : Camera * OrbitCamera :=
  let orbit1 :=
    orbit_reset input (orbit_pan input (orbit_zoom input (orbit_rotate input orbit))) in
  (orbit_place camera orbit1, orbit1).

(** *** UpdateIsometricCamera *)

Definition set_i_height (iso : IsometricCamera) (h : float) : IsometricCamera :=
  mkIsometricCamera (i_position iso) (i_target iso) h (i_angle iso)
    (i_targetPosition iso) (i_targetTarget iso) (i_selecting iso)
    (i_selectionStart iso) (i_selectionEnd iso).
Definition set_i_goals (iso : IsometricCamera) (tp tt : Vector3) : IsometricCamera :=
  mkIsometricCamera (i_position iso) (i_target iso) (i_height iso) (i_angle iso)
    tp tt (i_selecting iso) (i_selectionStart iso) (i_selectionEnd iso).
Definition set_i_selection (iso : IsometricCamera) (b : bool) (s e : Vector2)
    : IsometricCamera :=
  mkIsometricCamera (i_position iso) (i_target iso) (i_height iso) (i_angle iso)
    (i_targetPosition iso) (i_targetTarget iso) b s e.

(** Lines 765-778: the pan direction from the keys and the screen edges. *)
Definition iso_move (input : Input) : float * float :=
  let mousePos := GetMousePosition input in
  let moveX := F32.of_int 0 in
  let moveZ := F32.of_int 0 in
  let moveZ := if IsKeyDown input KEY_W || IsKeyDown input KEY_UP
               then moveZ -f F32.of_int 1 else moveZ in
  let moveZ := if IsKeyDown input KEY_S || IsKeyDown input KEY_DOWN
               then moveZ +f F32.of_int 1 else moveZ in
  let moveX := if IsKeyDown input KEY_A || IsKeyDown input KEY_LEFT
               then moveX -f F32.of_int 1 else moveX in
  let moveX := if IsKeyDown input KEY_D || IsKeyDown input KEY_RIGHT
               then moveX +f F32.of_int 1 else moveX in
  let moveX := if px mousePos <f F32.of_int ISO_CAMERA_EDGE_SCROLL_ZONE
               then moveX -f F32.of_int 1 else moveX in
  let moveX := if px mousePos >f F32.of_int (WINDOW_WIDTH - ISO_CAMERA_EDGE_SCROLL_ZONE)
               then moveX +f F32.of_int 1 else moveX in
  let moveZ := if py mousePos <f F32.of_int ISO_CAMERA_EDGE_SCROLL_ZONE
               then moveZ -f F32.of_int 1 else moveZ in
  let moveZ := if py mousePos >f F32.of_int (WINDOW_HEIGHT - ISO_CAMERA_EDGE_SCROLL_ZONE)
               then moveZ +f F32.of_int 1 else moveZ in
  (moveX, moveZ).

(** Lines 781-785. *)
Definition iso_scroll (input : Input) (iso : IsometricCamera) : IsometricCamera :=
  let deltaTime := GetFrameTime input in
  let '(moveX, moveZ) := iso_move input in
  let moveSpeed := ISO_CAMERA_PAN_SPEED *f (i_height iso /f F32.of_int 20) in
  let tp := i_targetPosition iso in
  let tt := i_targetTarget iso in
  set_i_goals iso
    (mkVector3 (vx tp +f moveX *f moveSpeed *f deltaTime) (vy tp)
               (vz tp +f moveZ *f moveSpeed *f deltaTime))
    (mkVector3 (vx tt +f moveX *f moveSpeed *f deltaTime) (vy tt)
               (vz tt +f moveZ *f moveSpeed *f deltaTime)).

(** Lines 788-796. *)
Definition iso_drag (input : Input) (iso : IsometricCamera) : IsometricCamera :=
  if IsMouseButtonDown input MOUSE_BUTTON_MIDDLE then
    let mouseDelta := GetMouseDelta input in
    let panSpeed := i_height iso *f F32.lit 2 1000 in
    let tp := i_targetPosition iso in
    let tt := i_targetTarget iso in
    set_i_goals iso
      (mkVector3 (vx tp -f px mouseDelta *f panSpeed) (vy tp)
                 (vz tp -f py mouseDelta *f panSpeed))
      (mkVector3 (vx tt -f px mouseDelta *f panSpeed) (vy tt)
                 (vz tt -f py mouseDelta *f panSpeed))
  else iso.

(** Lines 799-803. *)
Definition iso_zoom (input : Input) (iso : IsometricCamera) : IsometricCamera :=
  let wheelMove := GetMouseWheelMove input in
  if F32.ne wheelMove (F32.of_int 0) then
    let height := i_height iso -f wheelMove *f ISO_CAMERA_ZOOM_SPEED in
    set_i_height iso
      (F32.fmaxf ISO_CAMERA_MIN_HEIGHT (F32.fminf ISO_CAMERA_MAX_HEIGHT height))
  else iso.

(** Lines 806-820: the selection box; the camera is the one the previous
    frame left. *)
Definition iso_select (input : Input) (camera : Camera) (iso : IsometricCamera)
    (w : World) : IsometricCamera * World :=
  let mousePos := GetMousePosition input in
  let iso1 :=
    if IsMouseButtonPressed input MOUSE_BUTTON_LEFT
    then set_i_selection iso true mousePos mousePos else iso in
  if i_selecting iso1 then
    let iso2 := set_i_selection iso1 true (i_selectionStart iso1) mousePos in
    if IsMouseButtonReleased input MOUSE_BUTTON_LEFT then
      (set_i_selection iso2 false (i_selectionStart iso2) (i_selectionEnd iso2),
       SelectUnitsInBox (i_selectionStart iso2) (i_selectionEnd iso2)
         (to_Camera3D camera) w)
    else (iso2, w)
  else (iso1, w).

(** Lines 830-836. *)
Definition iso_reset (input : Input) (iso : IsometricCamera) : IsometricCamera :=
  if IsKeyPressed input KEY_R then
    let position := mkVector3 (F32.of_int 0) (F32.of_int 15) (F32.of_int 10) in
    let target := mkVector3 (F32.of_int 0) (F32.of_int 0) (F32.of_int 0) in
    mkIsometricCamera position target (F32.of_int 15) (i_angle iso) position target
      (i_selecting iso) (i_selectionStart iso) (i_selectionEnd iso)
  else iso.

(** Lines 839-842. *)
Definition iso_smooth (iso : IsometricCamera) : IsometricCamera :=
  let p := i_position iso in
  let t := i_target iso in
  mkIsometricCamera
    (mkVector3 (vx p +f (vx (i_targetPosition iso) -f vx p) *f ISO_CAMERA_SMOOTHING)
               (vy p)
               (vz p +f (vz (i_targetPosition iso) -f vz p) *f ISO_CAMERA_SMOOTHING))
    (mkVector3 (vx t +f (vx (i_targetTarget iso) -f vx t) *f ISO_CAMERA_SMOOTHING)
               (vy t)
               (vz t +f (vz (i_targetTarget iso) -f vz t) *f ISO_CAMERA_SMOOTHING))
    (i_height iso) (i_angle iso) (i_targetPosition iso) (i_targetTarget iso)
    (i_selecting iso) (i_selectionStart iso) (i_selectionEnd iso).

(** Lines 845-849. *)
Definition iso_place (camera : Camera) (iso : IsometricCamera) : Camera :=
  mkCamera
    (mkVector3 (vx (i_target iso))
               (vy (i_target iso) +f i_height iso)
               (vz (i_target iso) +f i_height iso *f F32.lit 8 10))
    (i_target iso) (cam_up camera) (cam_fovy camera) (cam_projection camera).

Definition UpdateIsometricCamera (input : Input) (camera : Camera)
    (iso : IsometricCamera) (w : World) : Camera * IsometricCamera * World :=
  let iso1 := iso_zoom input (iso_drag input (iso_scroll input iso)) in
  let '(iso2, w1) := iso_select input camera iso1 w in
  let iso3 := iso_smooth (iso_reset input iso2) in
  (iso_place camera iso3, iso3, w1).

(** The ranges the camera code clamps to; the tests are the negations of
    the ones the clamps make, so a NaN counts as not outside. *)
Definition distance_kept (d : float) : Prop :=
  (d <f CAMERA_MIN_DISTANCE) = false ∧ (d >f CAMERA_MAX_DISTANCE) = false.
Definition pitch_kept (v : float) : Prop :=
  (v >f PI /f F32.of_int 2 -f F32.lit 1 10) = false ∧
  (v <f F32.neg PI /f F32.of_int 2 +f F32.lit 1 10) = false.
Definition height_kept (h : float) : Prop :=
  (h <f ISO_CAMERA_MIN_HEIGHT) = false ∧ (h >f ISO_CAMERA_MAX_HEIGHT) = false.
(** Inside the height range in the proper sense. *)
Definition height_inside (h : float) : Prop :=
  (ISO_CAMERA_MIN_HEIGHT <=f h) = true ∧ (h <=f ISO_CAMERA_MAX_HEIGHT) = true.

(** *** DrawCommandMarker

    Lines 581-587, the part that changes the marker; the draw calls that
    follow only read it. *)
Definition DrawCommandMarker (deltaTime : float) (m : CommandMarker) : CommandMarker :=
  if negb (m_active m) then m
  else
    let timer := m_timer m -f deltaTime in
    if timer <=f F32.of_int 0
    then mkCommandMarker (m_position m) timer false
    else mkCommandMarker (m_position m) timer (m_active m).

(** *** The frame loop of [main] *)

(** Lines 1056-1061: the C key. *)
Definition clear_units (w : World) : World :=
  foldl (λ w i, set_unit w i (set_active (unit_at w i) false))
    (set_unitCount w 0) (seq 0 (Z.to_nat MAX_UNITS)).

(** Lines 1064-1070: the DELETE key. *)
Definition delete_selected (w : World) : World :=
  foldl (λ w i,
    if selected (unit_at w i) then set_unit w i (set_active (unit_at w i) false)
    else w) w (slots w).

(** What DELETE does to one counted unit. *)
Definition strike (u : Unit) : Unit := if selected u then set_active u false else u.

(** Lines 1049-1053: the SPACE key. *)
Definition spawn_five (modelCenter : Vector3) (maxDimension : float) (w : World)
    : World :=
  foldl (λ w _, SpawnUnit modelCenter (maxDimension *f F32.of_int 2) w) w (seq 0 5).

(** Lines 1073-1079, inside [if (showUnits)]. *)
Definition update_all (fuel : nat) (model : Model) (deltaTime : float) (w : World)
    : option World :=
  foldl (λ ow i,
    w ← ow;
    if active (unit_at w i) then UpdateUnit fuel i model deltaTime w else Some w)
    (Some w) (slots w).

(** The locals of [main] together with the globals. *)
Definition App : Type := AppOf RngState.

Definition set_a_world (s : App) (w : World) : App :=
  mkApp w (a_camera s) (a_viewMode s) (a_orbit s) (a_isometric s)
    (a_showInfo s) (a_showGrid s) (a_showAxes s) (a_showUnits s).

(** Lines 998-1000. *)
Definition toggle_view (input : Input) (s : App) : App :=
  if IsKeyPressed input KEY_TAB then
    mkApp (a_world s) (a_camera s)
      (match a_viewMode s with
       | VIEW_MODE_ORBIT => VIEW_MODE_ISOMETRIC
       | VIEW_MODE_ISOMETRIC => VIEW_MODE_ORBIT
       end)
      (a_orbit s) (a_isometric s)
      (a_showInfo s) (a_showGrid s) (a_showAxes s) (a_showUnits s)
  else s.

(** Lines 1013-1024: the camera is centred on the group, unless the centre
    is the origin. *)
Definition center_on (groupCenter : Vector3) (s : App) : App :=
  if F32.ne (vx groupCenter) (F32.of_int 0) || F32.ne (vy groupCenter) (F32.of_int 0)
     || F32.ne (vz groupCenter) (F32.of_int 0) then
    match a_viewMode s with
    | VIEW_MODE_ORBIT =>
        let orbit := a_orbit s in
        mkApp (a_world s) (a_camera s) (a_viewMode s)
          (mkOrbitCamera (o_distance orbit) (o_rotationH orbit) (o_rotationV orbit)
             groupCenter)
          (a_isometric s)
          (a_showInfo s) (a_showGrid s) (a_showAxes s) (a_showUnits s)
    | VIEW_MODE_ISOMETRIC =>
        let iso := a_isometric s in
        mkApp (a_world s) (a_camera s) (a_viewMode s) (a_orbit s)
          (mkIsometricCamera (i_position iso) groupCenter (i_height iso) (i_angle iso)
             (mkVector3 (vx groupCenter) (vy (i_targetPosition iso))
                (vz groupCenter +f i_height iso *f F32.lit 8 10))
             groupCenter (i_selecting iso) (i_selectionStart iso) (i_selectionEnd iso))
          (a_showInfo s) (a_showGrid s) (a_showAxes s) (a_showUnits s)
    end
  else s.

(** Lines 1003-1027: the number keys, with and without Ctrl. *)
Definition group_key (input : Input) (s : App) (i : Z) : App :=
  if IsKeyPressed input (KEY_ONE + i - 1) then
    if IsKeyDown input KEY_LEFT_CONTROL || IsKeyDown input KEY_RIGHT_CONTROL then
      set_a_world s (AssignControlGroup i (a_world s))
    else
      let '(groupCenter, w1) := SelectControlGroup i (a_world s) in
      center_on groupCenter (set_a_world s w1)
  else s.
Definition group_keys (input : Input) (s : App) : App :=
  foldl (group_key input) s (Z.succ <$> Zrange 9).

(** Lines 1034-1037 and 1042-1045: the right click. *)
Definition right_click (input : Input) (model : Model) (camera : Camera) (w : World)
    : World :=
  if IsMouseButtonPressed input MOUSE_BUTTON_RIGHT then
    let targetPos :=
      GetGroundPositionFromMouse (GetMousePosition input) (to_Camera3D camera) model in
    CommandUnitsToPosition targetPos model w
  else w.

(** Lines 1030-1046. *)
Definition update_camera (input : Input) (model : Model) (s : App) : App :=
  match a_viewMode s with
  | VIEW_MODE_ORBIT =>
      let '(camera, orbit) := UpdateOrbitCamera input (a_camera s) (a_orbit s) in
      mkApp (right_click input model camera (a_world s)) camera (a_viewMode s)
        orbit (a_isometric s)
        (a_showInfo s) (a_showGrid s) (a_showAxes s) (a_showUnits s)
  | VIEW_MODE_ISOMETRIC =>
      let '(camera, iso, w1) :=
        UpdateIsometricCamera input (a_camera s) (a_isometric s) (a_world s) in
      mkApp (right_click input model camera w1) camera (a_viewMode s)
        (a_orbit s) iso
        (a_showInfo s) (a_showGrid s) (a_showAxes s) (a_showUnits s)
  end.

(** Lines 1049-1070: SPACE, C and DELETE, in this order. *)
Definition unit_keys (input : Input) (modelCenter : Vector3) (maxDimension : float)
    (w : World) : World :=
  let w1 := if IsKeyPressed input KEY_SPACE
            then spawn_five modelCenter maxDimension w else w in
  let w2 := if IsKeyPressed input KEY_C then clear_units w1 else w1 in
  if IsKeyPressed input KEY_DELETE then delete_selected w2 else w2.

(** Lines 1082-1085. *)
Definition toggle_displays (input : Input) (s : App) : App :=
  mkApp (a_world s) (a_camera s) (a_viewMode s) (a_orbit s) (a_isometric s)
    (if IsKeyPressed input KEY_I then negb (a_showInfo s) else a_showInfo s)
    (if IsKeyPressed input KEY_G then negb (a_showGrid s) else a_showGrid s)
    (if IsKeyPressed input KEY_X then negb (a_showAxes s) else a_showAxes s)
    (if IsKeyPressed input KEY_U then negb (a_showUnits s) else a_showUnits s).

(** One round of the [while (!WindowShouldClose())] loop, lines 993-1203, as
    far as it changes the program's state: of the drawing only
    [DrawCommandMarker] does. [None] when an [UpdateUnit] loop runs out of
    [fuel]. *)
Definition frame (fuel : nat) (model : Model) (modelCenter : Vector3)
    (maxDimension : float) (input : Input) (s : App) : option App :=
  let deltaTime := GetFrameTime input in
  let s1 := update_camera input model (group_keys input (toggle_view input s)) in
  let w1 := unit_keys input modelCenter maxDimension (a_world s1) in
  w2 ← (if a_showUnits s1 then update_all fuel model deltaTime w1 else Some w1);
  let s2 := toggle_displays input (set_a_world s1 w2) in
  Some (set_a_world s2
          (set_commandMarker (a_world s2)
             (DrawCommandMarker deltaTime (commandMarker (a_world s2))))).

(** Any number of rounds, one input per round. *)
Fixpoint frames (fuel : nat) (model : Model) (modelCenter : Vector3)
    (maxDimension : float) (inputs : list Input) (s : App) : option App :=
  match inputs with
  | [] => Some s
  | input :: rest =>
      s1 ← frame fuel model modelCenter maxDimension input s;
      frames fuel model modelCenter maxDimension rest s1
  end.

(** *** The start of [main] *)

(** Lines 940-966: the cameras are fitted to the model. *)
Definition model_center (bounds : Bounds) : Vector3 :=
  mkVector3 ((vx (b_min bounds) +f vx (b_max bounds)) /f F32.of_int 2)
            ((vy (b_min bounds) +f vy (b_max bounds)) /f F32.of_int 2)
            ((vz (b_min bounds) +f vz (b_max bounds)) /f F32.of_int 2).
Definition max_dimension (bounds : Bounds) : float :=
  let modelSize :=
    mkVector3 (vx (b_max bounds) -f vx (b_min bounds))
              (vy (b_max bounds) -f vy (b_min bounds))
              (vz (b_max bounds) -f vz (b_min bounds)) in
  F32.fmaxf (vx modelSize) (F32.fmaxf (vy modelSize) (vz modelSize)).

Definition fit_orbit (modelCenter : Vector3) (maxDimension : float) : OrbitCamera :=
  let distance := maxDimension *f F32.of_int 2 in
  let distance :=
    if distance <f CAMERA_MIN_DISTANCE then CAMERA_MIN_DISTANCE else distance in
  let distance :=
    if distance >f CAMERA_MAX_DISTANCE then CAMERA_MAX_DISTANCE else distance in
  mkOrbitCamera distance (PI *f F32.lit 25 100) (PI *f F32.lit 15 100) modelCenter.

Definition fit_isometric (modelCenter : Vector3) (maxDimension : float)
    : IsometricCamera :=
  let position := mkVector3 (F32.of_int 0) (F32.of_int 15) (F32.of_int 10) in
  let height := maxDimension *f F32.lit 15 10 in
  let height :=
    if height <f ISO_CAMERA_MIN_HEIGHT then ISO_CAMERA_MIN_HEIGHT else height in
  let height :=
    if height >f ISO_CAMERA_MAX_HEIGHT then ISO_CAMERA_MAX_HEIGHT else height in
  mkIsometricCamera position modelCenter height ISO_CAMERA_ANGLE position modelCenter
    false (mkVector2 F32.zero F32.zero) (mkVector2 F32.zero F32.zero).

(** The globals when the loop is entered: static storage is zero, and
    lines 977-981 clear what they clear. *)
Definition start_world (r : RngState) : World :=
  let w0 :=
    mkWorld (replicate (Z.to_nat MAX_UNITS) zeroUnit) 0
      (mkCommandMarker zeroVector3 F32.zero false) (replicate 10 zeroGroup) r in
  let w1 :=
    foldl (λ w i, set_unit w i (set_active (unit_at w i) false)) w0
      (seq 0 (Z.to_nat MAX_UNITS)) in
  set_commandMarker (set_unitCount w1 0)
    (mkCommandMarker (m_position (commandMarker w1)) (m_timer (commandMarker w1)) false).

(** Lines 898-989 for the model [LoadModel] returned: [None] is the
    [return 1] of line 933. The second component is the model with its
    transform reset, then come [modelCenter] and [maxDimension]. *)
Definition start (loaded : Model) (r : RngState)
    : option (App * Model * Vector3 * float) :=
  match meshes loaded with
  | [] => None
  | _ =>
      let model := mkModel MatrixIdentity (meshes loaded) in
      let bounds := GetModelBounds model in
      let modelCenter := model_center bounds in
      let maxDimension := max_dimension bounds in
      let camera :=
        mkCamera (mkVector3 (F32.of_int 5) (F32.of_int 5) (F32.of_int 5))
          (mkVector3 (F32.of_int 0) (F32.of_int 0) (F32.of_int 0))
          (mkVector3 (F32.of_int 0) (F32.of_int 1) (F32.of_int 0))
          (F32.of_int 45) CAMERA_PERSPECTIVE in
      Some (mkApp (start_world r) camera VIEW_MODE_ORBIT
              (fit_orbit modelCenter maxDimension)
              (fit_isometric modelCenter maxDimension)
              true true true true,
            model, modelCenter, maxDimension)
  end.

(** *** Group lists and group numbers *)

(** Every member of a group of 1..9 is a counted slot whose unit carries
    the group's number. *)
Definition groups_agree (w : World) : Prop :=
  Forall (λ g,
    Forall (λ x, (0 ≤ x < unitCount w)%Z ∧ groupId (unit_at w (Z.to_nat x)) = g)
      (members (group_at w g)))
    (Z.succ <$> Zrange 9).

#[global] Instance groups_agree_dec (w : World) : Decision (groups_agree w).
Proof. unfold groups_agree. apply _. Defined.

(** The cells the member loop of [SelectControlGroup] reads. *)
Definition member_cells (group : ControlGroup) : list Z :=
  index_at (unitIndices group) <$> Zrange (g_unitCount group).

(** *** The whole run *)

(** [main] from [LoadModel] on: the start, then the rounds of the loop. *)
Definition session (fuel : nat) (loaded : Model) (r : RngState)
    (inputs : list Input) : option App :=
  '(s, model, modelCenter, maxDimension) ← start loaded r;
  frames fuel model modelCenter maxDimension inputs s.

(** Neither camera controller is outside its limits. *)
Definition cameras_kept (s : App) : Prop :=
  distance_kept (o_distance (a_orbit s)) ∧ pitch_kept (o_rotationV (a_orbit s)) ∧
  height_kept (i_height (a_isometric s)).

End MainLoop.

(** ** A stand-in for the external functions

    Used for the concrete runs only; every general statement below is
    about an arbitrary [Externals]. The transform is the identity (as
    [main] sets it), the triangle test is the Moeller-Trumbore test in
    binary32, the box test never rejects, and the trigonometric functions
    answer exactly where the angle is zero and with NaN elsewhere. *)

Module Standin.

Definition random_value (lo hi : Z) (s : Z) : Z * Z :=
  ((lo + s mod (hi - lo + 1))%Z, (s + 1)%Z).

Definition cos_at_zero (a : float) : float :=
  match a with S754_zero _ => F32.one | _ => S754_nan end.
Definition sin_at_zero (a : float) : float :=
  match a with S754_zero s => S754_zero s | _ => S754_nan end.
Definition atan2_at_zero (y x : float) : float :=
  match y, x with
  | S754_zero false, (S754_zero false | S754_finite false _ _ | S754_infinity false) =>
      S754_zero false
  | _, _ => S754_nan
  end.

Definition Vector3CrossProduct (a b : Vector3) : Vector3 :=
  mkVector3 (vy a *f vz b -f vz a *f vy b)
            (vz a *f vx b -f vx a *f vz b)
            (vx a *f vy b -f vy a *f vx b).
Definition Vector3DotProduct (a b : Vector3) : float :=
  vx a *f vx b +f vy a *f vy b +f vz a *f vz b.

Definition EPSILON : float := F32.lit 1 1000000.
Definition no_collision : RayCollision :=
  mkRayCollision false F32.zero zeroVector3 zeroVector3.

Definition ray_triangle (ray : Ray) (p1 p2 p3 : Vector3) : RayCollision :=
  let edge1 := Vector3Subtract p2 p1 in
  let edge2 := Vector3Subtract p3 p1 in
  let p := Vector3CrossProduct (ray_direction ray) edge2 in
  let det := Vector3DotProduct edge1 p in
  if (det >f F32.neg EPSILON) && (det <f EPSILON) then no_collision
  else
    let invDet := F32.one /f det in
    let tv := Vector3Subtract (ray_position ray) p1 in
    let u := Vector3DotProduct tv p *f invDet in
    if (u <f F32.zero) || (u >f F32.one) then no_collision
    else
      let q := Vector3CrossProduct tv edge1 in
      let v := Vector3DotProduct (ray_direction ray) q *f invDet in
      if (v <f F32.zero) || (u +f v >f F32.one) then no_collision
      else
        let t := Vector3DotProduct edge2 q *f invDet in
        if t >f EPSILON then
          mkRayCollision true t
            (Vector3Add (ray_position ray) (Vector3Scale (ray_direction ray) t))
            (Vector3Normalize (Vector3CrossProduct edge1 edge2))
        else no_collision.

(** A camera is given by the ray through the pixel under the mouse. *)
Definition pixel_ray (mousePos : Vector2) (camera : Ray) : Ray := camera.
Definition top_view (p : Vector3) (camera : Ray) : Vector2 :=
  mkVector2 (vx p) (vz p).

#[export] Instance externals : Externals := {|
  RngState := Z;
  Camera3D := Ray;
  Matrix := unit;
  BoundingBox := unit;
  GetRandomValue := random_value;
  cosf := cos_at_zero;
  sinf := sin_at_zero;
  atan2f := atan2_at_zero;
  GetMeshBoundingBox := λ _, tt;
  GetRayCollisionBox := λ _ _, mkRayCollision true F32.zero zeroVector3 zeroVector3;
  GetRayCollisionTriangle := ray_triangle;
  Vector3Transform := λ v _, v;
  GetMouseRay := pixel_ray;
  GetWorldToScreen := top_view
|}.

End Standin.

(** Concrete data for the runs below. *)
Definition v3 (a b c : float) : Vector3 := mkVector3 a b c.
Definition f0 : float := F32.zero.
Definition f02 : float := UNIT_HEIGHT_OFFSET.

(** A unit as [InitUnit] leaves it, heading 0. *)
Definition fresh_unit (p : Vector3) : Unit :=
  mkUnit p zeroVector3 p p false f0 f0 UNIT_SIZE WHITE true false 0.

Definition blank_groups : list ControlGroup := replicate 10 zeroGroup.

(** The globals with the first slots filled by [us], [n] slots counted. *)
Definition world_of (us : list Unit) (n : Z) (gs : list ControlGroup) (r : Z)
    : @World Standin.externals :=
  @mkWorld Z
    (take (Z.to_nat MAX_UNITS) (us ++ replicate (Z.to_nat MAX_UNITS) zeroUnit))
    n (mkCommandMarker zeroVector3 f0 false) gs r.

(** All [MAX_UNITS] slots taken. *)
Definition full_world : @World Standin.externals :=
  world_of (replicate (Z.to_nat MAX_UNITS) (fresh_unit (v3 f0 f02 f0)))
    MAX_UNITS blank_groups 0.

(** A square ground mesh at height 0, two indexed triangles, from -5 to 5. *)
Definition fi (n : Z) : float := F32.of_int n.
Definition quad_vertices (h : float) : list float :=
  [fi (-5); h; fi (-5);   fi 5; h; fi (-5);   fi 5; h; fi 5;   fi (-5); h; fi 5].
Definition ground_quad : Mesh :=
  mkMesh 4 2 (quad_vertices f0) (Some [0; 1; 2; 0; 2; 3]%Z).
Definition flat_model : @Model Standin.externals :=
  @mkModel unit tt [ground_quad].

(** A square at height 2 without an index array: six vertices, two
    triangles. *)
Definition plain_quad : Mesh :=
  mkMesh 6 2
    [fi (-5); fi 2; fi (-5);   fi 5; fi 2; fi (-5);   fi 5; fi 2; fi 5;
     fi (-5); fi 2; fi (-5);   fi 5; fi 2; fi 5;      fi (-5); fi 2; fi 5] None.
Definition plain_model : @Model Standin.externals :=
  @mkModel unit tt [plain_quad].

(** A ray below the ground, running parallel to it. *)
Definition parallel_ray : Ray :=
  mkRay (v3 f0 (fi (-1)) f0) (v3 F32.one f0 f0).

(** A ray straight down onto the centre of the square from height 5. *)
Definition top_ray : Ray :=
  mkRay (v3 f0 (fi 5) f0) (v3 f0 (fi (-1)) f0).

(** The cameras whose ray through the pixel is [top_ray], [parallel_ray]. *)
Definition top_camera : @Camera3D Standin.externals := top_ray.
Definition parallel_camera : @Camera3D Standin.externals := parallel_ray.
Definition pixel : Vector2 := mkVector2 f0 f0.

(** One frame at 60 frames per second. *)
Definition dt60 : float := F32.lit 1 60.

(** A single commanded unit on the square, ordered 3 to the east. *)
Definition walker : Unit :=
  mkUnit (v3 f0 f02 f0) zeroVector3 (v3 f0 f02 f0) (v3 (fi 3) f02 f0) true
    f0 f0 UNIT_SIZE WHITE true false 0.
Definition walker_world : @World Standin.externals :=
  world_of [walker] 1 blank_groups 0.

(** [walker] after one clear tick of [dt60], before the clamp. *)
Definition walker_moved : Unit :=
  set_position walker (v3 (UNIT_SPEED *f dt60) f02 f0).

(** Two units half a unit apart; the first wanders toward a point 5 to the
    east with 5 seconds left on its timer. The generator is in the state
    from which [GetRandomValue(-90, 90)] yields 0. *)
Definition wanderer : Unit :=
  mkUnit (v3 f0 f02 f0) zeroVector3 (v3 (fi 5) f02 f0) (v3 f0 f02 f0) false
    f0 (fi 5) UNIT_SIZE WHITE true false 0.
Definition crowd_world : @World Standin.externals :=
  world_of [wanderer; fresh_unit (v3 (F32.lit 5 10) f02 f0)] 2 blank_groups 90.

(** The same two wanderers 5 above the square, as units are before their
    first update when they were spawned around a centre at that height. *)
Definition hoverer : Unit :=
  mkUnit (v3 f0 (fi 5) f0) zeroVector3 (v3 (fi 5) (fi 5) f0) (v3 f0 (fi 5) f0) false
    f0 (fi 5) UNIT_SIZE WHITE true false 0.
Definition hover_world : @World Standin.externals :=
  world_of [hoverer; fresh_unit (v3 (F32.lit 5 10) (fi 5) f0)] 2 blank_groups 90.

(** The same meeting with the first unit under a command to that point. *)
Definition commanded : Unit :=
  mkUnit (v3 f0 f02 f0) zeroVector3 (v3 f0 f02 f0) (v3 (fi 5) f02 f0) true
    f0 f0 UNIT_SIZE WHITE true false 0.
Definition escort_world : @World Standin.externals :=
  world_of [commanded; fresh_unit (v3 (F32.lit 5 10) f02 f0)] 2 blank_groups 90.

(** The indexed square far below: at height -20000. *)
Definition deep_quad : Mesh :=
  mkMesh 4 2 (quad_vertices (fi (-20000))) (Some [0; 1; 2; 0; 2; 3]%Z).
Definition deep_model : @Model Standin.externals :=
  @mkModel unit tt [deep_quad].

(** Two squares, the one listed first lying lower: heights 0 and 2. *)
Definition stacked_model : @Model Standin.externals :=
  @mkModel unit tt [ground_quad; plain_quad].

(** A ground square at height 0 with a roof square 20 above it, and the
    camera looking straight down on the roof from height 50. *)
Definition roof_quad : Mesh :=
  mkMesh 4 2 (quad_vertices (fi 20)) (Some [0; 1; 2; 0; 2; 3]%Z).
Definition roofed_model : @Model Standin.externals :=
  @mkModel unit tt [ground_quad; roof_quad].
Definition roof_camera : @Camera3D Standin.externals :=
  mkRay (v3 f0 (fi 50) f0) (v3 f0 (fi (-1)) f0).

(** The formation slot of a single selected unit, relative to the click. *)
Definition slot_offset : float :=
  (fi 0 -f fi 1 /f fi 2) *f (UNIT_SIZE *f F32.lit 25 10).

(** One selected unit standing on the ground, under the roof. *)
Definition sentry : Unit :=
  mkUnit (v3 slot_offset f02 slot_offset) zeroVector3
    (v3 slot_offset f02 slot_offset) (v3 slot_offset f02 slot_offset) false
    f0 f0 UNIT_SIZE WHITE true true 0.
Definition sentry_world : @World Standin.externals :=
  world_of [sentry] 1 blank_groups 0.

(** The globals after a right click on the middle of the roof. *)
Definition roof_click : Vector3 :=
  GetGroundPositionFromMouse pixel roof_camera roofed_model.
Definition ordered_world : @World Standin.externals :=
  CommandUnitsToPosition roof_click roofed_model sentry_world.

(** [walker_world] one clear tick later. *)
Definition walker_world1 : @World Standin.externals :=
  world_of [walker_moved] 1 blank_groups 0.

(** Two selected units, 2 apart. *)
Definition recruit (p : Vector3) : Unit :=
  mkUnit p zeroVector3 p p false f0 f0 UNIT_SIZE WHITE true true 0.
Definition squad_start : @World Standin.externals :=
  world_of [recruit (v3 f0 f02 f0); recruit (v3 (fi 2) f02 f0)] 2 blank_groups 0.

(** Both are put in group 1; then a box around the second one alone. *)
Definition squad_world : @World Standin.externals :=
  AssignControlGroup 1 squad_start.
Definition squad_reselected : @World Standin.externals :=
  SelectUnitsInBox (mkVector2 (fi 1) (fi (-1))) (mkVector2 (fi 3) (fi 1))
    top_camera squad_world.

(** A ground square of side 128 around the point 2^21 on the X axis, and
    a unit standing on it, one unit east of its centre. *)
Definition far_quad : Mesh :=
  mkMesh 4 2
    [fi (2 ^ 21 - 64); f0; fi (-64);   fi (2 ^ 21 + 64); f0; fi (-64);
     fi (2 ^ 21 + 64); f0; fi 64;      fi (2 ^ 21 - 64); f0; fi 64]
    (Some [0; 1; 2; 0; 2; 3]%Z).
Definition far_model : @Model Standin.externals := @mkModel unit tt [far_quad].
Definition far_start : @World Standin.externals :=
  world_of [fresh_unit (v3 (fi (2 ^ 21 + 1)) f02 f0)] 1 blank_groups 0.

(** The unit is selected with a box, and the ground 7 further east is
    right-clicked, seen from straight above. *)
Definition far_selected : @World Standin.externals :=
  SelectUnitsInBox (mkVector2 (fi (2 ^ 21 - 8)) (fi (-8)))
    (mkVector2 (fi (2 ^ 21 + 8)) (fi 8)) top_camera far_start.
Definition far_camera : @Camera3D Standin.externals :=
  mkRay (v3 (fi (2 ^ 21 + 8)) (fi 50) (F32.lit 3 8)) (v3 f0 (fi (-1)) f0).
Definition far_world : @World Standin.externals :=
  CommandUnitsToPosition (GetGroundPositionFromMouse pixel far_camera far_model)
    far_model far_selected.

(** The globals before the first spawn. *)
Definition empty_world : @World Standin.externals := world_of [] 0 blank_groups 0.

(** From 5 above the square, a ray straight up. *)
Definition sky_camera : @Camera3D Standin.externals :=
  mkRay (v3 f0 (fi 5) f0) (v3 f0 (fi 1) f0).

(** The walker after turning a great many times: heading -2^30. *)
Definition spinner : Unit :=
  mkUnit (v3 f0 f02 f0) zeroVector3 (v3 f0 f02 f0) (v3 (fi 3) f02 f0) true
    (fi (- 2 ^ 30)) f0 UNIT_SIZE WHITE true false 0.
Definition spinner_world : @World Standin.externals :=
  world_of [spinner] 1 blank_groups 0.

(** The structs of [main.c] for the stand-in raylib: the camera as the
    ray from its position to its target. *)
Definition camera_ray (camera : Camera) : @Camera3D Standin.externals :=
  mkRay (cam_position camera)
    (Vector3Normalize (Vector3Subtract (cam_target camera) (cam_position camera))).
Definition unit_bounds (box : @BoundingBox Standin.externals) : Bounds :=
  mkBounds (v3 (fi (-1)) f0 (fi (-1))) (v3 (fi 1) f0 (fi 1)).
#[export] Instance standin_structs : @Structs Standin.externals := {|
  to_Camera3D := camera_ray;
  to_Bounds := unit_bounds;
  MatrixIdentity := tt
|}.

(** A frame of 1/60 s in which nothing is pressed, and the same with one
    key pressed or held. *)
Definition quiet : Input :=
  mkInput (λ _, false) (λ _, false) (λ _, false) (λ _, false) (λ _, false)
    (mkVector2 f0 f0) (mkVector2 f0 f0) f0 dt60.
Definition press (key : Z) (input : Input) : Input :=
  mkInput (λ k, (k =? key)%Z || IsKeyPressed input k) (IsKeyDown input)
    (IsMouseButtonDown input) (IsMouseButtonPressed input)
    (IsMouseButtonReleased input) (GetMouseDelta input) (GetMousePosition input)
    (GetMouseWheelMove input) (GetFrameTime input).
Definition hold (key : Z) (input : Input) : Input :=
  mkInput (IsKeyPressed input) (λ k, (k =? key)%Z || IsKeyDown input k)
    (IsMouseButtonDown input) (IsMouseButtonPressed input)
    (IsMouseButtonReleased input) (GetMouseDelta input) (GetMousePosition input)
    (GetMouseWheelMove input) (GetFrameTime input).
Definition scroll (wheel : float) (input : Input) : Input :=
  mkInput (IsKeyPressed input) (IsKeyDown input)
    (IsMouseButtonDown input) (IsMouseButtonPressed input)
    (IsMouseButtonReleased input) (GetMouseDelta input) (GetMousePosition input)
    wheel (GetFrameTime input).

(** The squad with its second unit selected, seen through the first
    camera of [main]. *)
Definition squad_app : @App Standin.externals :=
  mkApp squad_reselected
    (mkCamera (v3 (fi 5) (fi 5) (fi 5)) (v3 f0 f0 f0) (v3 f0 (fi 1) f0) (fi 45)
       CAMERA_PERSPECTIVE)
    VIEW_MODE_ORBIT orbit_home
    (mkIsometricCamera (v3 f0 (fi 15) (fi 10)) (v3 f0 f0 f0) (fi 15) ISO_CAMERA_ANGLE
       (v3 f0 (fi 15) (fi 10)) (v3 f0 f0 f0) false pixel pixel)
    true true true true.

(** Ctrl+2, then SPACE, then a frame without keys. *)
Definition squad_keys : list Input :=
  [press (KEY_ONE + 1) (hold KEY_LEFT_CONTROL quiet); press KEY_SPACE quiet; quiet].

(** * Properties *)

(** ** Order facts of binary32 comparison *)

Lemma Pcompare_Eq_spec (p q : positive) :
  CompareSpec (p = q) (p < q)%positive (q < p)%positive
    (PosDef.Pos.compare_cont Eq p q).
Proof. apply Pos.compare_spec. Qed.

Ltac order_cases :=
  repeat match goal with
  | |- context [Z.compare ?a ?b] => destruct (Z.compare_spec a b); simpl
  | H : context [Z.compare ?a ?b] |- _ =>
      destruct (Z.compare_spec a b); simpl in H
  | |- context [PosDef.Pos.compare_cont Eq ?a ?b] =>
      destruct (Pcompare_Eq_spec a b); simpl
  | H : context [PosDef.Pos.compare_cont Eq ?a ?b] |- _ =>
      destruct (Pcompare_Eq_spec a b); simpl in H
  end.

Ltac float_cases :=
  simpl; try discriminate; try done;
  repeat match goal with s : bool |- _ => destruct s end;
  simpl; try discriminate; try done.

Lemma lt_trans (a b c : float) :
  (a <f b) = true → (b <f c) = true → (a <f c) = true.
Proof.
  unfold F32.lt, SFltb.
  destruct a as [sa|sa| |sa ma ea], b as [sb|sb| |sb mb eb],
           c as [sc|sc| |sc mc ec]; float_cases;
    intros H1 H2; order_cases; try discriminate; try done; subst; try lia.
Qed.

Lemma lt_irrefl (a : float) : (a <f a) = false.
Proof.
  unfold F32.lt, SFltb. destruct a as [sa|sa| |sa ma ea]; float_cases;
    rewrite Z.compare_refl, Pos.compare_cont_refl; reflexivity.
Qed.

Lemma lt_not_ge (a b : float) : (a <f b) = true → (a >=f b) = false.
Proof.
  unfold F32.lt, F32.ge, SFltb, SFleb.
  destruct a as [sa|sa| |sa ma ea], b as [sb|sb| |sb mb eb]; float_cases;
    intros H1; order_cases; try discriminate; try done; subst; try lia.
Qed.

Lemma lt_asym (a b : float) : (a <f b) = true → (b <f a) = false.
Proof.
  intros H. destruct (b <f a) eqn:H'; [|done].
  pose proof (lt_trans _ _ _ H H') as Hc. rewrite lt_irrefl in Hc. discriminate.
Qed.

(** Two numbers, neither below the other, compare alike with any third. *)
Lemma unordered_alike (a b x : float) :
  F32.is_nan a = false → F32.is_nan b = false →
  (a <f b) = false → (b <f a) = false →
  (a <=f x) = (b <=f x) ∧ (x <=f a) = (x <=f b).
Proof.
  unfold F32.lt, F32.le, SFltb, SFleb.
  destruct a as [sa|sa| |sa ma ea], b as [sb|sb| |sb mb eb]; float_cases;
    intros _ _ H1 H2; order_cases; try discriminate; subst;
    destruct x as [sx|sx| |sx mx ex]; simpl; try done;
    repeat match goal with s : bool |- _ => destruct s end;
    simpl; try done; try lia.
Qed.

Lemma fminf_swap (a b x : float) :
  (x >=f F32.fminf a b) = (x >=f F32.fminf b a).
Proof.
  unfold F32.fminf, F32.ge.
  destruct (F32.is_nan a) eqn:Ha, (F32.is_nan b) eqn:Hb; try done.
  - by destruct a, b.
  - destruct (a <f b) eqn:Hab.
    + by rewrite (lt_asym _ _ Hab).
    + destruct (b <f a) eqn:Hba; [done|].
      destruct (unordered_alike a b x Ha Hb Hab Hba) as [H _].
      unfold F32.le in H. by rewrite H.
Qed.

Lemma fmaxf_swap (a b x : float) :
  (x <=f F32.fmaxf a b) = (x <=f F32.fmaxf b a).
Proof.
  unfold F32.fmaxf.
  destruct (F32.is_nan a) eqn:Ha, (F32.is_nan b) eqn:Hb; try done.
  - by destruct a, b.
  - destruct (a <f b) eqn:Hab.
    + by rewrite (lt_asym _ _ Hab).
    + destruct (b <f a) eqn:Hba; [done|].
      destruct (unordered_alike a b x Ha Hb Hab Hba) as [_ H]. by rewrite H.
Qed.

(** ** Capacity of the unit array (SpawnUnit) *)

Section Spawn.
Context {E : Externals}.

Lemma SpawnUnit_full (w : World) centerPos radius :
  (MAX_UNITS ≤ unitCount w)%Z → SpawnUnit centerPos radius w = w.
Proof.
  intros Hfull. unfold SpawnUnit.
  destruct (Z.geb_spec (unitCount w) MAX_UNITS) as [_|Hlt]; [reflexivity|lia].
Qed.

Lemma SpawnUnit_unitCount (w : World) centerPos radius :
  unitCount (SpawnUnit centerPos radius w) =
    (if (unitCount w >=? MAX_UNITS)%Z then unitCount w else unitCount w + 1)%Z.
Proof.
  unfold SpawnUnit. destruct (unitCount w >=? MAX_UNITS)%Z; [reflexivity|].
  destruct (GetRandomValue 0 360 (rng w)) as [a r1].
  destruct (GetRandomValue 10 _ r1) as [d r2].
  destruct (InitUnit _ r2) as [u r3]. reflexivity.
Qed.

Lemma SpawnUnit_length (w : World) centerPos radius :
  length (units (SpawnUnit centerPos radius w)) = length (units w).
Proof.
  unfold SpawnUnit. destruct (unitCount w >=? MAX_UNITS)%Z; [reflexivity|].
  destruct (GetRandomValue 0 360 (rng w)) as [a r1].
  destruct (GetRandomValue 10 _ r1) as [d r2].
  destruct (InitUnit _ r2) as [u r3]. simpl. apply length_insert.
Qed.

(** C9. When [unitCount] has reached [MAX_UNITS], SpawnUnit returns the
    globals (units, count, groups, marker and generator state) exactly as
    it found them; hence over any sequence of spawn calls the count stays
    at most [MAX_UNITS] and the unit array keeps its size. *)
Theorem SpawnUnit_capacity (w : World) (calls : list (Vector3 * float)) :
  (∀ centerPos radius,
      (MAX_UNITS ≤ unitCount w)%Z → SpawnUnit centerPos radius w = w) ∧
  ((unitCount w ≤ MAX_UNITS)%Z →
      (unitCount (spawn_many calls w) ≤ MAX_UNITS)%Z) ∧
  length (units (spawn_many calls w)) = length (units w).
Proof.
  split; [intros; by apply SpawnUnit_full|].
  unfold spawn_many. revert w.
  induction calls as [|[c r] calls IH]; intros w; simpl; [done|].
  destruct (IH (SpawnUnit c r w)) as [IHc IHl]. split.
  - intros Hle. apply IHc. rewrite SpawnUnit_unitCount.
    destruct (Z.geb_spec (unitCount w) MAX_UNITS); lia.
  - rewrite IHl. apply SpawnUnit_length.
Qed.

End Spawn.

Lemma SpawnUnit_capacity_witness :
  SpawnUnit (v3 f0 f0 f0) (F32.of_int 4) full_world = full_world ∧
  (unitCount (spawn_many [(v3 f0 f0 f0, F32.of_int 4)] full_world) ≤ MAX_UNITS)%Z.
Proof.
  destruct (SpawnUnit_capacity full_world [(v3 f0 f0 f0, F32.of_int 4)])
    as (Hnoop & Hcap & _).
  split; [apply Hnoop | apply Hcap]; vm_compute; discriminate.
Defined.

(** ** Ground clamp (UpdateUnit) *)

Section Ground.
Context {E : Externals}.

Lemma unit_at_zeroUnit (w : World) (i : nat) :
  length (units w) ≤ i → unit_at w i = zeroUnit.
Proof. intros H. unfold unit_at. by rewrite lookup_ge_None_2. Qed.

Lemma active_in_range (w : World) (i : nat) :
  active (unit_at w i) = true → i < length (units w).
Proof.
  intros Ha. destruct (decide (i < length (units w))) as [|Hge]; [done|].
  rewrite unit_at_zeroUnit in Ha by lia. discriminate.
Qed.

Lemma unit_at_set_unit (w : World) (i : nat) (u : Unit) :
  i < length (units w) → unit_at (set_unit w i u) i = u.
Proof. intros H. unfold unit_at, set_unit. simpl. by rewrite list_lookup_insert_eq. Qed.

Lemma unit_at_set_unit_ne (w : World) (i j : nat) (u : Unit) :
  i ≠ j → unit_at (set_unit w i u) j = unit_at w j.
Proof. intros H. unfold unit_at, set_unit. simpl. by rewrite list_lookup_insert_ne. Qed.

Lemma unit_at_set_rng (w : World) (r : RngState) (i : nat) :
  unit_at (set_rng w r) i = unit_at w i.
Proof. reflexivity. Qed.


End Ground.

(** ** Fuel of the normalisation loops *)

Section Fuel.
Context {E : Externals}.

Lemma wrap_down_mono fuel fuel' d r :
  wrap_down fuel d = Some r → fuel ≤ fuel' → wrap_down fuel' d = Some r.
Proof.
  revert fuel' d. induction fuel as [|n IH]; intros fuel' d; simpl; [done|].
  intros H Hle. destruct fuel' as [|n']; [lia|]. simpl.
  destruct (d >f PI); [|done]. apply IH; [done|lia].
Qed.

Lemma wrap_up_mono fuel fuel' d r :
  wrap_up fuel d = Some r → fuel ≤ fuel' → wrap_up fuel' d = Some r.
Proof.
  revert fuel' d. induction fuel as [|n IH]; intros fuel' d; simpl; [done|].
  intros H Hle. destruct fuel' as [|n']; [lia|]. simpl.
  destruct (d <f F32.neg PI); [|done]. apply IH; [done|lia].
Qed.

(** More fuel never changes an answer already given. *)
Lemma UpdateUnit_fuel_mono fuel fuel' i (model : Model) deltaTime (w w' : World) :
  UpdateUnit fuel i model deltaTime w = Some w' → fuel ≤ fuel' →
  UpdateUnit fuel' i model deltaTime w = Some w'.
Proof.
  unfold UpdateUnit, move_unit. destruct (negb (active (unit_at w i))); [done|].
  destruct (resolve_target _ _ _) as [[unit1 target] r1].
  unfold steer. destruct (_ >f F32.lit 1 10); [|done].
  destruct (will_collide _ _ _ _ _); [done|].
  unfold advance. intros H Hle.
  destruct (wrap_down fuel _) as [d1|] eqn:Hd; simpl in H; [|done].
  destruct (wrap_up fuel d1) as [d2|] eqn:Hu; simpl in H; [|done].
  rewrite (wrap_down_mono _ _ _ _ Hd Hle). simpl.
  by rewrite (wrap_up_mono _ _ _ _ Hu Hle).
Qed.

(** The call returns whenever the unit is inactive, stays put, or avoids;
    otherwise it returns as soon as the two loops have run out. *)
Lemma UpdateUnit_returns fuel i (model : Model) deltaTime (w : World) unit1 target r1 :
  resolve_target (unit_at w i) deltaTime (rng w) = (unit1, target, r1) →
  active (unit_at w i) = false ∨
  (Vector3Length (Vector3Subtract target (position unit1)) >f F32.lit 1 10) = false ∨
  takes_avoidance w i model unit1 target = true ∨
  is_Some (wrap_down fuel
             (atan2f (vz (Vector3Normalize (Vector3Subtract target (position unit1))))
                     (vx (Vector3Normalize (Vector3Subtract target (position unit1))))
              -f rotation unit1) ≫= wrap_up fuel) →
  is_Some (UpdateUnit fuel i model deltaTime w).
Proof.
  intros Hres Hcase. unfold UpdateUnit, move_unit.
  destruct (active (unit_at w i)) eqn:Hact; simpl; [|done].
  rewrite Hres. unfold steer, takes_avoidance in *.
  destruct Hcase as [?|[Hnear|[Havoid|Hloops]]]; [done| | |].
  - by rewrite Hnear.
  - apply andb_true_iff in Havoid as [-> ->]. simpl.
    by destruct (avoid _ _ _ _).
  - destruct (_ >f F32.lit 1 10); [|done].
    destruct (will_collide _ _ _ _ _); simpl; [by destruct (avoid _ _ _ _)|].
    unfold advance. simpl.
    destruct (wrap_down fuel _) as [d1|]; simpl in *; [|by destruct Hloops].
    destruct (wrap_up fuel d1) as [d2|]; simpl in *; [done|by destruct Hloops].
Qed.
End Fuel.


(** ** Screen-to-world projection (GetGroundPositionFromMouse) *)

Section Mouse.
Context {E : Externals}.

Lemma mouse_mesh_plain ray tf acc (mesh : Mesh) :
  indices mesh = None → mouse_mesh ray tf acc mesh = acc.
Proof. intros H. unfold mouse_mesh. rewrite H. by destruct (hit _). Qed.

Lemma mouse_scan_indexed_only ray tf acc (ms : list Mesh) :
  foldl (mouse_mesh ray tf) acc (List.filter has_indices ms) =
  foldl (mouse_mesh ray tf) acc ms.
Proof.
  revert acc. induction ms as [|mesh ms IH]; intros acc; simpl; [done|].
  unfold has_indices at 1. destruct (indices mesh) as [idx|] eqn:Hidx; simpl.
  - apply IH.
  - rewrite (mouse_mesh_plain _ _ _ _ Hidx). apply IH.
Qed.

Lemma mouse_scan_all_plain ray tf acc (ms : list Mesh) :
  Forall (λ mesh, indices mesh = None) ms →
  foldl (mouse_mesh ray tf) acc ms = acc.
Proof.
  intros H. revert acc. induction H as [|mesh ms Hm _ IH]; intros acc; simpl; [done|].
  rewrite (mouse_mesh_plain _ _ _ _ Hm). apply IH.
Qed.

(** When nothing is registered the result is the plane intersection, with
    its division, whatever the direction of the ray. *)
Lemma no_hit_divides mousePos camera (model : Model) :
  (mouse_scan (GetMouseRay mousePos camera) model).2 = false →
  GetGroundPositionFromMouse mousePos camera model =
    ground_plane_point (GetMouseRay mousePos camera).
Proof.
  intros H. unfold GetGroundPositionFromMouse, ground_position_of_ray.
  destruct (mouse_scan _ model) as [[cd hp] found]. simpl in H. by rewrite H.
Qed.

(** C10. The projection gives the same answer as on the model with every
    mesh that has no index array taken out; on a model made only of such
    meshes it is the intersection with the plane y = 0. *)
Theorem GetGroundPositionFromMouse_skips_plain_meshes mousePos camera (model : Model) :
  GetGroundPositionFromMouse mousePos camera model =
    GetGroundPositionFromMouse mousePos camera
      (mkModel (transform model) (List.filter has_indices (meshes model))) ∧
  (Forall (λ mesh, indices mesh = None) (meshes model) →
   GetGroundPositionFromMouse mousePos camera model =
     ground_plane_point (GetMouseRay mousePos camera)).
Proof.
  split.
  - unfold GetGroundPositionFromMouse, ground_position_of_ray, mouse_scan. simpl.
    by rewrite mouse_scan_indexed_only.
  - intros Hplain. apply no_hit_divides. unfold mouse_scan.
    by rewrite mouse_scan_all_plain.
Qed.

(** C3. With the eye one unit under the plane and the ray running along
    +X, no mesh registering a hit, the function does carry out
    [-ray.position.y / ray.direction.y] with a zero divisor: [t] is
    +infinity, the test [t > 0] passes and the returned point is
    (+infinity, UNIT_HEIGHT_OFFSET, NaN), not the default point. *)
Theorem GetGroundPositionFromMouse_parallel_ray mousePos camera (model : Model) :
  GetMouseRay mousePos camera = parallel_ray →
  (mouse_scan parallel_ray model).2 = false →
  GetGroundPositionFromMouse mousePos camera model =
    mkVector3 (S754_infinity false) UNIT_HEIGHT_OFFSET S754_nan ∧
  GetGroundPositionFromMouse mousePos camera model ≠
    mkVector3 (F32.of_int 0) UNIT_HEIGHT_OFFSET (F32.of_int 0).
Proof.
  intros Hray Hmiss.
  assert (GetGroundPositionFromMouse mousePos camera model =
          mkVector3 (S754_infinity false) UNIT_HEIGHT_OFFSET S754_nan) as ->.
  { rewrite no_hit_divides; rewrite Hray; [|done]. vm_compute. reflexivity. }
  split; [reflexivity|]. vm_compute. discriminate.
Qed.

End Mouse.

Lemma GetGroundPositionFromMouse_skips_plain_meshes_witness :
  Forall (λ mesh, indices mesh = None) (meshes plain_model) ∧
  GetGroundPositionFromMouse pixel top_camera plain_model = v3 f0 f02 f0 ∧
  GetGroundHeight (v3 f0 f02 f0) plain_model = fi 2 +f f02 ∧
  CheckCollisionWithModel (v3 f0 (fi 3) f0) (v3 f0 (fi (-1)) f0) plain_model
    UNIT_AVOIDANCE_DISTANCE = true.
Proof.
  assert (Forall (λ mesh, indices mesh = None) (meshes plain_model)) as Hplain
    by (repeat constructor).
  split; [exact Hplain|]. split; [|split; vm_compute; reflexivity].
  rewrite (proj2 (GetGroundPositionFromMouse_skips_plain_meshes
                    pixel top_camera plain_model) Hplain).
  vm_compute. reflexivity.
Defined.

Lemma GetGroundPositionFromMouse_parallel_ray_witness :
  GetGroundPositionFromMouse pixel parallel_camera flat_model =
    mkVector3 (S754_infinity false) UNIT_HEIGHT_OFFSET S754_nan.
Proof.
  apply (GetGroundPositionFromMouse_parallel_ray pixel parallel_camera flat_model);
    vm_compute; reflexivity.
Defined.

(** ** Avoidance and the stored targets (UpdateUnit) *)

Section Avoidance.
Context {E : Externals}.

Lemma resolve_target_keeps (unit unit1 : Unit) deltaTime r actualTarget r1 :
  resolve_target unit deltaTime r = (unit1, actualTarget, r1) →
  commandTarget unit1 = commandTarget unit ∧
  position unit1 = position unit ∧
  (hasCommand unit1 = true →
     unit1 = unit ∧ actualTarget = commandTarget unit) ∧
  (hasCommand unit1 = false → hasCommand unit = true →
     targetPosition unit1 = targetPosition unit).
Proof.
  unfold resolve_target. destruct (hasCommand unit) eqn:Hc.
  - destruct (_ <f UNIT_ARRIVAL_DISTANCE); intros [= <- <- <-]; simpl;
      repeat split; try done; congruence.
  - destruct (_ <=f F32.of_int 0).
    + destruct (GetRandomValue 0 360 r) as [a ra].
      destruct (GetRandomValue 2 8 ra) as [d rd].
      destruct (GetRandomValue 20 50 rd) as [m rm].
      intros [= <- <- <-]; simpl; repeat split; try done; congruence.
    + intros [= <- <- <-]; simpl; repeat split; try done; congruence.
Qed.

Lemma avoid_result (unit : Unit) actualTarget deltaTime r :
  let direction := Vector3Normalize (Vector3Subtract actualTarget (position unit)) in
  let d := deflected unit actualTarget r in
  (avoid unit direction deltaTime r).1 =
    if hasCommand unit then
      set_position unit
        (Vector3Add (position unit)
           (Vector3Scale d (UNIT_SPEED *f deltaTime *f F32.lit 5 10)))
    else
      set_moveTimer
        (set_targetPosition unit
           (Vector3Add (position unit) (Vector3Scale d (F32.of_int 3))))
        F32.one.
Proof.
  unfold avoid, deflected. simpl.
  destruct (GetRandomValue (-90) 90 r) as [a r1]. simpl.
  by destruct (hasCommand unit).
Qed.

(** C1 (as the code has it). When the update of an active unit goes into
    the avoidance branch, UpdateUnit returns and the stored command target
    is the one it was. If the unit still holds its command after the
    arrival test, the wander target is untouched as well and the unit
    steps half a tick's distance along the deflected direction. If it is
    wandering, the branch does retarget: the wander target becomes the
    point 3 along the deflected direction from the unit, the timer
    becomes 1, and the unit takes no step: its X and Z are the ones it
    had, and its Y is, as after every update, the GetGroundHeight sample
    at the position it had. *)
Theorem avoidance_stored_targets (fuel i : nat) (model : Model)
    (deltaTime : float) (w : World) unit1 actualTarget r1 :
  active (unit_at w i) = true →
  resolve_target (unit_at w i) deltaTime (rng w) = (unit1, actualTarget, r1) →
  takes_avoidance w i model unit1 actualTarget = true →
  ∃ w', UpdateUnit fuel i model deltaTime w = Some w' ∧
    let d := deflected unit1 actualTarget r1 in
    let u' := unit_at w' i in
    commandTarget u' = commandTarget (unit_at w i) ∧
    (hasCommand unit1 = true →
       targetPosition u' = targetPosition (unit_at w i) ∧
       hasCommand u' = true ∧
       ground_clamp model
         (set_position unit1
            (Vector3Add (position unit1)
               (Vector3Scale d (UNIT_SPEED *f deltaTime *f F32.lit 5 10)))) = u') ∧
    (hasCommand unit1 = false →
       targetPosition u' = Vector3Add (position unit1) (Vector3Scale d (F32.of_int 3)) ∧
       moveTimer u' = F32.one ∧
       position u' =
         mkVector3 (vx (position (unit_at w i)))
           (GetGroundHeight (position (unit_at w i)) model)
           (vz (position (unit_at w i)))).
Proof.
  intros Hact Hres Havoid. pose proof (active_in_range _ _ Hact) as Hlt.
  destruct (resolve_target_keeps _ _ _ _ _ _ Hres) as (Hcmd & Hpos & Hkeep & _).
  unfold takes_avoidance in Havoid. apply andb_true_iff in Havoid as [Hfar Hcol].
  unfold UpdateUnit, move_unit. rewrite Hact, Hres. simpl.
  unfold steer. rewrite Hfar, Hcol. simpl.
  pose proof (avoid_result unit1 actualTarget deltaTime r1) as Hav. simpl in Hav.
  destruct (avoid unit1 _ deltaTime r1) as [unit2 r2]. simpl in Hav. subst unit2.
  eexists. split; [reflexivity|]. simpl.
  rewrite unit_at_set_rng, unit_at_set_unit by done.
  destruct (hasCommand unit1) eqn:Hc; simpl.
  - destruct (Hkeep eq_refl) as [-> _]. repeat split; done.
  - rewrite Hpos. repeat split; done.
Qed.

End Avoidance.

Lemma avoidance_stored_targets_witness :
  (∃ w', UpdateUnit 1 0 flat_model dt60 escort_world = Some w' ∧
         commandTarget (unit_at w' 0) = v3 (fi 5) f02 f0 ∧
         targetPosition (unit_at w' 0) = v3 f0 f02 f0 ∧
         position (unit_at w' 0) = v3 (UNIT_SPEED *f dt60 *f F32.lit 5 10) f02 f0) ∧
  (∃ w', UpdateUnit 1 0 flat_model dt60 hover_world = Some w' ∧
         position (unit_at hover_world 0) = v3 f0 (fi 5) f0 ∧
         position (unit_at w' 0) = v3 f0 f02 f0 ∧
         moveTimer (unit_at w' 0) = F32.one).
Proof.
  split.
  - assert (active (unit_at escort_world 0) = true) as Hact
      by (vm_compute; reflexivity).
    assert (resolve_target (unit_at escort_world 0) dt60 (rng escort_world) =
            (commanded, v3 (fi 5) f02 f0, 90%Z)) as Hres
      by (vm_compute; reflexivity).
    assert (takes_avoidance escort_world 0 flat_model commanded (v3 (fi 5) f02 f0) = true)
      as Havoid by (vm_compute; reflexivity).
    pose proof (avoidance_stored_targets 1 0 flat_model dt60 escort_world
                  commanded (v3 (fi 5) f02 f0) 90%Z Hact Hres Havoid) as H.
    destruct H as (w' & Hrun & Hct & Hcmd & _).
    exists w'. split; [exact Hrun|].
    destruct Hcmd as (Htp & _ & Hmove); [vm_compute; reflexivity|].
    rewrite Hct, Htp, <- Hmove.
    split; [vm_compute; reflexivity|]. split; vm_compute; reflexivity.
  - assert (active (unit_at hover_world 0) = true) as Hact
      by (vm_compute; reflexivity).
    assert (resolve_target (unit_at hover_world 0) dt60 (rng hover_world) =
            (set_moveTimer hoverer (fi 5 -f dt60), v3 (fi 5) (fi 5) f0, 90%Z)) as Hres
      by (vm_compute; reflexivity).
    assert (takes_avoidance hover_world 0 flat_model
              (set_moveTimer hoverer (fi 5 -f dt60)) (v3 (fi 5) (fi 5) f0) = true)
      as Havoid by (vm_compute; reflexivity).
    pose proof (avoidance_stored_targets 1 0 flat_model dt60 hover_world
                  (set_moveTimer hoverer (fi 5 -f dt60)) (v3 (fi 5) (fi 5) f0) 90%Z
                  Hact Hres Havoid) as H.
    destruct H as (w' & Hrun & _ & _ & Hwander).
    exists w'. split; [exact Hrun|].
    destruct Hwander as (_ & Htimer & Hpos); [vm_compute; reflexivity|].
    rewrite Hpos, Htimer.
    split; [vm_compute; reflexivity|]. split; [vm_compute; reflexivity|]. reflexivity.
Defined.

(** C1 fails as stated for a wandering unit: with another unit half a unit
    away the update of [crowd_world] goes into the avoidance branch, and
    the stored wander target moves from (5, 0.2, 0) to (3, 0.2, 0). *)
Lemma avoidance_retargets_wanderer :
  active (unit_at crowd_world 0) = true ∧
  near_other_unit crowd_world 0 (position (unit_at crowd_world 0)) = true ∧
  takes_avoidance crowd_world 0 flat_model
    (set_moveTimer wanderer (fi 5 -f dt60)) (v3 (fi 5) f02 f0) = true ∧
  targetPosition (unit_at crowd_world 0) = v3 (fi 5) f02 f0 ∧
  (λ w', targetPosition (unit_at w' 0)) <$>
    UpdateUnit 1 0 flat_model dt60 crowd_world = Some (v3 (fi 3) f02 f0) ∧
  v3 (fi 3) f02 f0 ≠ v3 (fi 5) f02 f0.
Proof.
  split; [vm_compute; reflexivity|]. split; [vm_compute; reflexivity|].
  split; [vm_compute; reflexivity|]. split; [vm_compute; reflexivity|].
  split; [vm_compute; reflexivity|]. vm_compute. discriminate.
Qed.

(** ** Ground height (GetGroundHeight) *)

Section GroundHeight.
Context {E : Externals}.

Lemma ground_mesh_candidates ray tf acc (mesh : Mesh) :
  ground_mesh ray tf acc mesh =
  foldl ground_pick acc
    (if hit (box_collision ray mesh)
     then triangle_collision ray tf <$> mesh_triangles mesh else []).
Proof.
  unfold ground_mesh, mesh_triangles.
  destruct (hit (box_collision ray mesh)); [|done].
  destruct (indices mesh) as [idx|]; rewrite !foldl_fmap; reflexivity.
Qed.

Lemma ground_scan_candidates position (model : Model) acc :
  foldl (ground_mesh (down_ray position) (transform model)) acc (meshes model) =
  foldl ground_pick acc (ground_candidates position model).
Proof.
  unfold ground_candidates. revert acc.
  induction (meshes model) as [|mesh ms IH]; intros acc; simpl; [done|].
  rewrite foldl_app, <- ground_mesh_candidates. apply IH.
Qed.

Lemma scanned_step seen acc c :
  scanned seen acc → scanned (seen ++ [c]) (ground_pick acc c).
Proof.
  assert (∀ d d' e : float, (d <f e) = true → (d' <f e) = false →
            (d' <f d) = false) as Hbelow.
  { intros d d' e Hd Hd'. destruct (d' <f d) eqn:Hlt; [|done].
    by rewrite (lt_trans _ _ _ Hlt Hd) in Hd'. }
  unfold ground_pick.
  intros [[-> Hnone]|(c0 & Hin & Hhit & Hnear & -> & Hmin)]; simpl.
  - destruct (hit c) eqn:Hc; simpl; [destruct (distance c <f far) eqn:Hd|].
    + right. exists c. split; [set_solver|]. repeat split; try done.
      intros c' [Hc'| ->%list_elem_of_singleton]%elem_of_app Hh'.
      * eapply Hbelow; eauto.
      * apply lt_irrefl.
    + left. split; [done|].
      intros c' [Hc'| ->%list_elem_of_singleton]%elem_of_app Hh'; eauto.
    + left. split; [done|].
      intros c' [Hc'| ->%list_elem_of_singleton]%elem_of_app Hh'; [eauto|congruence].
  - destruct (hit c) eqn:Hc; simpl; [destruct (distance c <f distance c0) eqn:Hd|].
    + right. exists c. split; [set_solver|]. repeat split; try done.
      * eapply lt_trans; eauto.
      * intros c' [Hc'| ->%list_elem_of_singleton]%elem_of_app Hh'.
        -- eapply Hbelow; eauto.
        -- apply lt_irrefl.
    + right. exists c0. split; [set_solver|]. repeat split; try done.
      intros c' [Hc'| ->%list_elem_of_singleton]%elem_of_app Hh'; eauto.
    + right. exists c0. split; [set_solver|]. repeat split; try done.
      intros c' [Hc'| ->%list_elem_of_singleton]%elem_of_app Hh'; [eauto|congruence].
Qed.

Lemma scanned_fold l : ∀ seen acc,
  scanned seen acc → scanned (seen ++ l) (foldl ground_pick acc l).
Proof.
  induction l as [|c l IH]; intros seen acc H; simpl.
  - by rewrite app_nil_r.
  - replace (seen ++ c :: l) with ((seen ++ [c]) ++ l)
      by (rewrite <- app_assoc; reflexivity).
    apply IH. by apply scanned_step.
Qed.

(** C4 (as the code has it). GetGroundHeight casts the ray [down_ray] from
    10 above the position and tests every triangle, in either layout, of
    every mesh whose bounding box that ray strikes. If none of these tests
    reports a hit nearer than 10000, the result is UNIT_HEIGHT_OFFSET.
    Otherwise it is the Y of a reported hit nearer than 10000, plus
    UNIT_HEIGHT_OFFSET, and no reported hit of any mesh is nearer than
    that one. *)
Theorem GetGroundHeight_nearest (position : Vector3) (model : Model) :
  let tests := ground_candidates position model in
  ((∀ c, c ∈ tests → hit c = true → (distance c <f far) = false) ∧
   GetGroundHeight position model = UNIT_HEIGHT_OFFSET) ∨
  (∃ c, c ∈ tests ∧ hit c = true ∧ (distance c <f far) = true ∧
        GetGroundHeight position model = vy (point c) +f UNIT_HEIGHT_OFFSET ∧
        ∀ c', c' ∈ tests → hit c' = true → (distance c' <f distance c) = false).
Proof.
  intros tests. unfold GetGroundHeight. rewrite ground_scan_candidates.
  fold tests. fold far.
  assert (scanned [] (far, F32.zero)) as H0.
  { left. split; [done|]. intros c Hc. by apply elem_of_nil in Hc. }
  apply (scanned_fold tests) in H0. simpl in H0.
  destruct H0 as [[-> Hnone]|(c & Hin & Hhit & Hnear & -> & Hmin)].
  - left. split; [done|]. reflexivity.
  - right. exists c. repeat split; try done.
    by rewrite (lt_not_ge _ _ Hnear).
Qed.

End GroundHeight.

(** A far surface is not registered: 20000 below, the square is struck by
    the downward ray (the first triangle test reports a hit at Y = -20000)
    and yet the result is the default height, not -20000 plus the offset. *)
Lemma GetGroundHeight_far_surface :
  (λ c, (hit c, vy (point c))) <$>
    ground_candidates (v3 (fi 1) f02 (fi (-1))) deep_model =
    [(true, fi (-20000)); (false, f0)] ∧
  GetGroundHeight (v3 (fi 1) f02 (fi (-1))) deep_model = UNIT_HEIGHT_OFFSET ∧
  UNIT_HEIGHT_OFFSET ≠ fi (-20000) +f UNIT_HEIGHT_OFFSET.
Proof.
  split; [vm_compute; reflexivity|]. split; [vm_compute; reflexivity|].
  vm_compute. discriminate.
Qed.

(** With the lower square listed first, the answer is still the upper one. *)
Example GetGroundHeight_stacked :
  GetGroundHeight (v3 (fi 1) f02 (fi (-1))) stacked_model = fi 2 +f f02.
Proof. vm_compute. reflexivity. Qed.

(** ** Arrival at the command target (UpdateUnit) *)

Section Arrival.
Context {E : Externals}.

Lemma UpdateUnit_iter_S n fuel i (model : Model) deltaTime (w : World) :
  UpdateUnit_iter (S n) fuel i model deltaTime w =
  UpdateUnit fuel i model deltaTime w ≫= UpdateUnit_iter n fuel i model deltaTime.
Proof. reflexivity. Qed.

Lemma resolve_target_command (unit unit1 : Unit) deltaTime r actualTarget r1 :
  resolve_target unit deltaTime r = (unit1, actualTarget, r1) →
  hasCommand unit1 = hasCommand unit && negb (arrived unit) ∧
  commandTarget unit1 = commandTarget unit ∧ active unit1 = active unit.
Proof.
  unfold resolve_target, arrived. destruct (hasCommand unit) eqn:Hc.
  - destruct (_ <f UNIT_ARRIVAL_DISTANCE); intros [= <- <- <-]; simpl; by rewrite ?Hc.
  - destruct (_ <=f F32.of_int 0).
    + destruct (GetRandomValue 0 360 r) as [a ra].
      destruct (GetRandomValue 2 8 ra) as [d rd].
      destruct (GetRandomValue 20 50 rd) as [m rm].
      intros [= <- <- <-]; simpl; by rewrite ?Hc.
    + intros [= <- <- <-]; simpl; by rewrite ?Hc.
Qed.

Lemma steer_command fuel (w : World) i (model : Model) deltaTime unit target r unit2 r2 :
  steer fuel w i model deltaTime unit target r = Some (unit2, r2) →
  hasCommand unit2 = hasCommand unit ∧
  commandTarget unit2 = commandTarget unit ∧ active unit2 = active unit.
Proof.
  unfold steer. destruct (_ >f F32.lit 1 10); [|by intros [= <- <-]].
  destruct (will_collide _ _ _ _ _).
  - unfold avoid. destruct (GetRandomValue (-90) 90 r) as [a ra].
    destruct (hasCommand unit) eqn:Hc; intros [= <- <-]; simpl; by rewrite ?Hc.
  - unfold advance. destruct (wrap_down _ _) as [d1|]; simpl; [|done].
    destruct (wrap_up _ _) as [d2|]; simpl; [|done]. by intros [= <- <-].
Qed.

(** One call: the command target stays, and the command stays exactly
    when the call did not start below the arrival threshold. *)
Lemma UpdateUnit_command fuel i (model : Model) deltaTime (w w' : World) :
  active (unit_at w i) = true →
  UpdateUnit fuel i model deltaTime w = Some w' →
  hasCommand (unit_at w' i) =
    hasCommand (unit_at w i) && negb (arrived (unit_at w i)) ∧
  commandTarget (unit_at w' i) = commandTarget (unit_at w i) ∧
  active (unit_at w' i) = true.
Proof.
  intros Hact. pose proof (active_in_range _ _ Hact) as Hlt.
  unfold UpdateUnit, move_unit. rewrite Hact. simpl.
  destruct (resolve_target _ _ _) as [[unit1 target] r1] eqn:Hres.
  apply resolve_target_command in Hres as (Hc1 & Ht1 & Ha1).
  destruct (steer _ _ _ _ _ _ _ _) as [[unit2 r2]|] eqn:Hst; simpl; [|done].
  apply steer_command in Hst as (Hc2 & Ht2 & Ha2).
  intros [= <-]. rewrite unit_at_set_rng, unit_at_set_unit by done. simpl.
  repeat split; congruence.
Qed.

Lemma command_stays_cleared n : ∀ fuel i (model : Model) deltaTime (w w' : World),
  active (unit_at w i) = true → hasCommand (unit_at w i) = false →
  UpdateUnit_iter n fuel i model deltaTime w = Some w' →
  hasCommand (unit_at w' i) = false.
Proof.
  induction n as [|n IH]; intros fuel i model deltaTime w w' Hact Hc.
  - by intros [= <-].
  - rewrite UpdateUnit_iter_S.
    destruct (UpdateUnit fuel i model deltaTime w) as [w1|] eqn:Hstep; simpl; [|done].
    destruct (UpdateUnit_command _ _ _ _ _ _ Hact Hstep) as (Hc1 & _ & Ha1).
    rewrite Hc in Hc1. by apply IH.
Qed.

Lemma commandTarget_iter n : ∀ fuel i (model : Model) deltaTime (w w' : World),
  active (unit_at w i) = true →
  UpdateUnit_iter n fuel i model deltaTime w = Some w' →
  commandTarget (unit_at w' i) = commandTarget (unit_at w i) ∧
  active (unit_at w' i) = true.
Proof.
  induction n as [|n IH]; intros fuel i model deltaTime w w' Hact.
  - by intros [= <-].
  - rewrite UpdateUnit_iter_S.
    destruct (UpdateUnit fuel i model deltaTime w) as [w1|] eqn:Hstep; simpl; [|done].
    destruct (UpdateUnit_command _ _ _ _ _ _ Hact Hstep) as (_ & Ht1 & Ha1).
    intros Hrun. destruct (IH _ _ _ _ _ _ Ha1 Hrun) as [Ht Ha].
    split; congruence.
Qed.

(** For an active unit under a command, any number of UpdateUnit calls
    leaves the command target where it is, and hasCommand is still set
    afterwards exactly when none of those calls started with the unit
    nearer to the target than UNIT_ARRIVAL_DISTANCE: the first call that
    starts nearer clears it, and nothing else does. *)
Lemma command_cleared_on_arrival n : ∀ fuel i (model : Model) deltaTime (w w' : World),
  active (unit_at w i) = true → hasCommand (unit_at w i) = true →
  UpdateUnit_iter n fuel i model deltaTime w = Some w' →
  commandTarget (unit_at w' i) = commandTarget (unit_at w i) ∧
  (hasCommand (unit_at w' i) = true ↔
   ∀ k wk, k < n → UpdateUnit_iter k fuel i model deltaTime w = Some wk →
           arrived (unit_at wk i) = false).
Proof.
  induction n as [|n IH]; intros fuel i model deltaTime w w' Hact Hc.
  - intros [= <-]. split; [done|]. split; [intros _ k wk Hk; lia|done].
  - rewrite UpdateUnit_iter_S.
    destruct (UpdateUnit fuel i model deltaTime w) as [w1|] eqn:Hstep; simpl; [|done].
    intros Hrun.
    destruct (UpdateUnit_command _ _ _ _ _ _ Hact Hstep) as (Hc1 & Ht1 & Ha1).
    rewrite Hc in Hc1. simpl in Hc1.
    destruct (arrived (unit_at w i)) eqn:Harr; simpl in Hc1.
    + destruct (commandTarget_iter _ _ _ _ _ _ _ Ha1 Hrun) as [Htgt _].
      rewrite Ht1 in Htgt.
      split; [done|].
      rewrite (command_stays_cleared _ _ _ _ _ _ _ Ha1 Hc1 Hrun).
      split; [done|]. intros Hall.
      specialize (Hall 0 w ltac:(lia) eq_refl). congruence.
    + destruct (IH _ _ _ _ _ _ Ha1 Hc1 Hrun) as [Htgt Hiff].
      split; [congruence|]. rewrite Hiff. split.
      * intros Hall [|k] wk Hk.
        -- by intros [= <-].
        -- rewrite UpdateUnit_iter_S, Hstep. simpl. apply Hall. lia.
      * intros Hall k wk Hk Hrunk. apply (Hall (S k) wk); [lia|].
        by rewrite UpdateUnit_iter_S, Hstep.
Qed.

End Arrival.

(** On the flat square the walker, 3 away from its target, still holds its
    command after 76 ticks of 1/60 s and has lost it after 77. *)
Example walker_arrives :
  (λ w', hasCommand (unit_at w' 0)) <$>
    UpdateUnit_iter 76 2 0 flat_model dt60 walker_world = Some true ∧
  (λ w', hasCommand (unit_at w' 0)) <$>
    UpdateUnit_iter 77 2 0 flat_model dt60 walker_world = Some false.
Proof. split; vm_compute; reflexivity. Qed.

(** A target above the ground the unit walks on. A unit on the ground is
    selected and the roof 20 above it is right-clicked:
    GetGroundPositionFromMouse gives the point on the roof,
    CommandUnitsToPosition makes the unit's formation slot, at roof height,
    its command target. Nothing is within UNIT_AVOIDANCE_DISTANCE on the
    way up, yet every UpdateUnit call returns the globals unchanged: the
    step upward is undone by the ground clamp. *)
Example roof_target_out_of_reach :
  roof_click = v3 f0 (fi 20 +f f02) f0 ∧
  unit_at ordered_world 0 =
    set_hasCommand (set_commandTarget sentry (v3 slot_offset (fi 20 +f f02) slot_offset)) true ∧
  unitCount ordered_world = 1%Z ∧
  will_collide ordered_world 0 roofed_model (unit_at ordered_world 0)
    (Vector3Normalize
       (Vector3Subtract (commandTarget (unit_at ordered_world 0))
          (position (unit_at ordered_world 0)))) = false ∧
  arrived (unit_at ordered_world 0) = false ∧
  ∀ n, UpdateUnit_iter n 2 0 roofed_model dt60 ordered_world = Some ordered_world.
Proof.
  split; [vm_compute; reflexivity|]. split; [vm_compute; reflexivity|].
  split; [vm_compute; reflexivity|]. split; [vm_compute; reflexivity|].
  split; [vm_compute; reflexivity|].
  assert (UpdateUnit 2 0 roofed_model dt60 ordered_world = Some ordered_world)
    as Hstep by (vm_compute; reflexivity).
  induction n as [|n IH]; [reflexivity|].
  rewrite UpdateUnit_iter_S, Hstep. exact IH.
Qed.

(** ** A step that is lost (UpdateUnit) *)

Section Stall.
Context {E : Externals}.

Lemma existsb_same {A} (f g : A → bool) (l : list A) :
  (∀ x, f x = g x) → existsb f l = existsb g l.
Proof. intros H. induction l as [|x l IH]; simpl; [done|]. by rewrite H, IH. Qed.

Lemma near_other_unit_own_slot (w : World) i (u : Unit) r pos :
  near_other_unit (set_rng (set_unit w i u) r) i pos = near_other_unit w i pos.
Proof.
  unfold near_other_unit. apply existsb_same. intros j.
  destruct (Nat.eqb_spec j i) as [->|Hne]; [done|].
  by rewrite unit_at_set_rng, unit_at_set_unit_ne.
Qed.

Lemma set_position_same (u : Unit) : set_position u (position u) = u.
Proof. by destruct u. Qed.

Lemma set_position_turned (u : Unit) heading :
  set_position (set_rotation u heading) (position u) = set_rotation u heading.
Proof. by destruct u. Qed.

Lemma with_vy_same (v : Vector3) : with_vy v (vy v) = v.
Proof. by destruct v. Qed.

(** One tick of a stalled unit: it returns as soon as the two loops do,
    and all it changes is the heading. *)
Lemma stalled_tick fuel i (model : Model) deltaTime (w w' : World) :
  stalled w i model deltaTime →
  UpdateUnit fuel i model deltaTime w = Some w' →
  ∃ heading, w' = set_unit w i (set_rotation (unit_at w i) heading).
Proof.
  intros (Hact & Hcmd & Harr & Hfar & Hclear & Hstep & Hground).
  pose proof (active_in_range _ _ Hact) as Hlt.
  unfold UpdateUnit, move_unit. rewrite Hact. cbn [negb].
  unfold resolve_target. rewrite Hcmd. unfold arrived in Harr. rewrite Harr.
  unfold steer. rewrite Hfar, Hclear. unfold advance.
  unfold command_step in Hstep. cbv zeta. rewrite Hstep.
  rewrite (set_position_same (unit_at w i)).
  destruct (wrap_down fuel _) as [d1|]; [|done]. cbn [mbind option_bind].
  destruct (wrap_up fuel d1) as [d2|]; [|done]. cbn [mbind option_bind].
  intros [= <-]. eexists. unfold ground_clamp.
  change (position (set_rotation ?u ?r)) with (position u).
  rewrite Hground, with_vy_same, set_position_turned. by destruct w.
Qed.

Lemma stalled_kept i (model : Model) deltaTime (w : World) heading :
  stalled w i model deltaTime →
  stalled (set_unit w i (set_rotation (unit_at w i) heading)) i model deltaTime.
Proof.
  intros (Hact & Hcmd & Harr & Hfar & Hclear & Hstep & Hground).
  pose proof (active_in_range _ _ Hact) as Hlt.
  unfold stalled. rewrite unit_at_set_unit by done.
  repeat split; try done.
  unfold will_collide in *. apply orb_false_iff in Hclear as [Hmesh Hunits].
  apply orb_false_iff. split; [done|].
  pose proof (near_other_unit_own_slot w i (set_rotation (unit_at w i) heading)
                (rng w) (position (unit_at w i))) as Hsame.
  replace (set_rng (set_unit w i (set_rotation (unit_at w i) heading)) (rng w))
    with (set_unit w i (set_rotation (unit_at w i) heading)) in Hsame
    by (by destruct w).
  change (position (set_rotation ?u ?r)) with (position u). by rewrite Hsame.
Qed.

(** C5. The code does not always bring a commanded unit to its target. A
    unit under command that is short of its target, with nothing in its
    way, and whose step is lost when it is added to the position (the sum
    rounds back to the position, as it does at 60 frames per second for
    coordinates beyond 2^20) is where it was after any number of updates:
    same position, still short of the target, hasCommand still set. And
    when one update returns the globals unchanged, so does every number of
    updates. *)
Theorem lost_step_never_arrives fuel i (model : Model) deltaTime (w : World) :
  stalled w i model deltaTime →
  (∀ n w', UpdateUnit_iter n fuel i model deltaTime w = Some w' →
     position (unit_at w' i) = position (unit_at w i) ∧
     commandTarget (unit_at w' i) = commandTarget (unit_at w i) ∧
     arrived (unit_at w' i) = false ∧
     hasCommand (unit_at w' i) = true) ∧
  (UpdateUnit fuel i model deltaTime w = Some w →
   ∀ n, UpdateUnit_iter n fuel i model deltaTime w = Some w).
Proof.
  intros Hst. split.
  - intros n. revert w Hst. induction n as [|n IH]; intros w Hst w'.
    + intros [= <-]. by destruct Hst as (_ & ? & ? & _).
    + rewrite UpdateUnit_iter_S.
      destruct (UpdateUnit fuel i model deltaTime w) as [w1|] eqn:Htick; [|done].
      cbn [mbind option_bind]. intros Hrun.
      destruct (stalled_tick _ _ _ _ _ _ Hst Htick) as [heading ->].
      destruct (IH _ (stalled_kept _ _ _ _ heading Hst) _ Hrun) as (Hp & Ht & Ha & Hc).
      pose proof (active_in_range _ _ (proj1 Hst)) as Hlt.
      rewrite unit_at_set_unit in Hp, Ht by done. done.
  - intros Hfix n. induction n as [|n IH]; [done|].
    by rewrite UpdateUnit_iter_S, Hfix.
Qed.

End Stall.

Lemma lost_step_never_arrives_witness :
  (∀ j, j ≠ 0 → active (unit_at far_world j) = false) ∧
  CheckCollisionWithModel (position (unit_at far_world 0))
    (Vector3Normalize
       (Vector3Subtract (commandTarget (unit_at far_world 0))
          (position (unit_at far_world 0)))) far_model far = false ∧
  position (unit_at far_world 0) = v3 (fi (2 ^ 21 + 1)) f02 f0 ∧
  commandTarget (unit_at far_world 0) = v3 (F32.lit (2 ^ 22 + 15) 2) f02 f0 ∧
  hasCommand (unit_at far_world 0) = true ∧
  arrived (unit_at far_world 0) = false ∧
  ∀ n, UpdateUnit_iter n 2 0 far_model dt60 far_world = Some far_world.
Proof.
  assert (stalled far_world 0 far_model dt60) as Hst.
  { unfold stalled. cbv zeta.
    split; [vm_compute; reflexivity|]. split; [vm_compute; reflexivity|].
    split; [vm_compute; reflexivity|]. split; [vm_compute; reflexivity|].
    split; [vm_compute; reflexivity|]. split; vm_compute; reflexivity. }
  assert (UpdateUnit 2 0 far_model dt60 far_world = Some far_world) as Hfix
    by (vm_compute; reflexivity).
  assert (units far_world = unit_at far_world 0 :: replicate 99 zeroUnit) as Hus
    by (vm_compute; reflexivity).
  split.
  { intros [|j] Hj; [exfalso; by apply Hj|]. unfold unit_at at 1. rewrite Hus.
    change ((unit_at far_world 0 :: replicate 99 zeroUnit) !! S j)
      with (replicate 99 zeroUnit !! j).
    destruct (decide (j < 99)) as [Hlt|Hge].
    - rewrite lookup_replicate_2 by done. reflexivity.
    - rewrite lookup_ge_None_2 by (rewrite length_replicate; lia). reflexivity. }
  split; [vm_compute; reflexivity|]. split; [vm_compute; reflexivity|].
  split; [vm_compute; reflexivity|].
  split; [exact (proj1 (proj2 Hst))|]. split; [exact (proj1 (proj2 (proj2 Hst)))|].
  exact (proj2 (lost_step_never_arrives 2 0 far_model dt60 far_world Hst) Hfix).
Defined.

(** ** Loops over the unit slots *)

Section Loops.
Context {E : Externals}.

Lemma lookup_map_slots n f (us : list Unit) i :
  map_slots n f us !! i = (λ u, if decide (i < n) then f u else u) <$> us !! i.
Proof. unfold map_slots. by rewrite list_lookup_imap. Qed.

Lemma length_map_slots n f (us : list Unit) :
  length (map_slots n f us) = length us.
Proof. apply length_imap. Qed.

Lemma set_units_id (w : World) : set_units w (units w) = w.
Proof. by destruct w. Qed.

Lemma set_unit_id (w : World) i : set_unit w i (unit_at w i) = w.
Proof.
  unfold set_unit, unit_at. destruct (units w !! i) as [u|] eqn:Hi; simpl.
  - rewrite list_insert_id by done. apply set_units_id.
  - rewrite list_insert_ge by (by apply lookup_ge_None). apply set_units_id.
Qed.

Lemma foldl_ext_in {A B} (f g : A → B → A) (l : list B) a :
  (∀ a b, f a b = g a b) → foldl f a l = foldl g a l.
Proof.
  intros H. revert a. induction l as [|b l IH]; intros a; simpl; [done|].
  by rewrite H, IH.
Qed.

(** A loop whose round [i] rewrites slot [i] from its own content. *)
Lemma loop_slots (f : Unit → Unit) n (w : World) :
  foldl (λ w i, set_unit w i (f (unit_at w i))) w (seq 0 n) =
  set_units w (map_slots n f (units w)).
Proof.
  induction n as [|n IH].
  - simpl. rewrite <- (set_units_id w) at 1. f_equal.
    apply list_eq. intros i. rewrite lookup_map_slots.
    destruct (units w !! i); simpl; [|done]. by destruct (decide (i < 0)); [lia|].
  - rewrite seq_S, foldl_app, IH. simpl.
    unfold set_unit, unit_at, set_units. simpl. f_equal.
    apply list_eq. intros i. rewrite !lookup_map_slots.
    destruct (decide (i = n)) as [->|Hne].
    + destruct (units w !! n) as [u|] eqn:Hn; simpl.
      * rewrite list_lookup_insert_eq
          by (rewrite length_map_slots; by eapply lookup_lt_Some).
        destruct (decide (n < n)); [lia|]. destruct (decide (n < S n)); [done|lia].
      * rewrite list_insert_ge
          by (rewrite length_map_slots; by apply lookup_ge_None).
        by rewrite lookup_map_slots, Hn.
    + rewrite list_lookup_insert_ne by done. rewrite lookup_map_slots.
      destruct (units w !! i); simpl; [|done].
      destruct (decide (i < n)), (decide (i < S n)); try done; lia.
Qed.

Lemma map_slots_compose n f g (us : list Unit) :
  map_slots n f (map_slots n g us) = map_slots n (f ∘ g) us.
Proof.
  apply list_eq. intros i. rewrite !lookup_map_slots.
  destruct (us !! i); simpl; [|done]. by destruct (decide (i < n)).
Qed.

Lemma map_slots_ext n f g (us : list Unit) :
  (∀ u, f u = g u) → map_slots n f us = map_slots n g us.
Proof.
  intros H. apply list_eq. intros i. rewrite !lookup_map_slots.
  destruct (us !! i); simpl; [|done]. destruct (decide (i < n)); by rewrite ?H.
Qed.

Lemma deselect_all_spec (w : World) :
  deselect_all w =
  set_units w
    (map_slots (Z.to_nat (unitCount w)) (λ u, set_selected u false) (units w)).
Proof. unfold deselect_all, slots. apply (loop_slots (λ u, set_selected u false)). Qed.

End Loops.

(** ** Box selection (SelectUnitsInBox) *)

Section BoxSelect.
Context {E : Externals}.

Lemma SelectUnitsInBox_spec start end_ camera (w : World) :
  SelectUnitsInBox start end_ camera w =
  set_units w
    (map_slots (Z.to_nat (unitCount w)) (box_mark start end_ camera) (units w)).
Proof.
  pose (mark u :=
    if active u && box_hit start end_ camera u then set_selected u true else u).
  unfold SelectUnitsInBox, slots.
  transitivity (set_units (deselect_all w)
                  (map_slots (Z.to_nat (unitCount w)) mark (units (deselect_all w)))).
  - rewrite <- (loop_slots mark). apply foldl_ext_in. intros a i.
    unfold mark, box_hit.
    destruct (active (unit_at a i)); simpl; [|by rewrite set_unit_id].
    destruct (in_box _ _ _ _ _); [done|by rewrite set_unit_id].
  - rewrite deselect_all_spec. unfold set_units. simpl. f_equal.
    rewrite map_slots_compose. apply map_slots_ext. intros u.
    unfold box_mark, mark, box_hit. simpl.
    destruct (active u); simpl; [|by destruct u].
    destruct (in_box _ _ _ _ _); by destruct u.
Qed.

Lemma box_mark_idem start end_ camera u :
  box_mark start end_ camera (box_mark start end_ camera u) =
  box_mark start end_ camera u.
Proof. unfold box_mark, box_hit. by destruct u. Qed.

Lemma box_hit_swap start end_ camera u :
  box_hit end_ start camera u = box_hit start end_ camera u.
Proof.
  unfold box_hit, in_box.
  by rewrite (fminf_swap (px end_)), (fmaxf_swap (px end_)),
             (fminf_swap (py end_)), (fmaxf_swap (py end_)).
Qed.

(** C7. Selecting with the same two corners and camera a second time
    leaves the globals exactly as the first selection left them, and the
    result does not depend on which corner is given first. *)
Theorem SelectUnitsInBox_idempotent start end_ camera (w : World) :
  SelectUnitsInBox start end_ camera (SelectUnitsInBox start end_ camera w) =
    SelectUnitsInBox start end_ camera w ∧
  SelectUnitsInBox end_ start camera w = SelectUnitsInBox start end_ camera w.
Proof.
  rewrite !SelectUnitsInBox_spec. unfold set_units. simpl. split; f_equal.
  - rewrite map_slots_compose. apply map_slots_ext. intros u. apply box_mark_idem.
  - apply map_slots_ext. intros u. unfold box_mark. by rewrite box_hit_swap.
Qed.

End BoxSelect.

(** ** Control groups (AssignControlGroup, SelectControlGroup) *)

Lemma remove_first_absent x l : x ∉ l → remove_first x l = l.
Proof.
  induction l as [|y l IH]; simpl; [done|]. intros Hn.
  apply not_elem_of_cons in Hn as [Hne Hn].
  destruct (decide (y = x)); [congruence|]. by rewrite IH.
Qed.

Lemma remove_first_NoDup x l :
  NoDup l → remove_first x l = filter (λ y, y ≠ x) l.
Proof.
  induction 1 as [|y l Hy Hl IH]; simpl; [done|].
  destruct (decide (y = x)) as [->|Hne].
  - rewrite filter_cons_False by (intros ?; congruence).
    rewrite <- (remove_first_absent x l) at 1 by done. apply IH.
  - rewrite filter_cons_True by done. by rewrite IH.
Qed.

Lemma remove_first_delete x l j :
  l !! j = Some x → (∀ j', j' < j → l !! j' ≠ Some x) →
  remove_first x l = delete j l.
Proof.
  revert j. induction l as [|y l IH]; intros j Hj Hfirst; [done|]. simpl.
  destruct j as [|j]; simpl in *.
  - injection Hj as ->. by destruct (decide (x = x)).
  - destruct (decide (y = x)) as [->|Hne].
    + exfalso. apply (Hfirst 0); [lia|done].
    + f_equal. apply IH; [done|]. intros j' Hj'. apply (Hfirst (S j')). lia.
Qed.

Lemma find_seq_Some (P : nat → bool) s c j :
  List.find P (seq s c) = Some j →
  s ≤ j < s + c ∧ P j = true ∧ ∀ j', s ≤ j' < j → P j' = false.
Proof.
  revert s. induction c as [|c IH]; intros s; simpl; [done|].
  destruct (P s) eqn:Hs.
  - intros [= <-]. split; [lia|]. split; [done|]. intros j' ?; lia.
  - intros H. apply IH in H as (Hr & HP & Hfirst). split; [lia|]. split; [done|].
    intros j' Hj'. destruct (decide (j' = s)) as [->|]; [done|]. apply Hfirst. lia.
Qed.

Lemma find_seq_None (P : nat → bool) s c :
  List.find P (seq s c) = None → ∀ j, s ≤ j < s + c → P j = false.
Proof.
  revert s. induction c as [|c IH]; intros s; simpl; [intros _ j ?; lia|].
  destruct (P s) eqn:Hs; [done|]. intros H j Hj.
  destruct (decide (j = s)) as [->|]; [done|]. apply (IH _ H). lia.
Qed.

Lemma lookup_shift_left (a : list Z) j m k :
  j + m < length a →
  foldl (λ a k, <[k := index_at a (Z.of_nat k + 1)]> a) a (seq j m) !! k =
  if decide (j ≤ k < j + m) then a !! S k else a !! k.
Proof.
  revert k. induction m as [|m IH]; intros k Hlen.
  - simpl. destruct (decide (j ≤ k < j + 0)); [lia|done].
  - rewrite seq_S, foldl_app. simpl.
    set (a' := foldl _ a (seq j m)) in *.
    assert (length a' = length a) as Hla.
    { unfold a'. clear. generalize (seq j m). intros l. revert a.
      induction l as [|x l IHl]; intros a; simpl; [done|].
      rewrite IHl. apply length_insert. }
    destruct (decide (k = j + m)) as [->|Hne].
    + rewrite list_lookup_insert_eq by lia.
      destruct (decide (j ≤ j + m < j + S m)); [|lia].
      unfold index_at. replace (Z.to_nat (Z.of_nat (j + m) + 1)) with (S (j + m)) by lia.
      unfold a'. rewrite IH by lia. destruct (decide (j ≤ S (j + m) < j + m)); [lia|].
      destruct (a !! S (j + m)) eqn:Hl; [done|].
      apply lookup_ge_None in Hl. lia.
    + rewrite list_lookup_insert_ne by done. unfold a'. rewrite IH by lia.
      destruct (decide (j ≤ k < j + m)), (decide (j ≤ k < j + S m)); try done; lia.
Qed.

Lemma members_remove_member (g : ControlGroup) (x : Z) :
  (0 ≤ g_unitCount g)%Z → Z.to_nat (g_unitCount g) ≤ length (unitIndices g) →
  members (remove_member g x) = remove_first x (members g) ∧
  length (unitIndices (remove_member g x)) = length (unitIndices g) ∧
  (0 ≤ g_unitCount (remove_member g x) ≤ g_unitCount g)%Z ∧
  g_active (remove_member g x) = g_active g.
Proof.
  intros Hc Hlen. unfold remove_member, members.
  set (a := unitIndices g) in *. set (c := Z.to_nat (g_unitCount g)) in *.
  destruct (List.find _ (seq 0 c)) as [j|] eqn:Hfind.
  - apply find_seq_Some in Hfind as (Hj & Hx & Hfirst). simpl.
    apply Z.eqb_eq in Hx.
    assert (a !! j = Some x) as Haj.
    { unfold index_at in Hx. rewrite Nat2Z.id in Hx.
      destruct (a !! j) eqn:Hl; simpl in Hx; [congruence|].
      apply lookup_ge_None in Hl. lia. }
    assert (length (shift_left a j (g_unitCount g)) = length a) as Hls.
    { unfold shift_left. generalize (seq j (Z.to_nat (g_unitCount g - 1) - j)).
      intros l. generalize a. induction l as [|y l IHl]; intros a0; simpl; [done|].
      rewrite IHl. apply length_insert. }
    split; [|split; [done|split; [lia|done]]].
    rewrite (remove_first_delete x (take c a) j).
    + apply list_eq. intros k. unfold shift_left.
      replace (Z.to_nat (g_unitCount g - 1 - 0)) with (c - 1) by lia.
      replace (Z.to_nat (g_unitCount g - 1)) with (c - 1) by lia.
      destruct (decide (k < c - 1)) as [Hk|Hk].
      * rewrite lookup_take_lt by lia. rewrite lookup_shift_left by lia.
        destruct (decide (j ≤ k < j + (c - 1 - j))).
        -- rewrite list_lookup_delete_ge by lia. by rewrite lookup_take_lt by lia.
        -- rewrite list_lookup_delete_lt by lia. by rewrite lookup_take_lt by lia.
      * rewrite lookup_take_ge by lia. symmetry. apply lookup_ge_None.
        rewrite length_delete by (rewrite lookup_take_lt by lia; eauto).
        rewrite length_take. lia.
    + by rewrite lookup_take_lt by lia.
    + intros j' Hj'. rewrite lookup_take_lt by lia. intros Hl.
      specialize (Hfirst j' ltac:(lia)). apply Z.eqb_neq in Hfirst.
      unfold index_at in Hfirst. rewrite Nat2Z.id, Hl in Hfirst. done.
  - split; [|split; [done|split; [lia|done]]].
    rewrite remove_first_absent; [done|].
    intros (k & Hk)%list_elem_of_lookup. apply lookup_take_Some in Hk as [Hk Hkc].
    pose proof (find_seq_None _ _ _ Hfind k ltac:(lia)) as Hne. simpl in Hne.
    apply Z.eqb_neq in Hne. unfold index_at in Hne. rewrite Nat2Z.id, Hk in Hne. done.
Qed.

Section Groups.
Context {E : Externals}.

Lemma map_slots_S (f : Unit → Unit) k (us : list Unit) :
  <[k := f (default zeroUnit (us !! k))]> (map_slots k f us) = map_slots (S k) f us.
Proof.
  apply list_eq. intros i. rewrite !lookup_map_slots.
  destruct (decide (i = k)) as [->|Hne].
  - destruct (us !! k) as [u|] eqn:Hn; simpl.
    + rewrite list_lookup_insert_eq
        by (rewrite length_map_slots; by eapply lookup_lt_Some).
      destruct (decide (k < S k)); [done|lia].
    + rewrite list_insert_ge
        by (rewrite length_map_slots; by apply lookup_ge_None).
      by rewrite lookup_map_slots, Hn.
  - rewrite list_lookup_insert_ne by done. rewrite lookup_map_slots.
    destruct (us !! i); simpl; [|done].
    destruct (decide (i < k)), (decide (i < S k)); try done; lia.
Qed.

Lemma lookup_map_slots_ge k f (us : list Unit) i :
  k ≤ i → map_slots k f us !! i = us !! i.
Proof.
  intros H. rewrite lookup_map_slots. destruct (us !! i); simpl; [|done].
  destruct (decide (i < k)); [lia|done].
Qed.

Lemma clear_loop (groupNum : Z) (w : World) k :
  foldl (clear_old_assignment groupNum) w (seq 0 k) =
  mkWorld (map_slots k (regroup groupNum) (units w)) (unitCount w)
    (commandMarker w) (foldl (drop_from_old w) (controlGroups w) (seq 0 k)) (rng w).
Proof.
  induction k as [|k IH].
  - simpl. destruct w as [us n m gs r]. simpl. f_equal.
    apply list_eq. intros i. by rewrite lookup_map_slots_ge by lia.
  - rewrite !seq_S, !foldl_app, IH. simpl.
    set (gs := foldl (drop_from_old w) (controlGroups w) (seq 0 k)).
    set (wk := mkWorld _ _ _ gs _).
    assert (unit_at wk k = unit_at w k) as Hk.
    { unfold unit_at, wk. simpl. by rewrite lookup_map_slots_ge by lia. }
    assert (map_slots (S k) (regroup groupNum) (units w) =
            <[k := regroup groupNum (unit_at w k)]> (map_slots k (regroup groupNum) (units w)))
      as -> by (symmetry; apply map_slots_S).
    unfold clear_old_assignment, drop_from_old. rewrite Hk.
    assert (regroup groupNum (unit_at w k) =
            if active (unit_at w k) && selected (unit_at w k)
            then set_groupId (unit_at w k) groupNum else unit_at w k) as -> by done.
    destruct (active (unit_at w k) && selected (unit_at w k)) eqn:Hsel; simpl.
    + destruct (groupId (unit_at w k) >? 0)%Z; reflexivity.
    + unfold wk. f_equal. symmetry. unfold unit_at.
      destruct (units w !! k) as [u|] eqn:Hu; simpl.
      * apply list_insert_id. by rewrite lookup_map_slots_ge, Hu by lia.
      * apply list_insert_ge. rewrite length_map_slots. by apply lookup_ge_None.
Qed.

Lemma filter_all (P : Z → Prop) `{∀ x, Decision (P x)} (l : list Z) :
  (∀ x, P x) → filter P l = l.
Proof.
  intros HP. induction l as [|x l IH]; [done|].
  rewrite filter_cons_True by done. by rewrite IH.
Qed.

Lemma wf_group_zero : wf_group zeroGroup.
Proof.
  unfold wf_group, zeroGroup, members. cbn [unitIndices g_unitCount].
  rewrite length_replicate.
  split; [done|]. split; [unfold MAX_UNITS; lia|]. apply NoDup_nil_2.
Qed.

Lemma wf_group_lookup (gs : list ControlGroup) g :
  Forall wf_group gs → wf_group (default zeroGroup (gs !! g)).
Proof.
  intros H. destruct (gs !! g) as [cg|] eqn:Hg; simpl; [|apply wf_group_zero].
  by eapply Forall_lookup_1.
Qed.

Lemma remove_member_wf (cg : ControlGroup) x :
  wf_group cg →
  wf_group (remove_member cg x) ∧
  members (remove_member cg x) = filter (λ y, y ≠ x) (members cg) ∧
  g_active (remove_member cg x) = g_active cg.
Proof.
  intros (Hlen & Hc & Hnd).
  destruct (members_remove_member cg x) as (Hm & Hl & Hcount & Hact);
    [lia | unfold MAX_UNITS in *; lia |].
  rewrite (remove_first_NoDup _ _ Hnd) in Hm.
  split; [|done]. split; [congruence|]. split; [lia|].
  rewrite Hm. by apply NoDup_filter.
Qed.

Lemma leaves_S (w : World) k g x :
  leaves w (S k) g x =
  leaves w k g x ||
  ((x =? Z.of_nat k)%Z && is_assigned w k && (groupId (unit_at w k) =? g)%Z).
Proof.
  unfold leaves. destruct (Z.eqb_spec x (Z.of_nat k)) as [->|Hne].
  - rewrite Nat2Z.id.
    rewrite (bool_decide_eq_true_2 (0 ≤ Z.of_nat k < Z.of_nat (S k))%Z) by lia.
    rewrite (bool_decide_eq_false_2 (0 ≤ Z.of_nat k < Z.of_nat k)%Z) by lia.
    done.
  - rewrite orb_false_r. f_equal. f_equal. apply bool_decide_ext. lia.
Qed.

Lemma drop_loop (w : World) (gs0 : list ControlGroup) k :
  Forall wf_group gs0 →
  length (foldl (drop_from_old w) gs0 (seq 0 k)) = length gs0 ∧
  Forall wf_group (foldl (drop_from_old w) gs0 (seq 0 k)) ∧
  ∀ g, 0 < g →
    members (default zeroGroup (foldl (drop_from_old w) gs0 (seq 0 k) !! g)) =
      filter (λ x, leaves w k (Z.of_nat g) x = false)
        (members (default zeroGroup (gs0 !! g))) ∧
    g_active (default zeroGroup (foldl (drop_from_old w) gs0 (seq 0 k) !! g)) =
      g_active (default zeroGroup (gs0 !! g)).
Proof.
  intros Hwf0. induction k as [|k (Hlen & Hwf & Hmem)].
  - simpl. split; [done|]. split; [done|]. intros g Hg. split; [|done].
    symmetry. apply filter_all. intros x. unfold leaves.
    rewrite bool_decide_eq_false_2 by lia. done.
  - rewrite seq_S, foldl_app. simpl.
    set (gs := foldl (drop_from_old w) gs0 (seq 0 k)) in *.
    unfold drop_from_old.
    destruct (active (unit_at w k) && selected (unit_at w k)) eqn:Hsel; simpl.
    2:{ split; [done|]. split; [done|]. intros g Hg.
        destruct (Hmem g Hg) as [-> ->]. split; [|done].
        apply list_filter_iff. intros x. rewrite leaves_S.
        unfold is_assigned. rewrite Hsel. by rewrite andb_false_r, orb_false_r. }
    destruct (Z.gtb_spec (groupId (unit_at w k)) 0) as [Hpos|Hnpos].
    2:{ split; [done|]. split; [done|]. intros g Hg.
        destruct (Hmem g Hg) as [-> ->]. split; [|done].
        apply list_filter_iff. intros x. rewrite leaves_S.
        destruct (Z.eqb_spec (groupId (unit_at w k)) (Z.of_nat g)); [lia|].
        by rewrite andb_false_r, orb_false_r. }
    set (gk := Z.to_nat (groupId (unit_at w k))).
    destruct (remove_member_wf (default zeroGroup (gs !! gk)) (Z.of_nat k)
                (wf_group_lookup gs gk Hwf)) as (Hwf' & Hm' & Ha').
    split; [by rewrite length_insert|]. split; [by apply Forall_insert|].
    intros g Hg. destruct (Hmem g Hg) as [Hmg Hag].
    destruct (decide (g = gk)) as [->|Hne].
    + destruct (decide (gk < length gs)) as [Hin|Hout].
      * rewrite list_lookup_insert_eq by done. simpl. rewrite Hm', Ha', Hmg.
        split; [|done]. rewrite list_filter_filter. apply list_filter_iff.
        intros x. rewrite leaves_S. unfold is_assigned. rewrite Hsel.
        replace (groupId (unit_at w k) =? Z.of_nat gk)%Z with true
          by (symmetry; apply Z.eqb_eq; unfold gk; lia).
        rewrite !andb_true_r.
        destruct (Z.eqb_spec x (Z.of_nat k)); destruct (leaves w k (Z.of_nat gk) x);
          simpl; intuition congruence.
      * rewrite list_insert_ge by lia. rewrite Hmg, Hag. split; [|done].
        rewrite (lookup_ge_None_2 gs0) by lia. done.
    + rewrite list_lookup_insert_ne by done. rewrite Hmg, Hag. split; [|done].
      apply list_filter_iff. intros x. rewrite leaves_S.
      destruct (Z.eqb_spec (groupId (unit_at w k)) (Z.of_nat g)); [unfold gk in *; lia|].
      by rewrite andb_false_r, orb_false_r.
Qed.

Lemma filter_seq_S (P : nat → bool) k :
  List.filter P (seq 0 (S k)) = List.filter P (seq 0 k) ++ (if P k then [k] else []).
Proof. rewrite seq_S, List.filter_app. simpl. by destruct (P k). Qed.

Lemma append_loop (w : World) (g0 : ControlGroup) k :
  g_unitCount g0 = 0%Z → k ≤ length (unitIndices g0) →
  members (foldl (append_selected w) g0 (seq 0 k)) =
    Z.of_nat <$> List.filter (is_assigned w) (seq 0 k) ∧
  g_unitCount (foldl (append_selected w) g0 (seq 0 k)) =
    Z.of_nat (length (List.filter (is_assigned w) (seq 0 k))) ∧
  length (List.filter (is_assigned w) (seq 0 k)) ≤ k ∧
  length (unitIndices (foldl (append_selected w) g0 (seq 0 k))) =
    length (unitIndices g0) ∧
  g_active (foldl (append_selected w) g0 (seq 0 k)) = g_active g0.
Proof.
  intros Hc0. induction k as [|k IH]; intros Hk.
  - simpl. unfold members. rewrite Hc0. done.
  - destruct IH as (Hm & Hc & Hle & Hlen & Ha); [lia|].
    rewrite filter_seq_S, seq_S, foldl_app. simpl.
    set (g := foldl (append_selected w) g0 (seq 0 k)) in *.
    unfold append_selected. fold (is_assigned w k).
    destruct (is_assigned w k); simpl.
    + unfold members in *. simpl. rewrite Hc in *.
      rewrite length_app, fmap_app. simpl.
      rewrite !Nat2Z.id in *. rewrite length_insert.
      split; [|split; [lia|split; [lia|done]]].
      replace (Z.to_nat (Z.of_nat (length (List.filter (is_assigned w) (seq 0 k))) + 1))
        with (S (length (List.filter (is_assigned w) (seq 0 k)))) by lia.
      erewrite take_S_r; [|apply list_lookup_insert_eq; lia].
      by rewrite take_insert_ge, Hm by lia.
    + rewrite app_nil_r. repeat split; try done. lia.
Qed.

Lemma is_assigned_regroup groupNum k (w : World) c m gs r i :
  is_assigned (mkWorld (map_slots k (regroup groupNum) (units w)) c m gs r) i =
  is_assigned w i.
Proof.
  unfold is_assigned, unit_at. simpl. rewrite lookup_map_slots.
  destruct (units w !! i) as [u|]; simpl; [|done].
  destruct (decide (i < k)); simpl; [|done]. unfold regroup.
  by destruct (active u && selected u) eqn:Hsel.
Qed.

Lemma filter_ext_bool (P Q : nat → bool) l :
  (∀ i, P i = Q i) → List.filter P l = List.filter Q l.
Proof. intros H. induction l as [|x l IH]; simpl; [done|]. by rewrite H, IH. Qed.

(** What [AssignControlGroup] leaves behind. *)
Lemma AssignControlGroup_spec (groupNum : Z) (w : World) :
  wf_world w → (1 ≤ groupNum ≤ 9)%Z →
  let w' := AssignControlGroup groupNum w in
  units w' = map_slots (Z.to_nat (unitCount w)) (regroup groupNum) (units w) ∧
  unitCount w' = unitCount w ∧
  members (group_at w' groupNum) = assigned_slots w ∧
  g_unitCount (group_at w' groupNum) = Z.of_nat (length (assigned_slots w)) ∧
  g_active (group_at w' groupNum) = true ∧
  length (unitIndices (group_at w' groupNum)) = Z.to_nat MAX_UNITS ∧
  ∀ g, (1 ≤ g ≤ 9)%Z → g ≠ groupNum →
    members (group_at w' g) =
      filter (λ x, leaves w (Z.to_nat (unitCount w)) g x = false)
        (members (group_at w g)) ∧
    g_active (group_at w' g) = g_active (group_at w g).
Proof.
  intros (Hn & Hlu & Hlg & Hwg & Hgid) HG. unfold AssignControlGroup.
  destruct (Z.ltb_spec groupNum 1); [lia|]. destruct (Z.gtb_spec groupNum 9); [lia|].
  simpl. unfold slots. rewrite !clear_loop. simpl.
  set (n := Z.to_nat (unitCount w)).
  set (gs := foldl (drop_from_old w) (controlGroups w) (seq 0 n)).
  set (w1 := mkWorld _ _ _ gs _).
  destruct (drop_loop w (controlGroups w) n Hwg) as (Hlen1 & Hwf1 & Hmem1).
  fold gs in Hlen1, Hwf1, Hmem1.
  destruct (wf_group_lookup gs (Z.to_nat groupNum) Hwf1) as (Hl1 & _ & _).
  set (group0 := mkControlGroup (unitIndices (group_at w1 groupNum)) 0 true).
  destruct (append_loop w1 group0 n eq_refl) as (Hm & Hc & _ & Hl & Ha).
  { unfold group0, group_at, w1. simpl. rewrite Hl1. unfold MAX_UNITS in *. lia. }
  assert (List.filter (is_assigned w1) (seq 0 n) = List.filter (is_assigned w) (seq 0 n))
    as Hsame by (apply filter_ext_bool; intros i; apply is_assigned_regroup).
  rewrite Hsame in Hm, Hc.
  fold w1. fold (group_at w1 groupNum). fold group0.
  unfold set_group, group_at. simpl.
  rewrite list_lookup_insert_eq by (rewrite Hlen1, Hlg; lia). simpl.
  split; [done|]. split; [done|]. split; [done|].
  split; [by rewrite Hc; unfold assigned_slots, slots; rewrite length_fmap|].
  split; [done|]. split; [by rewrite Hl; unfold group0, group_at, w1; simpl|].
  intros g Hg Hne. rewrite list_lookup_insert_ne by lia.
  destruct (Hmem1 (Z.to_nat g) ltac:(lia)) as [Hmg Hag].
  rewrite Z2Nat.id in Hmg by lia. by rewrite Hmg, Hag.
Qed.

Lemma members_Zrange (group : ControlGroup) :
  Z.to_nat (g_unitCount group) ≤ length (unitIndices group) →
  index_at (unitIndices group) <$> Zrange (g_unitCount group) = members group.
Proof.
  intros Hlen. unfold Zrange, members. apply list_eq. intros k.
  rewrite !list_lookup_fmap.
  destruct (decide (k < Z.to_nat (g_unitCount group))) as [Hk|Hk].
  - rewrite lookup_seq_lt by done. simpl. rewrite lookup_take_lt by done.
    unfold index_at. rewrite Nat2Z.id.
    destruct (unitIndices group !! k) eqn:Hl; [done|].
    apply lookup_ge_None in Hl. lia.
  - rewrite lookup_seq_ge by lia. simpl. by rewrite lookup_take_ge by lia.
Qed.

(** The member loop of [SelectControlGroup], slot by slot. *)
Lemma set_selected_twice (u : Unit) a b :
  set_selected (set_selected u a) b = set_selected u b.
Proof. by destruct u. Qed.

Lemma select_loop (group : ControlGroup) (l : list Z) :
  ∀ (w : World) center validCount,
  Forall (λ x, (0 ≤ x)%Z) (index_at (unitIndices group) <$> l) →
  unitCount (foldl (select_member group) (w, center, validCount) l).1.1 = unitCount w ∧
  ∀ j, unit_at (foldl (select_member group) (w, center, validCount) l).1.1 j =
       if bool_decide (Z.of_nat j ∈ index_at (unitIndices group) <$> l) &&
          (Z.of_nat j <? unitCount w)%Z && active (unit_at w j)
       then set_selected (unit_at w j) true else unit_at w j.
Proof.
  induction l as [|x l IH]; intros w center validCount Hnn.
  - split; [done|]. intros j. cbn [foldl fmap list_fmap fst].
    rewrite bool_decide_eq_false_2 by (apply not_elem_of_nil). done.
  - rewrite fmap_cons in Hnn. apply Forall_cons in Hnn as [Hx Hnn].
    set (idx := index_at (unitIndices group) x) in *.
    assert (∀ j, j ≠ Z.to_nat idx →
              bool_decide (Z.of_nat j ∈ index_at (unitIndices group) <$> x :: l) =
              bool_decide (Z.of_nat j ∈ index_at (unitIndices group) <$> l)) as Hother.
    { intros j Hne. apply bool_decide_ext. rewrite fmap_cons, elem_of_cons. fold idx.
      split; [intros [?|?]; [lia|done]|by right]. }
    assert (bool_decide (idx ∈ index_at (unitIndices group) <$> x :: l) = true) as Hhere.
    { apply bool_decide_eq_true_2. rewrite fmap_cons. by left. }
    change (foldl (select_member group) (w, center, validCount) (x :: l))
      with (foldl (select_member group)
              (select_member group (w, center, validCount) x) l).
    assert (select_member group (w, center, validCount) x =
            if (idx <? unitCount w)%Z && active (unit_at w (Z.to_nat idx))
            then (set_unit w (Z.to_nat idx) (set_selected (unit_at w (Z.to_nat idx)) true),
                  mkVector3 (vx center +f vx (position (unit_at w (Z.to_nat idx))))
                            (vy center +f vy (position (unit_at w (Z.to_nat idx))))
                            (vz center +f vz (position (unit_at w (Z.to_nat idx)))),
                  (validCount + 1)%Z)
            else (w, center, validCount)) as -> by reflexivity.
    destruct ((idx <? unitCount w)%Z && active (unit_at w (Z.to_nat idx))) eqn:Hchk.
    + apply andb_true_iff in Hchk as [Hlt Hact].
      pose proof (active_in_range _ _ Hact) as Hin.
      edestruct (IH (set_unit w (Z.to_nat idx) (set_selected (unit_at w (Z.to_nat idx)) true)))
        as [Hc Hu]; [done|]. rewrite Hc. split; [done|].
      intros j. rewrite Hu. clear Hu Hc IH.
      change (unitCount (set_unit w (Z.to_nat idx) _)) with (unitCount w).
      destruct (decide (j = Z.to_nat idx)) as [->|Hne].
      * rewrite unit_at_set_unit by done. rewrite Z2Nat.id by lia.
        rewrite Hhere, Hlt, Hact.
        change (active (set_selected (unit_at w (Z.to_nat idx)) true))
          with (active (unit_at w (Z.to_nat idx))). rewrite Hact.
        rewrite set_selected_twice.
        by destruct (bool_decide (idx ∈ index_at (unitIndices group) <$> l)).
      * rewrite unit_at_set_unit_ne by done. by rewrite Hother.
    + edestruct (IH w) as [Hc Hu]; [done|]. rewrite Hc. split; [done|].
      intros j. rewrite Hu. clear Hu Hc IH.
      destruct (decide (j = Z.to_nat idx)) as [->|Hne].
      * rewrite Z2Nat.id by lia. rewrite <- !andb_assoc, Hchk. by rewrite !andb_false_r.
      * by rewrite Hother.
Qed.

Lemma elem_of_assigned_slots (w : World) (i : nat) :
  Z.of_nat i ∈ assigned_slots w ↔
  i < Z.to_nat (unitCount w) ∧ is_assigned w i = true.
Proof.
  unfold assigned_slots, slots. rewrite list_elem_of_fmap. split.
  - intros (k & Hk & Hin). apply Nat2Z.inj in Hk as <-.
    apply list_elem_of_In, List.filter_In in Hin as [Hin Ha].
    apply List.in_seq in Hin. split; [lia|done].
  - intros [Hlt Ha]. exists i. split; [done|].
    apply list_elem_of_In, List.filter_In. split; [|done]. apply List.in_seq. lia.
Qed.

Lemma assigned_slots_nonneg (w : World) :
  Forall (λ x, (0 ≤ x)%Z) (assigned_slots w).
Proof.
  apply Forall_forall. intros x (k & -> & _)%list_elem_of_fmap. lia.
Qed.

Lemma unit_at_map_slots (w : World) n f us i :
  units w = map_slots n f us → i < n → i < length us →
  unit_at w i = f (default zeroUnit (us !! i)).
Proof.
  intros Hu Hn Hl. unfold unit_at. rewrite Hu, lookup_map_slots.
  destruct (us !! i) as [u|] eqn:Hi; simpl.
  - by destruct (decide (i < n)).
  - apply lookup_ge_None in Hi. lia.
Qed.

(** C6. With the globals in shape, a group number from 1 to 9 and at least
    one selected active unit, AssignControlGroup followed at once by
    SelectControlGroup on the same number leaves every unit slot selected
    exactly when it held a selected active unit, that is an assigned one,
    before the two calls. *)
Theorem assign_then_select (groupNum : Z) (w : World) :
  wf_world w → (1 ≤ groupNum ≤ 9)%Z → assigned_slots w ≠ [] →
  ∀ i, i < Z.to_nat (unitCount w) →
    selected (unit_at (SelectControlGroup groupNum (AssignControlGroup groupNum w)).2 i) =
      is_assigned w i.
Proof.
  intros Hwf HG Hne i Hi.
  destruct (AssignControlGroup_spec groupNum w Hwf HG)
    as (Hu & Hn & Hm & Hc & Ha & Hl & _).
  destruct Hwf as (Hcount & Hlen & _).
  set (w' := AssignControlGroup groupNum w) in *.
  set (group := group_at w' groupNum) in *.
  assert (index_at (unitIndices group) <$> Zrange (g_unitCount group) = assigned_slots w)
    as Hidx.
  { rewrite members_Zrange; [done|]. rewrite Hc, Hl, Nat2Z.id.
    unfold assigned_slots, slots. rewrite length_fmap.
    etrans; [apply List.filter_length_le|]. rewrite length_seq. lia. }
  destruct (select_loop group (Zrange (g_unitCount group)) (deselect_all w')
              zeroVector3 0%Z) as [_ Hsel].
  { rewrite Hidx. apply assigned_slots_nonneg. }
  specialize (Hsel i). rewrite Hidx in Hsel.
  assert (unit_at (deselect_all w') i =
          set_selected (regroup groupNum (unit_at w i)) false) as Hdes.
  { rewrite (unit_at_map_slots (deselect_all w') (Z.to_nat (unitCount w'))
               (λ u, set_selected u false) (units w')).
    - f_equal. fold (unit_at w' i).
      apply (unit_at_map_slots w' _ _ _ _ Hu); lia.
    - by rewrite deselect_all_spec.
    - lia.
    - rewrite Hu, length_map_slots. lia. }
  rewrite Hdes in Hsel.
  assert (unitCount (deselect_all w') = unitCount w) as Hdc
    by (by rewrite deselect_all_spec).
  rewrite Hdc in Hsel.
  assert (bool_decide (Z.of_nat i ∈ assigned_slots w) = is_assigned w i) as Hin.
  { destruct (is_assigned w i) eqn:Hasg.
    - apply bool_decide_eq_true_2, elem_of_assigned_slots. done.
    - apply bool_decide_eq_false_2. rewrite elem_of_assigned_slots.
      intros [_ ?]. congruence. }
  rewrite Hin in Hsel.
  unfold SelectControlGroup.
  destruct (Z.ltb_spec groupNum 1); [lia|]. destruct (Z.gtb_spec groupNum 9); [lia|].
  simpl. fold w'. fold group. rewrite Ha. simpl.
  destruct (Z.eqb_spec (g_unitCount group) 0) as [Hz|_].
  { rewrite Hc in Hz. destruct (assigned_slots w); [done|simpl in Hz; lia]. }
  destruct (foldl _ _ _) as [[w2 center] validCount] eqn:Hfold. simpl in Hsel.
  assert (selected (unit_at w2 i) = is_assigned w i) as Hgoal.
  { rewrite Hsel. unfold is_assigned, regroup.
    destruct (Z.ltb_spec (Z.of_nat i) (unitCount w)); [|lia].
    destruct (active (unit_at w i)) eqn:Hact, (selected (unit_at w i)) eqn:Hs; simpl;
      rewrite ?Hact; done. }
  by destruct (validCount >? 0)%Z.
Qed.
End Groups.

Section Regroup.
Context {E : Externals}.

(** C2 (as the code has it). With the globals in shape and a group number
    G from 1 to 9, after AssignControlGroup(G): every selected active
    unit has group id G and is in G's member list; it is no longer in the
    member list of the group its old id named, and that list has lost
    exactly such units, the rest keeping their order; G's member list is
    exactly the selected active units in slot order, so an earlier member
    of G that is not selected now is no longer in it; and a unit that is
    not selected and active is left as it was, its group id included. *)
Theorem AssignControlGroup_regroups (groupNum : Z) (w : World) :
  wf_world w → (1 ≤ groupNum ≤ 9)%Z →
  (∀ i, i < Z.to_nat (unitCount w) → is_assigned w i = true →
     groupId (unit_at (AssignControlGroup groupNum w) i) = groupNum ∧
     Z.of_nat i ∈ members (group_at (AssignControlGroup groupNum w) groupNum) ∧
     ∀ g, (1 ≤ g ≤ 9)%Z → g ≠ groupNum → groupId (unit_at w i) = g →
          Z.of_nat i ∉ members (group_at (AssignControlGroup groupNum w) g)) ∧
  (∀ g, (1 ≤ g ≤ 9)%Z → g ≠ groupNum →
     members (group_at (AssignControlGroup groupNum w) g) =
       filter (λ x, leaves w (Z.to_nat (unitCount w)) g x = false)
         (members (group_at w g))) ∧
  members (group_at (AssignControlGroup groupNum w) groupNum) = assigned_slots w ∧
  (∀ i, i < Z.to_nat (unitCount w) → is_assigned w i = false →
     unit_at (AssignControlGroup groupNum w) i = unit_at w i).
Proof.
  intros Hwf HG.
  destruct (AssignControlGroup_spec groupNum w Hwf HG)
    as (Hu & Hn & Hm & Hc & Ha & Hl & Hothers).
  destruct Hwf as (Hcount & Hlen & _).
  assert (∀ i, i < Z.to_nat (unitCount w) →
            unit_at (AssignControlGroup groupNum w) i =
            regroup groupNum (unit_at w i)) as Hunit.
  { intros i Hi. apply (unit_at_map_slots _ _ _ _ _ Hu); lia. }
  split; [|split; [|split]].
  - intros i Hi Hasg. rewrite Hunit by done. split; [|split].
    + unfold regroup. unfold is_assigned in Hasg. by rewrite Hasg.
    + rewrite Hm. by apply elem_of_assigned_slots.
    + intros g Hg Hne Hold. destruct (Hothers g Hg Hne) as [-> _].
      rewrite list_elem_of_filter. intros [Hleft _].
      unfold leaves in Hleft. rewrite Nat2Z.id, Hasg, Hold in Hleft.
      rewrite bool_decide_eq_true_2 in Hleft by lia.
      rewrite Z.eqb_refl in Hleft. discriminate.
  - intros g Hg Hne. by destruct (Hothers g Hg Hne) as [-> _].
  - done.
  - intros i Hi Hasg. rewrite Hunit by done. unfold regroup.
    unfold is_assigned in Hasg. by rewrite Hasg.
Qed.

End Regroup.

Lemma AssignControlGroup_regroups_witness :
  groupId (unit_at (AssignControlGroup 2 squad_reselected) 1) = 2%Z ∧
  members (group_at (AssignControlGroup 2 squad_reselected) 2) = [1%Z] ∧
  members (group_at (AssignControlGroup 2 squad_reselected) 1) = [0%Z].
Proof.
  assert (wf_world squad_reselected) as Hwf
    by (apply (bool_decide_unpack _); vm_compute; exact I).
  destruct (AssignControlGroup_regroups 2 squad_reselected Hwf ltac:(lia))
    as (Hsel & Hold & Hnew & _).
  destruct (Hsel 1) as (Hid & _); [vm_compute; lia | vm_compute; reflexivity |].
  split; [exact Hid|]. split.
  - rewrite Hnew. vm_compute. reflexivity.
  - rewrite (Hold 1%Z) by lia. vm_compute. reflexivity.
Defined.

(** C2 fails as stated: units 0 and 1 are the members of group 1, unit 1
    alone is selected, and after AssignControlGroup(1) the member list of
    group 1 is [1]. Unit 0 is out of the list, with its group id still 1. *)
Lemma AssignControlGroup_rebuilds :
  members (group_at squad_reselected 1) = [0; 1]%Z ∧
  is_assigned squad_reselected 0 = false ∧
  is_assigned squad_reselected 1 = true ∧
  members (group_at (AssignControlGroup 1 squad_reselected) 1) = [1%Z] ∧
  groupId (unit_at (AssignControlGroup 1 squad_reselected) 0) = 1%Z.
Proof.
  split; [vm_compute; reflexivity|]. split; [vm_compute; reflexivity|].
  split; [vm_compute; reflexivity|]. split; vm_compute; reflexivity.
Qed.

Lemma assign_then_select_witness :
  selected (unit_at (SelectControlGroup 1 (AssignControlGroup 1 squad_reselected)).2 0)
    = false ∧
  selected (unit_at (SelectControlGroup 1 (AssignControlGroup 1 squad_reselected)).2 1)
    = true.
Proof.
  assert (wf_world squad_reselected) as Hwf
    by (apply (bool_decide_unpack _); vm_compute; exact I).
  assert (assigned_slots squad_reselected ≠ []) as Hne
    by (vm_compute; discriminate).
  pose proof (assign_then_select 1 squad_reselected Hwf ltac:(lia) Hne) as H.
  split.
  - rewrite (H 0) by (vm_compute; lia). vm_compute. reflexivity.
  - rewrite (H 1) by (vm_compute; lia). vm_compute. reflexivity.
Defined.

(** ** The shape of the globals is an invariant *)

Section Shape.
Context {E : Externals}.

Lemma Forall_map_slots (P : Unit → Prop) n f (us : list Unit) :
  Forall P us → (∀ u, P u → P (f u)) → Forall P (map_slots n f us).
Proof.
  intros Hus Hf. apply Forall_lookup. intros i u. rewrite lookup_map_slots.
  destruct (us !! i) as [u0|] eqn:Hi; simpl; [|done]. intros [= <-].
  pose proof (Forall_lookup_1 _ _ _ _ Hus Hi). destruct (decide (i < n)); eauto.
Qed.

Lemma NoDup_assigned (w : World) k :
  NoDup (Z.of_nat <$> List.filter (is_assigned w) (seq 0 k)).
Proof.
  apply NoDup_fmap; [apply Nat2Z.inj'|].
  apply NoDup_ListNoDup, List.NoDup_filter, List.seq_NoDup.
Qed.

(** The shape of the globals is kept by every operation on the selection
    and the groups. *)
Lemma AssignControlGroup_wf (groupNum : Z) (w : World) :
  wf_world w → wf_world (AssignControlGroup groupNum w).
Proof.
  intros Hwf. pose proof Hwf as (Hn & Hlu & Hlg & Hwg & Hgid).
  unfold AssignControlGroup.
  destruct (Z.ltb_spec groupNum 1); [done|]. destruct (Z.gtb_spec groupNum 9); [done|].
  simpl. unfold slots. rewrite !clear_loop. simpl.
  set (n := Z.to_nat (unitCount w)).
  set (gs := foldl (drop_from_old w) (controlGroups w) (seq 0 n)).
  set (w1 := mkWorld _ _ _ gs _).
  destruct (drop_loop w (controlGroups w) n Hwg) as (Hlen1 & Hwf1 & _).
  fold gs in Hlen1, Hwf1.
  destruct (wf_group_lookup gs (Z.to_nat groupNum) Hwf1) as (Hl1 & _ & _).
  fold (group_at w1 groupNum).
  set (group0 := mkControlGroup (unitIndices (group_at w1 groupNum)) 0 true).
  destruct (append_loop w1 group0 n eq_refl) as (Hm & Hc & Hle & Hl & Ha).
  { unfold group0, group_at, w1. simpl. rewrite Hl1. unfold MAX_UNITS in *. lia. }
  unfold wf_world, set_group. simpl.
  split; [done|]. split; [by rewrite length_map_slots|].
  split; [by rewrite length_insert, Hlen1|]. split.
  - apply Forall_insert; [done|]. unfold wf_group.
    split; [by rewrite Hl|]. split; [unfold MAX_UNITS in *; lia|].
    rewrite Hm. apply NoDup_assigned.
  - apply Forall_map_slots; [done|]. intros u Hu. unfold regroup.
    destruct (active u && selected u); [simpl; lia|done].
Qed.

Lemma SelectUnitsInBox_wf start end_ camera (w : World) :
  wf_world w → wf_world (SelectUnitsInBox start end_ camera w).
Proof.
  intros (Hn & Hlu & Hlg & Hwg & Hgid). rewrite SelectUnitsInBox_spec.
  unfold wf_world. simpl. split; [done|]. split; [by rewrite length_map_slots|].
  split; [done|]. split; [done|]. by apply Forall_map_slots.
Qed.

Lemma SpawnUnit_wf centerPos radius (w : World) :
  wf_world w → wf_world (SpawnUnit centerPos radius w).
Proof.
  intros (Hn & Hlu & Hlg & Hwg & Hgid). unfold SpawnUnit.
  destruct (Z.geb_spec (unitCount w) MAX_UNITS) as [|Hlt]; [done|].
  destruct (GetRandomValue 0 360 (rng w)) as [a r1].
  destruct (GetRandomValue 10 _ r1) as [d r2].
  unfold InitUnit. destruct (GetRandomValue 0 360 r2) as [deg r3].
  unfold wf_world. simpl. split; [lia|]. split; [by rewrite length_insert|].
  split; [done|]. split; [done|]. apply Forall_insert; [done|]. simpl. lia.
Qed.
Lemma unit_at_group_ok (w : World) i :
  Forall (λ u, (0 ≤ groupId u ≤ 9)%Z) (units w) → (0 ≤ groupId (unit_at w i) ≤ 9)%Z.
Proof.
  intros H. unfold unit_at. destruct (units w !! i) as [u|] eqn:Hi; simpl; [|lia].
  by apply (Forall_lookup_1 _ _ _ _ H Hi).
Qed.

Lemma resolve_target_groupId (unit unit1 : Unit) deltaTime r actualTarget r1 :
  resolve_target unit deltaTime r = (unit1, actualTarget, r1) →
  groupId unit1 = groupId unit.
Proof.
  unfold resolve_target. destruct (hasCommand unit).
  - destruct (_ <f UNIT_ARRIVAL_DISTANCE); by intros [= <- <- <-].
  - destruct (_ <=f F32.of_int 0).
    + destruct (GetRandomValue 0 360 r) as [a ra].
      destruct (GetRandomValue 2 8 ra) as [d rd].
      destruct (GetRandomValue 20 50 rd) as [m rm]. by intros [= <- <- <-].
    + by intros [= <- <- <-].
Qed.

Lemma steer_groupId fuel (w : World) i (model : Model) deltaTime unit target r unit2 r2 :
  steer fuel w i model deltaTime unit target r = Some (unit2, r2) →
  groupId unit2 = groupId unit.
Proof.
  unfold steer. destruct (_ >f F32.lit 1 10); [|by intros [= <- <-]].
  destruct (will_collide _ _ _ _ _).
  - unfold avoid. destruct (GetRandomValue (-90) 90 r) as [a ra].
    destruct (hasCommand unit); by intros [= <- <-].
  - unfold advance. destruct (wrap_down _ _) as [d1|]; simpl; [|done].
    destruct (wrap_up _ _) as [d2|]; simpl; [|done]. by intros [= <- <-].
Qed.

Lemma UpdateUnit_wf fuel i (model : Model) deltaTime (w w' : World) :
  UpdateUnit fuel i model deltaTime w = Some w' → wf_world w → wf_world w'.
Proof.
  unfold UpdateUnit, move_unit.
  destruct (negb (active (unit_at w i))); [by intros [= <-]|].
  destruct (resolve_target _ _ _) as [[unit1 target] r1] eqn:Hres.
  destruct (steer _ _ _ _ _ _ _ _) as [[unit2 r2]|] eqn:Hst; simpl; [|done].
  intros [= <-] (Hn & Hlu & Hlg & Hwg & Hgid).
  unfold wf_world. simpl. split; [done|]. split; [by rewrite length_insert|].
  split; [done|]. split; [done|]. apply Forall_insert; [done|]. simpl.
  rewrite (steer_groupId _ _ _ _ _ _ _ _ _ _ Hst), (resolve_target_groupId _ _ _ _ _ _ Hres).
  by apply unit_at_group_ok.
Qed.

Lemma deselect_all_wf (w : World) : wf_world w → wf_world (deselect_all w).
Proof.
  intros (Hn & Hlu & Hlg & Hwg & Hgid). rewrite deselect_all_spec.
  unfold wf_world. simpl. split; [done|]. split; [by rewrite length_map_slots|].
  split; [done|]. split; [done|]. by apply Forall_map_slots.
Qed.

Lemma select_loop_wf (group : ControlGroup) (l : list Z) :
  ∀ (w : World) center validCount,
  wf_world w → wf_world (foldl (select_member group) (w, center, validCount) l).1.1.
Proof.
  induction l as [|x l IH]; intros w center validCount Hwf; [done|].
  change (foldl (select_member group) (w, center, validCount) (x :: l))
    with (foldl (select_member group)
            (select_member group (w, center, validCount) x) l).
  unfold select_member at 2.
  destruct (_ && _); [|by apply IH]. apply IH.
  destruct Hwf as (Hn & Hlu & Hlg & Hwg & Hgid).
  unfold wf_world. simpl. split; [done|]. split; [by rewrite length_insert|].
  split; [done|]. split; [done|]. apply Forall_insert; [done|]. simpl.
  by apply unit_at_group_ok.
Qed.

Lemma SelectControlGroup_wf (groupNum : Z) (w : World) :
  wf_world w → wf_world (SelectControlGroup groupNum w).2.
Proof.
  intros Hwf. unfold SelectControlGroup.
  destruct (_ || _); [done|]. destruct (_ || _); [done|].
  pose proof (select_loop_wf (group_at w groupNum)
                (Zrange (g_unitCount (group_at w groupNum)))
                (deselect_all w) zeroVector3 0%Z (deselect_all_wf w Hwf)) as H.
  destruct (foldl _ _ _) as [[w2 center] validCount]. simpl in H.
  by destruct (validCount >? 0)%Z.
Qed.

Lemma command_loop_wf targetPos (model : Model) selectedCount cols (l : list nat) :
  ∀ (w : World) currentUnit,
  wf_world w →
  wf_world (foldl (command_unit targetPos model selectedCount cols) (w, currentUnit) l).1.
Proof.
  induction l as [|i l IH]; intros w currentUnit Hwf; [done|].
  change (foldl (command_unit targetPos model selectedCount cols) (w, currentUnit) (i :: l))
    with (foldl (command_unit targetPos model selectedCount cols)
            (command_unit targetPos model selectedCount cols (w, currentUnit) i) l).
  unfold command_unit at 2.
  destruct (_ && _); [|by apply IH]. apply IH.
  destruct Hwf as (Hn & Hlu & Hlg & Hwg & Hgid).
  unfold wf_world. simpl. split; [done|]. split; [by rewrite length_insert|].
  split; [done|]. split; [done|]. apply Forall_insert; [done|]. simpl.
  by apply unit_at_group_ok.
Qed.

Lemma CommandUnitsToPosition_wf targetPos (model : Model) (w : World) :
  wf_world w → wf_world (CommandUnitsToPosition targetPos model w).
Proof.
  intros Hwf. unfold CommandUnitsToPosition.
  destruct (_ =? 0)%Z; [done|].
  pose proof (command_loop_wf targetPos model (selected_count w)
    (if (F32.to_int (F32.sqrtf (F32.of_int (selected_count w))) =? 0)%Z then 1%Z
     else F32.to_int (F32.sqrtf (F32.of_int (selected_count w))))
    (seq 0 (Z.to_nat (unitCount w))) w 0%Z Hwf) as H.
  destruct (foldl _ _ _) as [w1 n]. simpl in *. exact H.
Qed.
End Shape.

Example initial_world_wf : wf_world (world_of [] 0 blank_groups 0).
Proof. apply (bool_decide_unpack _). vm_compute. exact I. Qed.

(** ** Spawning below capacity (SpawnUnit, InitUnit) *)

Section Spawning.
Context {E : Externals} {V : Structs}.

Lemma SpawnUnit_below (centerPos : Vector3) (radius : float) (w : World) :
  (0 ≤ unitCount w < MAX_UNITS)%Z → Z.to_nat (unitCount w) < length (units w) →
  unitCount (SpawnUnit centerPos radius w) = (unitCount w + 1)%Z ∧
  (∀ u, u = unit_at (SpawnUnit centerPos radius w) (Z.to_nat (unitCount w)) →
     active u = true ∧ selected u = false ∧ hasCommand u = false ∧
     groupId u = 0%Z ∧ targetPosition u = position u ∧
     commandTarget u = position u ∧ velocity u = zeroVector3 ∧
     size u = UNIT_SIZE ∧ moveTimer u = F32.zero ∧
     vy (position u) = vy centerPos +f UNIT_HEIGHT_OFFSET) ∧
  (∀ j, j ≠ Z.to_nat (unitCount w) →
     unit_at (SpawnUnit centerPos radius w) j = unit_at w j) ∧
  controlGroups (SpawnUnit centerPos radius w) = controlGroups w ∧
  commandMarker (SpawnUnit centerPos radius w) = commandMarker w.
Proof.
  intros Hn Hlen. unfold SpawnUnit.
  destruct (Z.geb_spec (unitCount w) MAX_UNITS) as [|_]; [lia|].
  destruct (GetRandomValue 0 360 (rng w)) as [a r1].
  destruct (GetRandomValue 10 _ r1) as [d r2].
  unfold InitUnit. destruct (GetRandomValue 0 360 r2) as [deg r3].
  split; [reflexivity|]. split; [|split; [|split; reflexivity]].
  - intros u ->. unfold unit_at. cbn [units set_unitCount set_rng set_unit set_units].
    rewrite list_lookup_insert_eq by done. cbn. repeat split; reflexivity.
  - intros j Hj. unfold unit_at. cbn [units set_unitCount set_rng set_unit set_units].
    by rewrite list_lookup_insert_ne by done.
Qed.

(** X1. Below capacity SpawnUnit takes the next free slot: the count grows
    by one, the unit in that slot is active, unselected, without command
    and without group, its two targets are its own position, whose height
    is the centre's plus UNIT_HEIGHT_OFFSET; every other slot, the groups
    and the marker are left alone. *)
Theorem SpawnUnit_adds_unit (centerPos : Vector3) (radius : float) (w : World) :
  (0 ≤ unitCount w < MAX_UNITS)%Z → Z.to_nat (unitCount w) < length (units w) →
  unitCount (SpawnUnit centerPos radius w) = (unitCount w + 1)%Z ∧
  (∀ u, u = unit_at (SpawnUnit centerPos radius w) (Z.to_nat (unitCount w)) →
     active u = true ∧ selected u = false ∧ hasCommand u = false ∧
     groupId u = 0%Z ∧ targetPosition u = position u ∧
     commandTarget u = position u ∧ velocity u = zeroVector3 ∧
     size u = UNIT_SIZE ∧ moveTimer u = F32.zero ∧
     vy (position u) = vy centerPos +f UNIT_HEIGHT_OFFSET) ∧
  (∀ j, j ≠ Z.to_nat (unitCount w) →
     unit_at (SpawnUnit centerPos radius w) j = unit_at w j) ∧
  controlGroups (SpawnUnit centerPos radius w) = controlGroups w ∧
  commandMarker (SpawnUnit centerPos radius w) = commandMarker w.
Proof. apply SpawnUnit_below. Qed.

Lemma spawn_many_unitCount (calls : list (Vector3 * float)) (w : World) :
  (unitCount w ≤ MAX_UNITS)%Z →
  unitCount (spawn_many calls w) =
    Z.min (unitCount w + Z.of_nat (length calls)) MAX_UNITS.
Proof.
  unfold spawn_many. revert w.
  induction calls as [|[c r] calls IH]; intros w Hle; simpl foldl.
  - simpl. lia.
  - rewrite IH; rewrite SpawnUnit_unitCount;
      destruct (Z.geb_spec (unitCount w) MAX_UNITS); simpl length; lia.
Qed.

Lemma spawn_five_many modelCenter maxDimension (w : World) :
  spawn_five modelCenter maxDimension w =
  spawn_many (replicate 5 (modelCenter, maxDimension *f F32.of_int 2)) w.
Proof. reflexivity. Qed.

(** X2. Spawn requests fill the array and then stop counting: after any
    number of calls the count is the old count plus the number of calls,
    cut off at MAX_UNITS; one press of SPACE adds five units, or as many
    as still fit. *)
Theorem spawn_count_saturates (calls : list (Vector3 * float)) modelCenter
    maxDimension (w : World) :
  (unitCount w ≤ MAX_UNITS)%Z →
  unitCount (spawn_many calls w) =
    Z.min (unitCount w + Z.of_nat (length calls)) MAX_UNITS ∧
  unitCount (spawn_five modelCenter maxDimension w) =
    Z.min (unitCount w + 5) MAX_UNITS.
Proof.
  intros Hle. split; [by apply spawn_many_unitCount|].
  rewrite spawn_five_many, spawn_many_unitCount by done. reflexivity.
Qed.

End Spawning.

Lemma SpawnUnit_adds_unit_witness :
  unitCount (SpawnUnit (v3 f0 f0 f0) (fi 4) empty_world) = 1%Z ∧
  active (unit_at (SpawnUnit (v3 f0 f0 f0) (fi 4) empty_world) 0) = true.
Proof.
  assert (0 ≤ unitCount empty_world < MAX_UNITS)%Z as Hn by (vm_compute; split; congruence).
  assert (Z.to_nat (unitCount empty_world) < length (units empty_world)) as Hlen
    by (vm_compute; lia).
  destruct (SpawnUnit_adds_unit (v3 f0 f0 f0) (fi 4) empty_world Hn Hlen)
    as (Hc & Hu & _).
  split; [exact Hc|]. exact (proj1 (Hu _ eq_refl)).
Defined.

Lemma spawn_count_saturates_witness :
  unitCount (spawn_five (v3 f0 f0 f0) (fi 2) full_world) = 100%Z.
Proof.
  assert (unitCount full_world ≤ MAX_UNITS)%Z as Hle by (vm_compute; congruence).
  exact (proj2 (spawn_count_saturates [] (v3 f0 f0 f0) (fi 2) full_world Hle)).
Defined.

(** ** Obstacle test (CheckCollisionWithModel) *)

Section Obstacles.
Context {E : Externals}.

(** The triangle tests [CheckCollisionWithModel] can answer with. *)
Lemma CheckCollisionWithModel_true origin direction (model : Model) maxDistance :
  CheckCollisionWithModel origin direction model maxDistance = true ↔
  ∃ mesh tri,
    mesh ∈ meshes model ∧ tri ∈ mesh_triangles mesh ∧
    hit (box_collision (mkRay origin direction) mesh) = true ∧
    (distance (box_collision (mkRay origin direction) mesh) <f maxDistance) = true ∧
    hit (triangle_collision (mkRay origin direction) (transform model) tri) = true ∧
    (distance (triangle_collision (mkRay origin direction) (transform model) tri)
       <f maxDistance) = true.
Proof.
  unfold CheckCollisionWithModel, mesh_triangles. rewrite existsb_exists. split.
  - intros (mesh & Hin & Hmesh). apply list_elem_of_In in Hin.
    destruct (hit (box_collision _ mesh)) eqn:Hbox; cbn [andb] in Hmesh; [|done].
    destruct (distance (box_collision _ mesh) <f maxDistance) eqn:Hbd; [|done].
    destruct (indices mesh) as [idx|] eqn:Hidx;
      apply existsb_exists in Hmesh as (t & Ht & Hnear);
      apply andb_true_iff in Hnear as [Hh Hd]; apply list_elem_of_In in Ht.
    + exists mesh, (indexed_triangle mesh idx t). rewrite Hidx.
      split; [done|]. split; [by apply list_elem_of_fmap_2|]. done.
    + exists mesh, (plain_triangle mesh t). rewrite Hidx.
      split; [done|]. split; [by apply list_elem_of_fmap_2|]. done.
  - intros (mesh & tri & Hin & Htri & Hbox & Hbd & Hh & Hd).
    exists mesh. split; [by apply list_elem_of_In|]. rewrite Hbox, Hbd.
    cbn [andb]. destruct (indices mesh) as [idx|];
      apply list_elem_of_fmap in Htri as (t & -> & Ht);
      apply existsb_exists; exists t; (split; [by apply list_elem_of_In|]);
      by rewrite Hh, Hd.
Qed.

(** X3. A larger [maxDistance] never turns a reported obstacle into a free
    path, and a model without meshes is never an obstacle. *)
Theorem CheckCollisionWithModel_monotone origin direction (model : Model) d d' :
  (CheckCollisionWithModel origin direction model d = true → (d <f d') = true →
   CheckCollisionWithModel origin direction model d' = true) ∧
  (meshes model = [] → CheckCollisionWithModel origin direction model d = false).
Proof.
  split.
  - rewrite !CheckCollisionWithModel_true.
    intros (mesh & tri & Hin & Htri & Hbox & Hbd & Hh & Hd) Hlt.
    exists mesh, tri. repeat split; try done; by eapply lt_trans.
  - intros Hnil. unfold CheckCollisionWithModel. by rewrite Hnil.
Qed.

(** X4. Whenever the obstacle test along the downward ray of
    [GetGroundHeight] reports something nearer than 10000, GetGroundHeight
    does not fall back to the default: its answer is the height of a
    reported hit plus UNIT_HEIGHT_OFFSET. *)
Theorem ground_under_reported_obstacle (position : Vector3) (model : Model) :
  CheckCollisionWithModel (ray_position (down_ray position))
    (ray_direction (down_ray position)) model far = true →
  ∃ c, c ∈ ground_candidates position model ∧ hit c = true ∧
       (distance c <f far) = true ∧
       GetGroundHeight position model = vy (point c) +f UNIT_HEIGHT_OFFSET.
Proof.
  intros Hcol. apply CheckCollisionWithModel_true in Hcol
    as (mesh & tri & Hin & Htri & Hbox & _ & Hh & Hd).
  change (mkRay _ _) with (down_ray position) in *.
  assert (triangle_collision (down_ray position) (transform model) tri
            ∈ ground_candidates position model) as Hcand.
  { unfold ground_candidates. apply list_elem_of_In, in_flat_map.
    exists mesh. split; [by apply list_elem_of_In|]. rewrite Hbox.
    by apply list_elem_of_In, list_elem_of_fmap_2. }
  unfold GetGroundHeight. rewrite ground_scan_candidates. fold far.
  assert (scanned [] (far, F32.zero)) as H0.
  { left. split; [done|]. intros c Hc. by apply elem_of_nil in Hc. }
  apply (scanned_fold (ground_candidates position model)) in H0. simpl in H0.
  destruct H0 as [[_ Hnone]|(c & Hc & Hhit & Hnear & -> & _)].
  - rewrite (Hnone _ Hcand Hh) in Hd. discriminate.
  - exists c. repeat split; try done. by rewrite (lt_not_ge _ _ Hnear).
Qed.

End Obstacles.

Lemma CheckCollisionWithModel_monotone_witness :
  CheckCollisionWithModel (v3 f0 (fi 3) f0) (v3 f0 (fi (-1)) f0) plain_model
    (fi 10) = true.
Proof.
  apply (proj1 (CheckCollisionWithModel_monotone (v3 f0 (fi 3) f0)
                  (v3 f0 (fi (-1)) f0) plain_model UNIT_AVOIDANCE_DISTANCE (fi 10)));
    vm_compute; reflexivity.
Defined.

Lemma ground_under_reported_obstacle_witness :
  ∃ c, c ∈ ground_candidates (v3 f0 f02 f0) plain_model ∧ hit c = true ∧
       (distance c <f far) = true ∧
       GetGroundHeight (v3 f0 f02 f0) plain_model = vy (point c) +f UNIT_HEIGHT_OFFSET.
Proof.
  apply (ground_under_reported_obstacle (v3 f0 f02 f0) plain_model).
  vm_compute. reflexivity.
Defined.

(** ** Signs of binary32 quotients *)

Lemma round_sign_negative m e l :
  (F32.zero <f binary_round_aux F32.prec F32.emax true m e l) = false.
Proof.
  unfold binary_round_aux.
  destruct (shr_fexp _ _ m e l) as [mrs e1].
  destruct (shr_fexp _ _ _ e1 _) as [mrs2 e2].
  destruct (shr_m mrs2); [reflexivity| |reflexivity].
  by destruct (_ <=? _)%Z.
Qed.

(** A quotient of a negative by a positive number, or of a positive by a
    negative one, is never above zero. *)
Lemma div_opposite_signs (a b : float) :
  (F32.zero <f a) = true ∧ (F32.zero <f b) = true ∨
  (a <f F32.zero) = true ∧ (b <f F32.zero) = true →
  (F32.neg a /f b >f F32.of_int 0) = false.
Proof.
  change (F32.of_int 0) with F32.zero. unfold F32.gt.
  intros [[Ha Hb]|[Ha Hb]];
    destruct a as [sa|sa| |sa ma ea]; try discriminate;
    destruct b as [sb|sb| |sb mb eb]; try discriminate;
    destruct sa; try discriminate; destruct sb; try discriminate;
    try reflexivity;
    unfold F32.div, F32.neg, SFopp, SFdiv; cbn [negb xorb];
    destruct (SFdiv_core_binary _ _ _ _ _ _) as [[mz ez] lz];
    apply round_sign_negative.
Qed.

(** ** What the mouse projection returns (GetGroundPositionFromMouse) *)

Section MousePoint.
Context {E : Externals}.

Lemma mouse_mesh_candidates ray tf acc (mesh : Mesh) :
  mouse_mesh ray tf acc mesh =
  foldl mouse_pick acc
    (if hit (box_collision ray mesh) then
       match indices mesh with
       | Some idx =>
           (λ t, triangle_collision ray tf (indexed_triangle mesh idx t))
             <$> Zrange (triangleCount mesh)
       | None => []
       end
     else []).
Proof.
  unfold mouse_mesh. destruct (hit (box_collision ray mesh)); [|done].
  destruct (indices mesh) as [idx|]; [|done]. rewrite foldl_fmap. reflexivity.
Qed.

Lemma mouse_scan_candidates ray (model : Model) acc :
  foldl (mouse_mesh ray (transform model)) acc (meshes model) =
  foldl mouse_pick acc (mouse_candidates ray model).
Proof.
  unfold mouse_candidates. revert acc.
  induction (meshes model) as [|mesh ms IH]; intros acc; cbn [flat_map foldl]; [done|].
  rewrite foldl_app, <- mouse_mesh_candidates. apply IH.
Qed.

(** The triple [(closestDistance, hitPoint, hitFound)] after the
    collisions [seen]. *)
Lemma mouse_pick_scan (l : list RayCollision) : ∀ seen acc,
  (acc = (far, zeroVector3, false) ∧
   ∀ c, c ∈ seen → hit c = true → (distance c <f far) = false) ∨
  (∃ c, c ∈ seen ∧ hit c = true ∧ (distance c <f far) = true ∧
        acc = (distance c, point c, true) ∧
        ∀ c', c' ∈ seen → hit c' = true → (distance c' <f distance c) = false) →
  (foldl mouse_pick acc l = (far, zeroVector3, false) ∧
   ∀ c, c ∈ seen ++ l → hit c = true → (distance c <f far) = false) ∨
  (∃ c, c ∈ seen ++ l ∧ hit c = true ∧ (distance c <f far) = true ∧
        foldl mouse_pick acc l = (distance c, point c, true) ∧
        ∀ c', c' ∈ seen ++ l → hit c' = true → (distance c' <f distance c) = false).
Proof.
  assert (∀ d d' e : float, (d <f e) = true → (d' <f e) = false →
            (d' <f d) = false) as Hbelow.
  { intros d d' e Hd Hd'. destruct (d' <f d) eqn:Hlt; [|done].
    by rewrite (lt_trans _ _ _ Hlt Hd) in Hd'. }
  induction l as [|c l IH]; intros seen acc H.
  - rewrite app_nil_r. exact H.
  - replace (seen ++ c :: l) with ((seen ++ [c]) ++ l)
      by (rewrite <- app_assoc; reflexivity).
    cbn [foldl]. apply IH. clear IH. unfold mouse_pick.
    destruct H as [[-> Hnone]|(c0 & Hin & Hhit & Hnear & -> & Hmin)]; cbn [fst].
    + destruct (hit c) eqn:Hc; cbn [andb]; [destruct (distance c <f far) eqn:Hd|].
      * right. exists c. split; [set_solver|]. repeat split; try done.
        intros c' [Hc'| ->%list_elem_of_singleton]%elem_of_app Hh'.
        -- eapply Hbelow; eauto.
        -- apply lt_irrefl.
      * left. split; [done|].
        intros c' [Hc'| ->%list_elem_of_singleton]%elem_of_app Hh'; eauto.
      * left. split; [done|].
        intros c' [Hc'| ->%list_elem_of_singleton]%elem_of_app Hh'; [eauto|congruence].
    + destruct (hit c) eqn:Hc; cbn [andb]; [destruct (distance c <f distance c0) eqn:Hd|].
      * right. exists c. split; [set_solver|]. repeat split; try done.
        -- eapply lt_trans; eauto.
        -- intros c' [Hc'| ->%list_elem_of_singleton]%elem_of_app Hh'.
           ++ eapply Hbelow; eauto.
           ++ apply lt_irrefl.
      * right. exists c0. split; [set_solver|]. repeat split; try done.
        intros c' [Hc'| ->%list_elem_of_singleton]%elem_of_app Hh'; eauto.
      * right. exists c0. split; [set_solver|]. repeat split; try done.
        intros c' [Hc'| ->%list_elem_of_singleton]%elem_of_app Hh'; [eauto|congruence].
Qed.

Lemma mouse_scan_result ray (model : Model) :
  (mouse_scan ray model = (far, zeroVector3, false) ∧
   ∀ c, c ∈ mouse_candidates ray model → hit c = true → (distance c <f far) = false) ∨
  (∃ c, c ∈ mouse_candidates ray model ∧ hit c = true ∧ (distance c <f far) = true ∧
        mouse_scan ray model = (distance c, point c, true) ∧
        ∀ c', c' ∈ mouse_candidates ray model → hit c' = true →
              (distance c' <f distance c) = false).
Proof.
  unfold mouse_scan. rewrite mouse_scan_candidates. fold far.
  apply (mouse_pick_scan (mouse_candidates ray model) []).
  left. split; [done|]. intros c Hc. by apply elem_of_nil in Hc.
Qed.

Lemma ground_plane_point_height ray : vy (ground_plane_point ray) = UNIT_HEIGHT_OFFSET.
Proof. unfold ground_plane_point. by destruct (_ >f _). Qed.

(** X5. The mouse projection returns either the point of the nearest
    reported triangle hit (among the indexed meshes whose box the ray
    strikes, and nearer than 10000) raised by UNIT_HEIGHT_OFFSET, or, when
    there is no such hit, a point whose height is exactly
    UNIT_HEIGHT_OFFSET. *)
Theorem GetGroundPositionFromMouse_point mousePos camera (model : Model) :
  (∃ c, c ∈ mouse_candidates (GetMouseRay mousePos camera) model ∧
        hit c = true ∧ (distance c <f far) = true ∧
        GetGroundPositionFromMouse mousePos camera model =
          with_vy (point c) (vy (point c) +f UNIT_HEIGHT_OFFSET) ∧
        ∀ c', c' ∈ mouse_candidates (GetMouseRay mousePos camera) model →
              hit c' = true → (distance c' <f distance c) = false) ∨
  ((∀ c, c ∈ mouse_candidates (GetMouseRay mousePos camera) model →
         hit c = true → (distance c <f far) = false) ∧
   GetGroundPositionFromMouse mousePos camera model =
     ground_plane_point (GetMouseRay mousePos camera) ∧
   vy (GetGroundPositionFromMouse mousePos camera model) = UNIT_HEIGHT_OFFSET).
Proof.
  unfold GetGroundPositionFromMouse, ground_position_of_ray.
  destruct (mouse_scan_result (GetMouseRay mousePos camera) model)
    as [[-> Hnone]|(c & Hin & Hhit & Hnear & -> & Hmin)].
  - right. split; [done|]. split; [done|]. apply ground_plane_point_height.
  - left. exists c. repeat split; done.
Qed.

(** X6. When no triangle hit is registered and the ray points away from
    the plane y = 0 (it starts above and climbs, or starts below and
    descends), the quotient [t] is not positive and the answer is the
    default point (0, UNIT_HEIGHT_OFFSET, 0). *)
Theorem GetGroundPositionFromMouse_away mousePos camera (model : Model) :
  (mouse_scan (GetMouseRay mousePos camera) model).2 = false →
  (F32.zero <f vy (ray_position (GetMouseRay mousePos camera))) = true ∧
  (F32.zero <f vy (ray_direction (GetMouseRay mousePos camera))) = true ∨
  (vy (ray_position (GetMouseRay mousePos camera)) <f F32.zero) = true ∧
  (vy (ray_direction (GetMouseRay mousePos camera)) <f F32.zero) = true →
  GetGroundPositionFromMouse mousePos camera model = default_point.
Proof.
  intros Hmiss Hsigns. rewrite no_hit_divides by done.
  unfold ground_plane_point. by rewrite div_opposite_signs.
Qed.

End MousePoint.

Lemma GetGroundPositionFromMouse_away_witness :
  GetGroundPositionFromMouse pixel sky_camera flat_model = default_point.
Proof.
  apply (GetGroundPositionFromMouse_away pixel sky_camera flat_model).
  - vm_compute. reflexivity.
  - left. split; vm_compute; reflexivity.
Defined.

(** ** Orders (CommandUnitsToPosition) *)

Lemma count_filter (P : nat → bool) (l : list nat) (a : Z) :
  foldl (λ n i, if P i then (n + 1)%Z else n) a l =
  (a + Z.of_nat (length (List.filter P l)))%Z.
Proof.
  revert a. induction l as [|i l IH]; intros a; simpl; [lia|].
  rewrite IH. destruct (P i); simpl; lia.
Qed.

Lemma formation_cols_table :
  forallb (λ n, (F32.to_int (F32.sqrtf (F32.of_int n)) =? Z.sqrt n)%Z)
    (Z.succ <$> Zrange MAX_UNITS) = true.
Proof. vm_compute. reflexivity. Qed.

Section Orders.
Context {E : Externals}.

Lemma selected_count_rank (w : World) :
  selected_count w = rank w (Z.to_nat (unitCount w)).
Proof. unfold selected_count, rank. by rewrite (count_filter (is_assigned w)). Qed.

Lemma rank_S (w : World) k :
  rank w (S k) = (rank w k + if is_assigned w k then 1 else 0)%Z.
Proof.
  unfold rank. rewrite filter_seq_S, length_app.
  destruct (is_assigned w k); simpl; lia.
Qed.

Lemma rank_bounds (w : World) k : (0 ≤ rank w k ≤ Z.of_nat k)%Z.
Proof.
  unfold rank. pose proof (List.filter_length_le (is_assigned w) (seq 0 k)) as H.
  rewrite length_seq in H. lia.
Qed.

Lemma rank_zero (w : World) k :
  (∀ i, i < k → is_assigned w i = false) → rank w k = 0%Z.
Proof.
  intros H. induction k as [|k IH]; [done|].
  rewrite rank_S, IH by (intros; apply H; lia). rewrite H by lia. lia.
Qed.

Lemma rank_positive (w : World) k i :
  i < k → is_assigned w i = true → (0 < rank w k)%Z.
Proof.
  intros Hi Ha. induction k as [|k IH]; [lia|]. rewrite rank_S.
  pose proof (rank_bounds w k). destruct (decide (i = k)) as [->|].
  - rewrite Ha. lia.
  - specialize (IH ltac:(lia)). destruct (is_assigned w k); lia.
Qed.

(** What the loop of lines 407-428 has done after the first [k] slots. *)
Lemma command_loop targetPos (model : Model) selectedCount cols (w : World) k :
  foldl (command_unit targetPos model selectedCount cols) (w, 0%Z) (seq 0 k) =
  (set_units w
     (imap (λ i u,
        if decide (i < k) then
          if active u && selected u
          then order_to u (formation_target targetPos model selectedCount cols (rank w i))
          else u
        else u) (units w)),
   rank w k).
Proof.
  induction k as [|k IH].
  - simpl. f_equal. rewrite <- (set_units_id w) at 1. f_equal.
    apply list_eq. intros i. rewrite list_lookup_imap.
    destruct (units w !! i); simpl; [|done]. by destruct (decide (i < 0)); [lia|].
  - rewrite seq_S, foldl_app, IH. cbn [foldl]. clear IH.
    set (cmd := λ (n : nat) (i : nat) (u : Unit),
      if decide (i < n) then
        if active u && selected u
        then order_to u (formation_target targetPos model selectedCount cols (rank w i))
        else u
      else u).
    change (command_unit targetPos model selectedCount cols
              (set_units w (imap (cmd k) (units w)), rank w k) (0 + k) =
            (set_units w (imap (cmd (S k)) (units w)), rank w (S k))).
    assert (unit_at (set_units w (imap (cmd k) (units w))) k = unit_at w k) as Hk.
    { unfold unit_at. cbn [units set_units]. rewrite list_lookup_imap.
      destruct (units w !! k); simpl; [|done]. unfold cmd.
      by destruct (decide (k < k)); [lia|]. }
    unfold command_unit. cbn [Nat.add]. rewrite Hk, rank_S.
    fold (is_assigned w k). unfold set_unit, set_units. cbn [units unitCount commandMarker controlGroups rng].
    destruct (is_assigned w k) eqn:Ha.
    + f_equal. f_equal.
      apply list_eq. intros i. rewrite list_lookup_imap.
      destruct (decide (i = k)) as [->|Hne].
      * unfold is_assigned in Ha.
        pose proof (active_in_range w k ltac:(by apply andb_true_iff in Ha as [-> _])) as Hlt.
        rewrite list_lookup_insert_eq by (by rewrite length_imap).
        unfold unit_at in *. destruct (units w !! k) as [u|] eqn:Hu; simpl in *.
        -- unfold cmd. destruct (decide (k < S k)); [|lia]. by rewrite Ha.
        -- apply lookup_ge_None in Hu. lia.
      * rewrite list_lookup_insert_ne by done. rewrite list_lookup_imap.
        destruct (units w !! i); simpl; [|done]. unfold cmd.
        destruct (decide (i < k)), (decide (i < S k)); try done; lia.
    + rewrite Z.add_0_r. f_equal. f_equal.
      apply list_eq. intros i. rewrite !list_lookup_imap.
      destruct (units w !! i) as [u|] eqn:Hu; simpl; [|done]. unfold cmd.
      destruct (decide (i < k)), (decide (i < S k)); try done; try lia.
      assert (i = k) as -> by lia. unfold is_assigned, unit_at in Ha.
      rewrite Hu in Ha. simpl in Ha. by rewrite Ha.
Qed.

(** X7. With no selected active unit among the counted slots,
    CommandUnitsToPosition changes nothing at all: no unit is ordered and
    the command marker is not even moved. *)
Theorem CommandUnitsToPosition_nobody targetPos (model : Model) (w : World) :
  (∀ i, i < Z.to_nat (unitCount w) → is_assigned w i = false) →
  CommandUnitsToPosition targetPos model w = w.
Proof.
  intros Hnone. unfold CommandUnitsToPosition.
  by rewrite selected_count_rank, rank_zero.
Qed.

(** X8. With at least one selected active unit, CommandUnitsToPosition
    puts the marker on the target for one second and gives every selected
    active unit, and no other, its order: the unit that is number [k]
    among the selected ones in slot order gets the formation point of
    row [k / cols], column [k % cols], at the ground height sampled there;
    its wander timer is reset. Positions, selection, groups and the count
    are untouched. *)
Theorem CommandUnitsToPosition_orders targetPos (model : Model) (w : World) :
  (∃ i, i < Z.to_nat (unitCount w) ∧ is_assigned w i = true) →
  commandMarker (CommandUnitsToPosition targetPos model w) =
    mkCommandMarker targetPos F32.one true ∧
  unitCount (CommandUnitsToPosition targetPos model w) = unitCount w ∧
  controlGroups (CommandUnitsToPosition targetPos model w) = controlGroups w ∧
  rng (CommandUnitsToPosition targetPos model w) = rng w ∧
  ∀ i, unit_at (CommandUnitsToPosition targetPos model w) i =
    if bool_decide (i < Z.to_nat (unitCount w)) && is_assigned w i
    then order_to (unit_at w i)
           (formation_target targetPos model (selected_count w)
              (formation_cols (selected_count w)) (rank w i))
    else unit_at w i.
Proof.
  intros (i0 & Hi0 & Ha0). unfold CommandUnitsToPosition.
  pose proof (rank_positive w _ _ Hi0 Ha0) as Hpos.
  rewrite <- selected_count_rank in Hpos.
  destruct (Z.eqb_spec (selected_count w) 0) as [|_]; [lia|].
  fold (formation_cols (selected_count w)). rewrite command_loop.
  cbn [fst]. repeat split; try reflexivity.
  intros i. unfold unit_at, is_assigned. cbn [units set_commandMarker set_units].
  rewrite list_lookup_imap. unfold unit_at.
  destruct (units w !! i) as [u|]; simpl; [|by rewrite andb_false_r].
  destruct (decide (i < Z.to_nat (unitCount w))).
  - by rewrite bool_decide_eq_true_2.
  - by rewrite bool_decide_eq_false_2.
Qed.

(** X9. Whenever something is selected and the count of units is within
    MAX_UNITS, the number of formation columns is the integer square root
    of the number of selected units: binary32 [sqrtf] followed by the
    cast never lands on the wrong side of an integer, the count is at
    least 1 and the [cols == 0] fallback is not taken. *)
Theorem formation_columns (w : World) :
  (unitCount w ≤ MAX_UNITS)%Z → selected_count w ≠ 0%Z →
  formation_cols (selected_count w) = Z.sqrt (selected_count w) ∧
  (1 ≤ formation_cols (selected_count w))%Z ∧
  F32.to_int (F32.sqrtf (F32.of_int (selected_count w))) ≠ 0%Z.
Proof.
  intros Hmax Hsel.
  pose proof (rank_bounds w (Z.to_nat (unitCount w))) as Hb.
  rewrite <- selected_count_rank in Hb.
  set (n := selected_count w) in *.
  assert (Z.succ (n - 1) ∈ Z.succ <$> Zrange MAX_UNITS) as Hin.
  { apply list_elem_of_fmap_2. unfold Zrange.
    replace (n - 1)%Z with (Z.of_nat (Z.to_nat (n - 1))) by lia.
    apply list_elem_of_fmap_2, elem_of_seq. lia. }
  replace (Z.succ (n - 1)) with n in Hin by lia.
  pose proof formation_cols_table as Htab. rewrite forallb_forall in Htab.
  specialize (Htab n ltac:(by apply list_elem_of_In)). apply Z.eqb_eq in Htab.
  assert (1 ≤ Z.sqrt n)%Z as Hsq.
  { change 1%Z with (Z.sqrt 1). apply Z.sqrt_le_mono. lia. }
  unfold formation_cols. rewrite Htab.
  destruct (Z.eqb_spec (Z.sqrt n) 0); lia.
Qed.

End Orders.

Lemma CommandUnitsToPosition_nobody_witness :
  CommandUnitsToPosition (v3 (fi 1) f0 (fi 1)) flat_model walker_world = walker_world.
Proof.
  apply (CommandUnitsToPosition_nobody (v3 (fi 1) f0 (fi 1)) flat_model walker_world).
  intros i Hi. assert (i = 0) as -> by (vm_compute in Hi; lia).
  vm_compute. reflexivity.
Defined.

Lemma CommandUnitsToPosition_orders_witness :
  commandMarker (CommandUnitsToPosition roof_click roofed_model sentry_world) =
    mkCommandMarker roof_click F32.one true ∧
  hasCommand (unit_at (CommandUnitsToPosition roof_click roofed_model sentry_world) 0)
    = true.
Proof.
  assert (∃ i, i < Z.to_nat (unitCount sentry_world) ∧ is_assigned sentry_world i = true)
    as Hsel by (exists 0; split; [vm_compute; lia | vm_compute; reflexivity]).
  destruct (CommandUnitsToPosition_orders roof_click roofed_model sentry_world Hsel)
    as (Hm & _ & _ & _ & Hu).
  split; [exact Hm|]. rewrite (Hu 0).
  assert (bool_decide (0 < Z.to_nat (unitCount sentry_world)) &&
          is_assigned sentry_world 0 = true) as -> by (vm_compute; reflexivity).
  reflexivity.
Defined.

Lemma formation_columns_witness :
  formation_cols (selected_count squad_start) = Z.sqrt (selected_count squad_start).
Proof.
  apply (formation_columns squad_start); vm_compute; congruence.
Defined.

(** ** What one update leaves alone (UpdateUnit) *)

Section UpdateFrame.
Context {E : Externals}.

Lemma same_identity_refl (u : Unit) : same_identity u u.
Proof. by repeat split. Qed.

Lemma same_identity_trans (u1 u2 u3 : Unit) :
  same_identity u1 u2 → same_identity u2 u3 → same_identity u1 u3.
Proof.
  unfold same_identity. intros (?&?&?&?&?&?&?) (?&?&?&?&?&?&?).
  repeat split; congruence.
Qed.

Lemma resolve_target_identity (unit unit1 : Unit) deltaTime r actualTarget r1 :
  resolve_target unit deltaTime r = (unit1, actualTarget, r1) →
  same_identity unit unit1 ∧ (hasCommand unit1 = true → hasCommand unit = true).
Proof.
  unfold resolve_target. destruct (hasCommand unit) eqn:Hc.
  - destruct (_ <f UNIT_ARRIVAL_DISTANCE); intros [= <- <- <-];
      (split; [by repeat split|done]).
  - destruct (_ <=f F32.of_int 0).
    + destruct (GetRandomValue 0 360 r) as [a ra].
      destruct (GetRandomValue 2 8 ra) as [d rd].
      destruct (GetRandomValue 20 50 rd) as [m rm].
      intros [= <- <- <-]. split; [by repeat split|]. simpl. congruence.
    + intros [= <- <- <-]. split; [by repeat split|]. simpl. congruence.
Qed.

Lemma steer_identity fuel (w : World) i (model : Model) deltaTime unit target r unit2 r2 :
  steer fuel w i model deltaTime unit target r = Some (unit2, r2) →
  same_identity unit unit2 ∧ hasCommand unit2 = hasCommand unit.
Proof.
  unfold steer. destruct (_ >f F32.lit 1 10);
    [|intros [= <- <-]; split; [apply same_identity_refl|done]].
  destruct (will_collide _ _ _ _ _).
  - unfold avoid. destruct (GetRandomValue (-90) 90 r) as [a ra].
    destruct (hasCommand unit) eqn:Hc; intros [= <- <-];
      (split; [by repeat split|by simpl]).
  - unfold advance. destruct (wrap_down _ _) as [d1|]; simpl; [|done].
    destruct (wrap_up _ _) as [d2|]; simpl; [|done]. intros [= <- <-].
    split; [by repeat split|done].
Qed.

(** One call writes slot [i] and the generator state, nothing else, and in
    slot [i] it keeps the unit's identity and never sets a command. *)
Lemma UpdateUnit_keeps fuel i (model : Model) deltaTime (w w' : World) :
  UpdateUnit fuel i model deltaTime w = Some w' →
  unitCount w' = unitCount w ∧ controlGroups w' = controlGroups w ∧
  commandMarker w' = commandMarker w ∧ length (units w') = length (units w) ∧
  (∀ j, j ≠ i → unit_at w' j = unit_at w j) ∧
  same_identity (unit_at w i) (unit_at w' i) ∧
  (hasCommand (unit_at w' i) = true → hasCommand (unit_at w i) = true).
Proof.
  unfold UpdateUnit, move_unit.
  destruct (active (unit_at w i)) eqn:Hact; cbn [negb].
  2:{ intros [= <-]. repeat split; try done. }
  pose proof (active_in_range _ _ Hact) as Hlt.
  destruct (resolve_target _ _ _) as [[unit1 target] r1] eqn:Hres.
  apply resolve_target_identity in Hres as [Hid1 Hc1].
  destruct (steer _ _ _ _ _ _ _ _) as [[unit2 r2]|] eqn:Hst; simpl; [|done].
  apply steer_identity in Hst as [Hid2 Hc2].
  intros [= <-]. split; [done|]. split; [done|]. split; [done|].
  split; [apply length_insert|]. split.
  - intros j Hj. rewrite unit_at_set_rng. by apply unit_at_set_unit_ne.
  - rewrite unit_at_set_rng, unit_at_set_unit by done. split.
    + eapply same_identity_trans; [exact Hid1|].
      eapply same_identity_trans; [exact Hid2|]. by repeat split.
    + simpl. rewrite Hc2. exact Hc1.
Qed.

(** X10. An UpdateUnit call that returns has written only the unit it was
    given and the random generator: the count, the groups, the marker and
    every other unit are as before; the unit itself keeps its active and
    selected flags, group number, size, colour, velocity and command
    target, and it never comes out with a command it did not have. *)
Theorem UpdateUnit_frame fuel i (model : Model) deltaTime (w w' : World) :
  UpdateUnit fuel i model deltaTime w = Some w' →
  unitCount w' = unitCount w ∧ controlGroups w' = controlGroups w ∧
  commandMarker w' = commandMarker w ∧ length (units w') = length (units w) ∧
  (∀ j, j ≠ i → unit_at w' j = unit_at w j) ∧
  same_identity (unit_at w i) (unit_at w' i) ∧
  (hasCommand (unit_at w' i) = true → hasCommand (unit_at w i) = true).
Proof. apply UpdateUnit_keeps. Qed.

Lemma wrap_down_stuck (d : float) :
  (d >f PI) = true → d -f F32.of_int 2 *f PI = d → ∀ fuel, wrap_down fuel d = None.
Proof.
  intros Hgt Hfix fuel. induction fuel as [|n IH]; [done|].
  cbn [wrap_down]. by rewrite Hgt, Hfix.
Qed.

Lemma wrap_up_stuck (d : float) :
  (d <f F32.neg PI) = true → d +f F32.of_int 2 *f PI = d → ∀ fuel, wrap_up fuel d = None.
Proof.
  intros Hlt Hfix fuel. induction fuel as [|n IH]; [done|].
  cbn [wrap_up]. by rewrite Hlt, Hfix.
Qed.

(** X11. The normalisation loops of UpdateUnit do not end on every input.
    When an active unit moves on the clear path and the difference between
    the direction to its target and its heading is beyond PI (or below
    -PI) and so large that subtracting (adding) 2*PI gives the same
    binary32 number back, the loop test stays true for ever: the call
    returns within no number of rounds. *)
Theorem UpdateUnit_spins fuel i (model : Model) deltaTime (w : World)
    unit1 actualTarget r1 :
  active (unit_at w i) = true →
  resolve_target (unit_at w i) deltaTime (rng w) = (unit1, actualTarget, r1) →
  (Vector3Length (Vector3Subtract actualTarget (position unit1)) >f F32.lit 1 10) = true →
  takes_avoidance w i model unit1 actualTarget = false →
  ((rotation_gap unit1 actualTarget >f PI) = true ∧
   rotation_gap unit1 actualTarget -f F32.of_int 2 *f PI = rotation_gap unit1 actualTarget) ∨
  ((rotation_gap unit1 actualTarget >f PI) = false ∧
   (rotation_gap unit1 actualTarget <f F32.neg PI) = true ∧
   rotation_gap unit1 actualTarget +f F32.of_int 2 *f PI = rotation_gap unit1 actualTarget) →
  UpdateUnit fuel i model deltaTime w = None.
Proof.
  intros Hact Hres Hfar Hclear Hstuck.
  unfold UpdateUnit, move_unit. rewrite Hact, Hres. cbn [negb].
  unfold takes_avoidance in Hclear. rewrite Hfar in Hclear. cbn [andb] in Hclear.
  unfold steer. rewrite Hfar, Hclear. unfold advance.
  change (atan2f _ _ -f rotation _) with (rotation_gap unit1 actualTarget).
  destruct Hstuck as [[Hgt Hfix]|(Hle & Hlt & Hfix)].
  - rewrite (wrap_down_stuck _ Hgt Hfix). reflexivity.
  - destruct fuel as [|n]; [reflexivity|]. cbn [wrap_down]. rewrite Hle.
    cbn [mbind option_bind]. rewrite (wrap_up_stuck _ Hlt Hfix). reflexivity.
Qed.

End UpdateFrame.

Lemma UpdateUnit_frame_witness :
  unitCount walker_world1 = unitCount walker_world ∧
  controlGroups walker_world1 = controlGroups walker_world.
Proof.
  assert (UpdateUnit 2 0 flat_model dt60 walker_world = Some walker_world1) as Hrun
    by (vm_compute; reflexivity).
  destruct (UpdateUnit_frame 2 0 flat_model dt60 walker_world walker_world1 Hrun)
    as (Hc & Hg & _).
  exact (conj Hc Hg).
Defined.

Lemma UpdateUnit_spins_witness :
  UpdateUnit 1000 0 flat_model dt60 spinner_world = None.
Proof.
  assert (active (unit_at spinner_world 0) = true) as Hact by (vm_compute; reflexivity).
  assert (resolve_target (unit_at spinner_world 0) dt60 (rng spinner_world) =
          (spinner, v3 (fi 3) f02 f0, 0%Z)) as Hres by (vm_compute; reflexivity).
  assert ((Vector3Length (Vector3Subtract (v3 (fi 3) f02 f0) (position spinner))
             >f F32.lit 1 10) = true) as Hfar by (vm_compute; reflexivity).
  assert (takes_avoidance spinner_world 0 flat_model spinner (v3 (fi 3) f02 f0) = false)
    as Hclear by (vm_compute; reflexivity).
  apply (UpdateUnit_spins 1000 0 flat_model dt60 spinner_world spinner
           (v3 (fi 3) f02 f0) 0%Z Hact Hres Hfar Hclear).
  left. split; vm_compute; reflexivity.
Defined.

(** ** What a selection selects (SelectUnitsInBox, SelectControlGroup) *)

Section Selecting.
Context {E : Externals}.

Lemma unit_at_map_slots_lt n f (w : World) i :
  i < n → f zeroUnit = zeroUnit →
  unit_at (set_units w (map_slots n f (units w))) i = f (unit_at w i).
Proof.
  intros Hi Hz. unfold unit_at. cbn [units set_units]. rewrite lookup_map_slots.
  destruct (units w !! i); simpl; [|done]. by destruct (decide (i < n)).
Qed.

Lemma unit_at_map_slots_ge n f (w : World) i :
  n ≤ i → unit_at (set_units w (map_slots n f (units w))) i = unit_at w i.
Proof.
  intros Hi. unfold unit_at. cbn [units set_units]. by rewrite lookup_map_slots_ge.
Qed.

(** X12. After SelectUnitsInBox a counted slot is selected exactly when
    its unit is active and its screen projection lies in the box, whatever
    was selected before; no inactive unit is ever selected, nothing but
    the selected flag is written, and slots beyond the count, the groups,
    the marker and the count itself are untouched. *)
Theorem SelectUnitsInBox_selects start end_ camera (w : World) :
  (∀ i, i < Z.to_nat (unitCount w) →
     unit_at (SelectUnitsInBox start end_ camera w) i =
       set_selected (unit_at w i)
         (active (unit_at w i) && box_hit start end_ camera (unit_at w i))) ∧
  (∀ i, Z.to_nat (unitCount w) ≤ i →
     unit_at (SelectUnitsInBox start end_ camera w) i = unit_at w i) ∧
  (∀ i, i < Z.to_nat (unitCount w) →
     selected (unit_at (SelectUnitsInBox start end_ camera w) i) = true →
     active (unit_at (SelectUnitsInBox start end_ camera w) i) = true) ∧
  unitCount (SelectUnitsInBox start end_ camera w) = unitCount w ∧
  controlGroups (SelectUnitsInBox start end_ camera w) = controlGroups w ∧
  commandMarker (SelectUnitsInBox start end_ camera w) = commandMarker w ∧
  rng (SelectUnitsInBox start end_ camera w) = rng w.
Proof.
  rewrite SelectUnitsInBox_spec.
  assert (∀ i, i < Z.to_nat (unitCount w) →
     unit_at (set_units w (map_slots (Z.to_nat (unitCount w))
                             (box_mark start end_ camera) (units w))) i =
       set_selected (unit_at w i)
         (active (unit_at w i) && box_hit start end_ camera (unit_at w i))) as Hin.
  { intros i Hi. by rewrite unit_at_map_slots_lt. }
  split; [exact Hin|]. split; [intros i Hi; by apply unit_at_map_slots_ge|].
  split; [|done]. intros i Hi. rewrite Hin by done. cbn [selected active set_selected].
  by intros [-> _]%andb_true_iff.
Qed.

Lemma select_loop_frame (group : ControlGroup) (l : list Z) :
  ∀ (w : World) center validCount,
  let w' := (foldl (select_member group) (w, center, validCount) l).1.1 in
  controlGroups w' = controlGroups w ∧ commandMarker w' = commandMarker w ∧
  rng w' = rng w ∧ length (units w') = length (units w).
Proof.
  induction l as [|x l IH]; intros w center validCount; [done|].
  change (foldl (select_member group) (w, center, validCount) (x :: l))
    with (foldl (select_member group)
            (select_member group (w, center, validCount) x) l).
  unfold select_member at 2.
  destruct (_ && _); [|by apply IH].
  edestruct IH as (Hg & Hm & Hr & Hl). cbn zeta. rewrite Hg, Hm, Hr, Hl.
  repeat split; try done. apply length_insert.
Qed.

(** A member loop that finds no counted active unit changes nothing and
    counts nothing. *)
Lemma select_loop_dead (group : ControlGroup) (l : list Z) (w : World) center :
  (∀ x, x ∈ index_at (unitIndices group) <$> l →
     (x <? unitCount w)%Z && active (unit_at w (Z.to_nat x)) = false) →
  foldl (select_member group) (w, center, 0%Z) l = (w, center, 0%Z).
Proof.
  induction l as [|x l IH]; intros Hdead; [done|].
  change (foldl (select_member group) (w, center, 0%Z) (x :: l))
    with (foldl (select_member group) (select_member group (w, center, 0%Z) x) l).
  unfold select_member at 2. rewrite Hdead by (rewrite fmap_cons; by left).
  apply IH. intros y Hy. apply Hdead. rewrite fmap_cons. by right.
Qed.

Lemma deselect_all_unit (w : World) i :
  unit_at (deselect_all w) i =
  if decide (i < Z.to_nat (unitCount w)) then set_selected (unit_at w i) false
  else unit_at w i.
Proof.
  rewrite deselect_all_spec. destruct (decide (i < Z.to_nat (unitCount w))).
  - by rewrite unit_at_map_slots_lt.
  - apply unit_at_map_slots_ge. lia.
Qed.

Lemma deselect_all_active (w : World) i :
  active (unit_at (deselect_all w) i) = active (unit_at w i).
Proof. rewrite deselect_all_unit. by destruct (decide _). Qed.

(** X13. SelectControlGroup has two ways of selecting nothing. For a
    number outside 1..9, a group never assigned or a group with an empty
    list it returns the origin and leaves the selection as it is. For an
    assigned, non-empty group none of whose listed units is a counted
    active unit (they were all deleted, or the array was cleared) it also
    returns the origin, but the selection is gone: every counted unit is
    deselected. *)
Theorem SelectControlGroup_nothing (groupNum : Z) (w : World) :
  ((groupNum < 1)%Z ∨ (9 < groupNum)%Z ∨ g_active (group_at w groupNum) = false ∨
   g_unitCount (group_at w groupNum) = 0%Z →
   SelectControlGroup groupNum w = (zeroVector3, w)) ∧
  ((1 ≤ groupNum ≤ 9)%Z → g_active (group_at w groupNum) = true →
   g_unitCount (group_at w groupNum) ≠ 0%Z →
   (∀ x, x ∈ index_at (unitIndices (group_at w groupNum))
               <$> Zrange (g_unitCount (group_at w groupNum)) →
      (x <? unitCount w)%Z && active (unit_at w (Z.to_nat x)) = false) →
   SelectControlGroup groupNum w = (zeroVector3, deselect_all w)).
Proof.
  unfold SelectControlGroup. split.
  - intros [H|[H|[H|H]]].
    + by destruct (Z.ltb_spec groupNum 1); [|lia].
    + destruct (Z.gtb_spec groupNum 9); [|lia]. by rewrite orb_true_r.
    + rewrite H. by destruct (_ || _).
    + rewrite H, orb_true_r. by destruct (_ || _).
  - intros HG Hact Hcount Hdead.
    destruct (Z.ltb_spec groupNum 1); [lia|]. destruct (Z.gtb_spec groupNum 9); [lia|].
    rewrite Hact. destruct (Z.eqb_spec (g_unitCount (group_at w groupNum)) 0); [done|].
    cbn [orb negb]. rewrite select_loop_dead; [done|].
    intros x Hx. rewrite deselect_all_active.
    replace (unitCount (deselect_all w)) with (unitCount w)
      by (by rewrite deselect_all_spec).
    by apply Hdead.
Qed.

Lemma SelectControlGroup_units (groupNum : Z) (w : World) :
  wf_world w → (1 ≤ groupNum ≤ 9)%Z → g_active (group_at w groupNum) = true →
  members (group_at w groupNum) ≠ [] →
  Forall (λ x, (0 ≤ x)%Z) (members (group_at w groupNum)) →
  (∀ i, i < Z.to_nat (unitCount w) →
     unit_at (SelectControlGroup groupNum w).2 i =
       set_selected (unit_at w i)
         (bool_decide (Z.of_nat i ∈ members (group_at w groupNum)) &&
          active (unit_at w i))) ∧
  (∀ i, Z.to_nat (unitCount w) ≤ i →
     unit_at (SelectControlGroup groupNum w).2 i = unit_at w i) ∧
  unitCount (SelectControlGroup groupNum w).2 = unitCount w ∧
  controlGroups (SelectControlGroup groupNum w).2 = controlGroups w ∧
  commandMarker (SelectControlGroup groupNum w).2 = commandMarker w ∧
  rng (SelectControlGroup groupNum w).2 = rng w.
Proof.
  intros Hwf HG Hact Hne Hnn. pose proof Hwf as (Hn & Hlu & Hlg & Hwg & Hgid).
  set (group := group_at w groupNum) in *.
  destruct (wf_group_lookup (controlGroups w) (Z.to_nat groupNum) Hwg)
    as (Hlen & Hc & _). fold (group_at w groupNum) in Hlen, Hc. fold group in Hlen, Hc.
  assert (index_at (unitIndices group) <$> Zrange (g_unitCount group) = members group)
    as Hidx by (apply members_Zrange; unfold MAX_UNITS in *; lia).
  destruct (select_loop group (Zrange (g_unitCount group)) (deselect_all w)
              zeroVector3 0%Z) as [Hcnt Hsel]; [by rewrite Hidx|].
  pose proof (select_loop_frame group (Zrange (g_unitCount group)) (deselect_all w)
                zeroVector3 0%Z) as (Hg & Hm & Hr & _).
  rewrite Hidx in Hsel.
  assert (unitCount (deselect_all w) = unitCount w) as Hdc
    by (by rewrite deselect_all_spec).
  rewrite Hdc in Hsel, Hcnt.
  unfold SelectControlGroup.
  destruct (Z.ltb_spec groupNum 1); [lia|]. destruct (Z.gtb_spec groupNum 9); [lia|].
  fold group. rewrite Hact.
  destruct (Z.eqb_spec (g_unitCount group) 0) as [Hz|_].
  { exfalso. apply Hne. unfold members. by rewrite Hz. }
  cbn [orb negb].
  destruct (foldl _ _ _) as [[w2 center] validCount] eqn:Hfold.
  cbn [fst snd] in *.
  assert ((if (validCount >? 0)%Z
           then (mkVector3 (vx center /f F32.of_int validCount)
                   (vy center /f F32.of_int validCount)
                   (vz center /f F32.of_int validCount), w2)
           else (zeroVector3, w2)).2 = w2) as -> by (by destruct (validCount >? 0)%Z).
  rewrite Hcnt, Hg, Hm, Hr. rewrite deselect_all_spec. cbn [controlGroups commandMarker rng set_units].
  split; [|split; [|done]].
  - intros i Hi. rewrite Hsel, deselect_all_unit.
    destruct (decide (i < Z.to_nat (unitCount w))); [|lia].
    destruct (Z.ltb_spec (Z.of_nat i) (unitCount w)); [|lia].
    cbn [active set_selected]. rewrite andb_true_r.
    destruct (bool_decide _ && active (unit_at w i)); by rewrite ?set_selected_twice.
  - intros i Hi. rewrite Hsel, deselect_all_unit.
    destruct (decide (i < Z.to_nat (unitCount w))); [lia|].
    destruct (Z.ltb_spec (Z.of_nat i) (unitCount w)); [lia|].
    by rewrite andb_false_r.
Qed.

(** X14. For a group in shape whose list is not empty, SelectControlGroup
    replaces the selection by the group's counted active members: after
    the call a counted slot is selected exactly when it is in the member
    list and its unit is active. The unit's own group number is not
    consulted; nothing but selected flags is written. *)
Theorem SelectControlGroup_selects (groupNum : Z) (w : World) :
  wf_world w → (1 ≤ groupNum ≤ 9)%Z → g_active (group_at w groupNum) = true →
  members (group_at w groupNum) ≠ [] →
  Forall (λ x, (0 ≤ x)%Z) (members (group_at w groupNum)) →
  (∀ i, i < Z.to_nat (unitCount w) →
     unit_at (SelectControlGroup groupNum w).2 i =
       set_selected (unit_at w i)
         (bool_decide (Z.of_nat i ∈ members (group_at w groupNum)) &&
          active (unit_at w i))) ∧
  (∀ i, Z.to_nat (unitCount w) ≤ i →
     unit_at (SelectControlGroup groupNum w).2 i = unit_at w i) ∧
  unitCount (SelectControlGroup groupNum w).2 = unitCount w ∧
  controlGroups (SelectControlGroup groupNum w).2 = controlGroups w ∧
  commandMarker (SelectControlGroup groupNum w).2 = commandMarker w ∧
  rng (SelectControlGroup groupNum w).2 = rng w.
Proof. apply SelectControlGroup_units. Qed.

End Selecting.

Lemma SelectControlGroup_selects_witness :
  selected (unit_at (SelectControlGroup 1 squad_reselected).2 0) = true ∧
  selected (unit_at squad_reselected 0) = false.
Proof.
  assert (wf_world squad_reselected) as Hwf
    by (apply (bool_decide_unpack _); vm_compute; exact I).
  assert (g_active (group_at squad_reselected 1) = true) as Hact
    by (vm_compute; reflexivity).
  assert (members (group_at squad_reselected 1) ≠ []) as Hne
    by (vm_compute; discriminate).
  assert (Forall (λ x, (0 ≤ x)%Z) (members (group_at squad_reselected 1))) as Hnn
    by (apply (bool_decide_unpack _); vm_compute; exact I).
  destruct (SelectControlGroup_selects 1 squad_reselected Hwf ltac:(lia) Hact Hne Hnn)
    as (Hsel & _).
  split; [|vm_compute; reflexivity].
  rewrite (Hsel 0) by (vm_compute; lia). vm_compute. reflexivity.
Defined.

(** ** The unit keys of the frame loop (SPACE, C, DELETE) *)

Section UnitKeys.
Context {E : Externals}.

Lemma filter_none (P : nat → bool) (l : list nat) :
  (∀ i, i ∈ l → P i = false) → List.filter P l = [].
Proof.
  induction l as [|x l IH]; intros H; simpl; [done|].
  rewrite H by (by left). apply IH. intros i Hi. apply H. by right.
Qed.

Lemma delete_selected_spec (w : World) :
  delete_selected w =
  set_units w (map_slots (Z.to_nat (unitCount w)) strike (units w)).
Proof.
  unfold delete_selected, slots. rewrite <- (loop_slots strike).
  apply foldl_ext_in. intros a i. unfold strike.
  destruct (selected (unit_at a i)); [done|by rewrite set_unit_id].
Qed.

Lemma clear_units_spec (w : World) :
  clear_units w =
  mkWorld (map_slots (Z.to_nat MAX_UNITS) (λ u, set_active u false) (units w)) 0
    (commandMarker w) (controlGroups w) (rng w).
Proof.
  unfold clear_units. by rewrite (loop_slots (λ u, set_active u false)).
Qed.

Lemma delete_selected_unit (w : World) i :
  unit_at (delete_selected w) i =
  if decide (i < Z.to_nat (unitCount w)) then strike (unit_at w i) else unit_at w i.
Proof.
  rewrite delete_selected_spec. destruct (decide (i < Z.to_nat (unitCount w))).
  - by rewrite unit_at_map_slots_lt.
  - apply unit_at_map_slots_ge. lia.
Qed.

Lemma delete_selected_unassigned (w : World) i :
  i < Z.to_nat (unitCount w) → is_assigned (delete_selected w) i = false.
Proof.
  intros Hi. unfold is_assigned. rewrite delete_selected_unit.
  destruct (decide (i < Z.to_nat (unitCount w))); [|lia]. unfold strike.
  destruct (selected (unit_at w i)) eqn:Hs; simpl; [done|]. by rewrite Hs, andb_false_r.
Qed.

Lemma delete_selected_wf (w : World) : wf_world w → wf_world (delete_selected w).
Proof.
  intros (Hn & Hlu & Hlg & Hwg & Hgid). rewrite delete_selected_spec.
  unfold wf_world. simpl. split; [done|]. split; [by rewrite length_map_slots|].
  split; [done|]. split; [done|]. apply Forall_map_slots; [done|].
  intros u Hu. unfold strike. by destruct (selected u).
Qed.

Lemma clear_units_wf (w : World) : wf_world w → wf_world (clear_units w).
Proof.
  intros (Hn & Hlu & Hlg & Hwg & Hgid). rewrite clear_units_spec.
  unfold wf_world. simpl. split; [unfold MAX_UNITS; lia|].
  split; [by rewrite length_map_slots|].
  split; [done|]. split; [done|]. by apply Forall_map_slots.
Qed.

(** X15. DELETE frees no slot. It switches off the counted units that are
    selected and writes nothing else: the count stays, so with the array
    full SpawnUnit remains without effect however many units were
    deleted. *)
Theorem delete_selected_frees_no_slot (w : World) :
  unitCount (delete_selected w) = unitCount w ∧
  (∀ i, i < Z.to_nat (unitCount w) →
     unit_at (delete_selected w) i =
       if selected (unit_at w i) then set_active (unit_at w i) false else unit_at w i) ∧
  (∀ i, Z.to_nat (unitCount w) ≤ i → unit_at (delete_selected w) i = unit_at w i) ∧
  controlGroups (delete_selected w) = controlGroups w ∧
  ((MAX_UNITS ≤ unitCount w)%Z →
   ∀ centerPos radius,
     SpawnUnit centerPos radius (delete_selected w) = delete_selected w).
Proof.
  split; [by rewrite delete_selected_spec|]. split; [|split; [|split]].
  - intros i Hi. rewrite delete_selected_unit.
    by destruct (decide (i < Z.to_nat (unitCount w))); [|lia].
  - intros i Hi. rewrite delete_selected_unit.
    by destruct (decide (i < Z.to_nat (unitCount w))); [lia|].
  - by rewrite delete_selected_spec.
  - intros Hfull centerPos radius. apply SpawnUnit_full.
    by rewrite delete_selected_spec.
Qed.

(** X16. Right after DELETE no counted unit is both active and selected.
    An order given then changes nothing, and assigning a control group
    then leaves that group with an empty list. *)
Theorem delete_selected_disbands (w : World) :
  (∀ i, i < Z.to_nat (unitCount w) → is_assigned (delete_selected w) i = false) ∧
  (∀ targetPos (model : Model),
     CommandUnitsToPosition targetPos model (delete_selected w) = delete_selected w) ∧
  (wf_world w → ∀ groupNum, (1 ≤ groupNum ≤ 9)%Z →
     members (group_at (AssignControlGroup groupNum (delete_selected w)) groupNum) = []).
Proof.
  assert (unitCount (delete_selected w) = unitCount w) as Hc
    by (by rewrite delete_selected_spec).
  split; [apply delete_selected_unassigned|]. split.
  - intros targetPos model. unfold CommandUnitsToPosition.
    rewrite selected_count_rank, rank_zero; [done|].
    intros i Hi. rewrite Hc in Hi. by apply delete_selected_unassigned.
  - intros Hwf groupNum HG.
    destruct (AssignControlGroup_spec groupNum (delete_selected w)
                (delete_selected_wf w Hwf) HG) as (_ & _ & -> & _).
    unfold assigned_slots, slots. rewrite Hc.
    rewrite filter_none; [done|].
    intros i Hi%elem_of_seq. apply delete_selected_unassigned. lia.
Qed.

End UnitKeys.

(** ** Clearing the array and the group lists (the C key) *)

Section Clearing.
Context {E : Externals}.

Lemma deselect_all_nothing (w : World) : unitCount w = 0%Z → deselect_all w = w.
Proof. intros H. unfold deselect_all, slots. by rewrite H. Qed.

Lemma select_none_counted (groupNum : Z) (w : World) :
  unitCount w = 0%Z → Forall (λ x, (0 ≤ x)%Z) (member_cells (group_at w groupNum)) →
  SelectControlGroup groupNum w = (zeroVector3, w).
Proof.
  intros Hc Hnn. unfold SelectControlGroup.
  destruct (_ || _); [done|]. destruct (_ || _); [done|].
  rewrite deselect_all_nothing by done. rewrite select_loop_dead; [done|].
  intros x Hx. rewrite Forall_forall in Hnn. specialize (Hnn x Hx).
  rewrite Hc. by destruct (Z.ltb_spec x 0); [lia|].
Qed.

(** X17. The C key empties the unit array and keeps the group lists: the
    count becomes 0, every one of the MAX_UNITS slots is switched off,
    and the control groups are exactly what they were. With nothing
    counted, selecting any group afterwards returns the origin and
    changes nothing. *)
Theorem clear_units_keeps_groups (w : World) :
  unitCount (clear_units w) = 0%Z ∧
  (∀ i, i < Z.to_nat MAX_UNITS →
     unit_at (clear_units w) i = set_active (unit_at w i) false) ∧
  controlGroups (clear_units w) = controlGroups w ∧
  (∀ groupNum,
     Forall (λ x, (0 ≤ x)%Z) (member_cells (group_at w groupNum)) →
     SelectControlGroup groupNum (clear_units w) = (zeroVector3, clear_units w)).
Proof.
  split; [by rewrite clear_units_spec|]. split; [|split].
  - intros i Hi. rewrite clear_units_spec.
    change (mkWorld ?us 0 (commandMarker w) (controlGroups w) (rng w))
      with (set_unitCount (set_units w us) 0).
    change (unit_at (set_unitCount ?w0 0) i) with (unit_at w0 i).
    by rewrite unit_at_map_slots_lt.
  - by rewrite clear_units_spec.
  - intros groupNum Hnn. apply select_none_counted; [by rewrite clear_units_spec|].
    unfold group_at. by rewrite clear_units_spec.
Qed.

(** A group that lists slot 0, met by a world whose only counted unit is
    a newcomer in that slot. *)
Lemma listed_slot_selected (groupNum : Z) (w1 : World) :
  wf_world w1 → (1 ≤ groupNum ≤ 9)%Z → g_active (group_at w1 groupNum) = true →
  Forall (λ x, (0 ≤ x)%Z) (members (group_at w1 groupNum)) →
  0%Z ∈ members (group_at w1 groupNum) →
  (0 < unitCount w1)%Z → active (unit_at w1 0) = true →
  selected (unit_at (SelectControlGroup groupNum w1).2 0) = true ∧
  groupId (unit_at (SelectControlGroup groupNum w1).2 0) = groupId (unit_at w1 0).
Proof.
  intros Hwf HG Hact Hnn Hin Hc Ha.
  destruct (SelectControlGroup_units groupNum w1 Hwf HG Hact) as (Hsel & _);
    [intros Hnil; rewrite Hnil in Hin; by apply elem_of_nil in Hin | exact Hnn |].
  rewrite (Hsel 0) by lia.
  change (Z.of_nat 0) with 0%Z. rewrite bool_decide_eq_true_2 by exact Hin.
  rewrite Ha. split; reflexivity.
Qed.

Lemma spawn_after_clear centerPos radius (w : World) :
  wf_world w →
  wf_world (SpawnUnit centerPos radius (clear_units w)) ∧
  controlGroups (SpawnUnit centerPos radius (clear_units w)) = controlGroups w ∧
  unitCount (SpawnUnit centerPos radius (clear_units w)) = 1%Z ∧
  active (unit_at (SpawnUnit centerPos radius (clear_units w)) 0) = true ∧
  groupId (unit_at (SpawnUnit centerPos radius (clear_units w)) 0) = 0%Z.
Proof.
  intros Hwf. pose proof (clear_units_wf w Hwf) as Hwf0.
  assert (unitCount (clear_units w) = 0%Z) as Hc0 by (by rewrite clear_units_spec).
  assert (controlGroups (clear_units w) = controlGroups w) as Hg0
    by (by rewrite clear_units_spec).
  revert Hwf0 Hc0 Hg0. generalize (clear_units w). intros w0 Hwf0 Hc0 Hg0.
  destruct (SpawnUnit_below centerPos radius w0) as (Hc & Hu & _ & Hg & _).
  { rewrite Hc0. unfold MAX_UNITS. lia. }
  { rewrite Hc0. destruct Hwf0 as (_ & -> & _). unfold MAX_UNITS. lia. }
  rewrite Hc0 in Hc, Hu. change (Z.to_nat 0) with 0 in Hu.
  destruct (Hu _ eq_refl) as (Ha & _ & _ & Hid & _).
  split; [by apply SpawnUnit_wf|]. split; [congruence|]. split; [exact Hc|].
  split; [exact Ha|exact Hid].
Qed.

(** X18. Because the lists survive the C key, a group that listed slot 0
    still does so when the next unit is spawned into that slot: selecting
    the group then selects the newcomer, whose own group number is 0. *)
Theorem stale_group_selects_newcomer (groupNum : Z) (w : World) centerPos radius :
  wf_world w → (1 ≤ groupNum ≤ 9)%Z → g_active (group_at w groupNum) = true →
  Forall (λ x, (0 ≤ x)%Z) (members (group_at w groupNum)) →
  0%Z ∈ members (group_at w groupNum) →
  selected (unit_at (SelectControlGroup groupNum
                       (SpawnUnit centerPos radius (clear_units w))).2 0) = true ∧
  groupId (unit_at (SelectControlGroup groupNum
                      (SpawnUnit centerPos radius (clear_units w))).2 0) = 0%Z ∧
  groupId (unit_at (SpawnUnit centerPos radius (clear_units w)) 0) = 0%Z.
Proof.
  intros Hwf HG Hact Hnn Hin.
  destruct (spawn_after_clear centerPos radius w Hwf) as (Hwf1 & Hg & Hc & Ha & Hid).
  revert Hwf1 Hg Hc Ha Hid.
  generalize (SpawnUnit centerPos radius (clear_units w)). intros w1 Hwf1 Hg Hc Ha Hid.
  assert (group_at w1 groupNum = group_at w groupNum) as Hgrp
    by (unfold group_at; by rewrite Hg).
  destruct (listed_slot_selected groupNum w1 Hwf1 HG) as [Hs Hi];
    rewrite ?Hgrp; try assumption; [lia|].
  split; [exact Hs|]. split; [congruence|exact Hid].
Qed.

End Clearing.

Lemma stale_group_selects_newcomer_witness :
  selected (unit_at (SelectControlGroup 1
                       (SpawnUnit (v3 f0 f0 f0) (fi 4) (clear_units squad_world))).2 0)
    = true ∧
  groupId (unit_at (SpawnUnit (v3 f0 f0 f0) (fi 4) (clear_units squad_world)) 0) = 0%Z.
Proof.
  assert (wf_world squad_world) as Hwf
    by (apply (bool_decide_unpack _); vm_compute; exact I).
  assert (g_active (group_at squad_world 1) = true) as Hact by (vm_compute; reflexivity).
  assert (Forall (λ x, (0 ≤ x)%Z) (members (group_at squad_world 1))) as Hnn
    by (apply (bool_decide_unpack _); vm_compute; exact I).
  assert (0%Z ∈ members (group_at squad_world 1)) as Hin
    by (apply (bool_decide_unpack _); vm_compute; exact I).
  pose proof (stale_group_selects_newcomer 1 squad_world (v3 f0 f0 f0) (fi 4)
                Hwf ltac:(lia) Hact Hnn Hin) as H.
  exact (conj (proj1 H) (proj2 (proj2 H))).
Defined.

(** ** Updating every unit (the loop of lines 1073-1079) *)

Section UpdateAll.
Context {E : Externals}.

Lemma same_cast_refl (w : World) : same_cast w w.
Proof.
  unfold same_cast. split; [reflexivity|]. split; [reflexivity|].
  split; [reflexivity|]. split; [reflexivity|]. intros i.
  split; [apply same_identity_refl|]. split; intros H; [exact H|reflexivity].
Qed.

Lemma same_cast_trans (w1 w2 w3 : World) :
  same_cast w1 w2 → same_cast w2 w3 → same_cast w1 w3.
Proof.
  intros (Hc1 & Hg1 & Hm1 & Hl1 & Hu1) (Hc2 & Hg2 & Hm2 & Hl2 & Hu2).
  unfold same_cast. split; [congruence|]. split; [congruence|].
  split; [congruence|]. split; [congruence|]. intros i.
  destruct (Hu1 i) as (Hi1 & Hh1 & Ha1). destruct (Hu2 i) as (Hi2 & Hh2 & Ha2).
  split; [eapply same_identity_trans; eassumption|]. split.
  - intros H. apply Hh1, Hh2, H.
  - intros H. rewrite Ha2; [by apply Ha1|]. rewrite Ha1 by exact H. exact H.
Qed.

Lemma UpdateUnit_same_cast fuel i (model : Model) deltaTime (w w' : World) :
  UpdateUnit fuel i model deltaTime w = Some w' → same_cast w w'.
Proof.
  intros Hrun.
  destruct (UpdateUnit_keeps _ _ _ _ _ _ Hrun) as (Hc & Hg & Hm & Hl & Hother & Hid & Hcmd).
  unfold same_cast. split; [exact Hc|]. split; [exact Hg|]. split; [exact Hm|].
  split; [exact Hl|]. intros j. destruct (decide (j = i)) as [->|Hne].
  - split; [exact Hid|]. split; [exact Hcmd|].
    intros Hina. unfold UpdateUnit in Hrun. rewrite Hina in Hrun.
    cbn [negb] in Hrun. by injection Hrun as <-.
  - rewrite (Hother j Hne). split; [apply same_identity_refl|].
    split; intros H; [exact H|reflexivity].
Qed.

Lemma update_loop_None fuel (model : Model) deltaTime (l : list nat) :
  foldl (λ ow i,
    w ← ow;
    if active (unit_at w i) then UpdateUnit fuel i model deltaTime w else Some w)
    None l = None.
Proof. induction l as [|i l IH]; [reflexivity|]. exact IH. Qed.

Lemma update_loop_same_cast fuel (model : Model) deltaTime (l : list nat) :
  ∀ (w w' : World),
  foldl (λ ow i,
    w ← ow;
    if active (unit_at w i) then UpdateUnit fuel i model deltaTime w else Some w)
    (Some w) l = Some w' → same_cast w w'.
Proof.
  induction l as [|i l IH]; intros w w'.
  - intros [= <-]. apply same_cast_refl.
  - cbn [foldl mbind option_bind].
    destruct (active (unit_at w i)) eqn:Hact.
    + destruct (UpdateUnit fuel i model deltaTime w) as [w1|] eqn:Hrun.
      * intros Hrest. eapply same_cast_trans; [|by apply IH].
        by eapply UpdateUnit_same_cast.
      * by rewrite update_loop_None.
    + apply IH.
Qed.

Lemma update_all_same_cast fuel (model : Model) deltaTime (w w' : World) :
  update_all fuel model deltaTime w = Some w' → same_cast w w'.
Proof. apply update_loop_same_cast. Qed.

Lemma update_loop_wf fuel (model : Model) deltaTime (l : list nat) :
  ∀ (w w' : World),
  foldl (λ ow i,
    w ← ow;
    if active (unit_at w i) then UpdateUnit fuel i model deltaTime w else Some w)
    (Some w) l = Some w' → wf_world w → wf_world w'.
Proof.
  induction l as [|i l IH]; intros w w'.
  - by intros [= <-].
  - cbn [foldl mbind option_bind].
    destruct (active (unit_at w i)) eqn:Hact.
    + destruct (UpdateUnit fuel i model deltaTime w) as [w1|] eqn:Hrun.
      * intros Hrest Hwf. eapply IH; [exact Hrest|]. by eapply UpdateUnit_wf.
      * by rewrite update_loop_None.
    + apply IH.
Qed.

(** X19. The loop that updates every counted active unit, when it
    returns, has changed no count, group or marker and no unit's active
    flag, selected flag, group number, size, colour, velocity or command
    target; it has given no unit a command, and it has not touched an
    inactive unit at all. *)
Theorem update_all_frame fuel (model : Model) deltaTime (w w' : World) :
  update_all fuel model deltaTime w = Some w' →
  unitCount w' = unitCount w ∧ controlGroups w' = controlGroups w ∧
  commandMarker w' = commandMarker w ∧ length (units w') = length (units w) ∧
  ∀ i, same_identity (unit_at w i) (unit_at w' i) ∧
       (hasCommand (unit_at w' i) = true → hasCommand (unit_at w i) = true) ∧
       (active (unit_at w i) = false → unit_at w' i = unit_at w i).
Proof. apply update_all_same_cast. Qed.

End UpdateAll.

Lemma update_all_frame_witness :
  unitCount walker_world1 = unitCount walker_world ∧
  controlGroups walker_world1 = controlGroups walker_world.
Proof.
  assert (update_all 2 flat_model dt60 walker_world = Some walker_world1) as Hrun
    by (vm_compute; reflexivity).
  pose proof (update_all_frame 2 flat_model dt60 walker_world walker_world1 Hrun) as H.
  exact (conj (proj1 H) (proj1 (proj2 H))).
Defined.

(** ** More order facts of binary32 comparison *)

Lemma lt_le (a b : float) : (a <f b) = true → (a <=f b) = true.
Proof.
  unfold F32.lt, F32.le, SFltb, SFleb.
  destruct a as [sa|sa| |sa ma ea], b as [sb|sb| |sb mb eb]; float_cases;
    intros H1; order_cases; try discriminate; try done.
Qed.

Lemma le_not_lt (a b : float) : (a <=f b) = true → (b <f a) = false.
Proof.
  unfold F32.lt, F32.le, SFltb, SFleb.
  destruct a as [sa|sa| |sa ma ea], b as [sb|sb| |sb mb eb]; float_cases;
    intros H1; order_cases; try discriminate; try done; subst; try lia.
Qed.

Lemma not_lt_le (a b : float) :
  F32.is_nan a = false → F32.is_nan b = false → (a <f b) = false → (b <=f a) = true.
Proof.
  unfold F32.lt, F32.le, SFltb, SFleb.
  destruct a as [sa|sa| |sa ma ea], b as [sb|sb| |sb mb eb]; float_cases;
    intros _ _ H1; order_cases; try discriminate; try done; subst; try lia.
Qed.

Lemma le_refl (a : float) : F32.is_nan a = false → (a <=f a) = true.
Proof. intros H. apply not_lt_le; [done..|apply lt_irrefl]. Qed.

Lemma gt_lt (a b : float) : (a >f b) = (b <f a).
Proof. reflexivity. Qed.

(** The two-sided clamp written with two [if]s, lower bound first. *)
Lemma clamp_low_high (lo hi d : float) :
  (hi <f lo) = false →
  let d1 := if d <f lo then lo else d in
  let d2 := if d1 >f hi then hi else d1 in
  (d2 <f lo) = false ∧ (d2 >f hi) = false.
Proof.
  intros Hord. cbv zeta. rewrite !gt_lt.
  destruct (d <f lo) eqn:H1.
  - rewrite Hord. split; [apply lt_irrefl|exact Hord].
  - destruct (hi <f d) eqn:H2.
    + split; [exact Hord|apply lt_irrefl].
    + split; assumption.
Qed.

(** The same with the upper bound first. *)
Lemma clamp_high_low (lo hi v : float) :
  (hi <f lo) = false →
  let v1 := if v >f hi then hi else v in
  let v2 := if v1 <f lo then lo else v1 in
  (v2 >f hi) = false ∧ (v2 <f lo) = false.
Proof.
  intros Hord. cbv zeta. rewrite !gt_lt.
  destruct (hi <f v) eqn:H1.
  - rewrite Hord. split; [apply lt_irrefl|exact Hord].
  - destruct (v <f lo) eqn:H2.
    + split; [exact Hord|apply lt_irrefl].
    + split; assumption.
Qed.

(** The clamp written with [fmaxf] and [fminf] lands inside, also from NaN. *)
Lemma fmaxf_fminf_inside (lo hi h : float) :
  F32.is_nan lo = false → F32.is_nan hi = false → (lo <=f hi) = true →
  (lo <=f F32.fmaxf lo (F32.fminf hi h)) = true ∧
  (F32.fmaxf lo (F32.fminf hi h) <=f hi) = true.
Proof.
  intros Hlo Hhi Hord.
  assert (∃ m, F32.fminf hi h = m ∧ F32.is_nan m = false ∧ (m <=f hi) = true)
    as (m & -> & Hm & Hmhi).
  { unfold F32.fminf. rewrite Hhi. destruct (F32.is_nan h) eqn:Hh.
    - exists hi. split; [done|]. split; [done|]. by apply le_refl.
    - destruct (hi <f h) eqn:Hlt.
      + exists hi. split; [done|]. split; [done|]. by apply le_refl.
      + exists h. split; [done|]. split; [done|]. by apply not_lt_le. }
  unfold F32.fmaxf. rewrite Hlo, Hm. destruct (lo <f m) eqn:Hlt.
  - split; [by apply lt_le|done].
  - split; [by apply le_refl|done].
Qed.

(** ** The cameras (UpdateOrbitCamera, UpdateIsometricCamera) *)

Section Cameras.
Context {E : Externals} {V : Structs}.

Lemma orbit_home_kept :
  distance_kept (o_distance orbit_home) ∧ pitch_kept (o_rotationV orbit_home).
Proof. split; split; vm_compute; reflexivity. Qed.

Lemma orbit_ranges (input : Input) (camera : Camera)
    (orbit : OrbitCamera) :
  (F32.ne (GetMouseWheelMove input) (F32.of_int 0) = true ∨
   IsKeyPressed input KEY_R = true ∨ distance_kept (o_distance orbit) →
   distance_kept (o_distance (UpdateOrbitCamera input camera orbit).2)) ∧
  (IsMouseButtonDown input MOUSE_BUTTON_LEFT = true ∨
   IsKeyPressed input KEY_R = true ∨ pitch_kept (o_rotationV orbit) →
   pitch_kept (o_rotationV (UpdateOrbitCamera input camera orbit).2)) ∧
  cam_target (UpdateOrbitCamera input camera orbit).1 =
    o_target (UpdateOrbitCamera input camera orbit).2 ∧
  cam_up (UpdateOrbitCamera input camera orbit).1 = cam_up camera ∧
  cam_fovy (UpdateOrbitCamera input camera orbit).1 = cam_fovy camera ∧
  cam_projection (UpdateOrbitCamera input camera orbit).1 = cam_projection camera.
Proof.
  unfold UpdateOrbitCamera. cbn [fst snd].
  split; [|split; [|repeat split]].
  - intros Hcase. unfold orbit_reset.
    destruct (IsKeyPressed input KEY_R) eqn:HR; [apply orbit_home_kept|].
    assert (o_distance (orbit_pan input (orbit_zoom input (orbit_rotate input orbit))) =
            o_distance (orbit_zoom input (orbit_rotate input orbit))) as ->
      by (unfold orbit_pan; by destruct (IsMouseButtonDown input MOUSE_BUTTON_MIDDLE)).
    assert (o_distance (orbit_rotate input orbit) = o_distance orbit) as Hrot
      by (unfold orbit_rotate; by destruct (IsMouseButtonDown input MOUSE_BUTTON_LEFT)).
    unfold orbit_zoom.
    destruct (F32.ne (GetMouseWheelMove input) (F32.of_int 0)) eqn:Hw.
    + cbn [o_distance]. apply clamp_low_high. vm_compute. reflexivity.
    + rewrite Hrot. destruct Hcase as [?|[?|?]]; [discriminate..|assumption].
  - intros Hcase. unfold orbit_reset.
    destruct (IsKeyPressed input KEY_R) eqn:HR; [apply orbit_home_kept|].
    assert (o_rotationV (orbit_pan input (orbit_zoom input (orbit_rotate input orbit))) =
            o_rotationV (orbit_rotate input orbit)) as ->.
    { unfold orbit_pan, orbit_zoom.
      destruct (IsMouseButtonDown input MOUSE_BUTTON_MIDDLE);
        by destruct (F32.ne (GetMouseWheelMove input) (F32.of_int 0)). }
    unfold orbit_rotate.
    destruct (IsMouseButtonDown input MOUSE_BUTTON_LEFT) eqn:HL.
    + cbn [o_rotationV]. apply clamp_high_low. vm_compute. reflexivity.
    + destruct Hcase as [?|[?|?]]; [discriminate..|assumption].
Qed.

(** X20. UpdateOrbitCamera keeps the orbit distance from leaving
    [CAMERA_MIN_DISTANCE, CAMERA_MAX_DISTANCE] and the pitch from leaving
    [-PI/2 + 0.1, PI/2 - 0.1]: after the call neither is outside its range
    if it was not before, and also whenever this call zoomed (for the
    distance), rotated (for the pitch) or reset the camera. The camera it
    returns looks at the orbit target and keeps its up vector, field of
    view and projection. *)
Theorem UpdateOrbitCamera_keeps_range (input : Input) (camera : Camera)
    (orbit : OrbitCamera) :
  (F32.ne (GetMouseWheelMove input) (F32.of_int 0) = true ∨
   IsKeyPressed input KEY_R = true ∨ distance_kept (o_distance orbit) →
   distance_kept (o_distance (UpdateOrbitCamera input camera orbit).2)) ∧
  (IsMouseButtonDown input MOUSE_BUTTON_LEFT = true ∨
   IsKeyPressed input KEY_R = true ∨ pitch_kept (o_rotationV orbit) →
   pitch_kept (o_rotationV (UpdateOrbitCamera input camera orbit).2)) ∧
  cam_target (UpdateOrbitCamera input camera orbit).1 =
    o_target (UpdateOrbitCamera input camera orbit).2 ∧
  cam_up (UpdateOrbitCamera input camera orbit).1 = cam_up camera ∧
  cam_fovy (UpdateOrbitCamera input camera orbit).1 = cam_fovy camera ∧
  cam_projection (UpdateOrbitCamera input camera orbit).1 = cam_projection camera.
Proof. apply orbit_ranges. Qed.

Lemma height_inside_kept (h : float) : height_inside h → height_kept h.
Proof.
  intros [Hlo Hhi]. split; [by apply le_not_lt|]. rewrite gt_lt. by apply le_not_lt.
Qed.

Lemma iso_height_after (input : Input) (camera : Camera) (iso : IsometricCamera)
    (w : World) :
  i_height (UpdateIsometricCamera input camera iso w).1.2 =
  if IsKeyPressed input KEY_R then F32.of_int 15
  else if F32.ne (GetMouseWheelMove input) (F32.of_int 0) then
    F32.fmaxf ISO_CAMERA_MIN_HEIGHT
      (F32.fminf ISO_CAMERA_MAX_HEIGHT
         (i_height iso -f GetMouseWheelMove input *f ISO_CAMERA_ZOOM_SPEED))
  else i_height iso.
Proof.
  unfold UpdateIsometricCamera.
  destruct (iso_select input camera _ w) as [iso2 w1] eqn:Hsel. cbn [fst snd].
  assert (i_height iso2 =
          i_height (iso_zoom input (iso_drag input (iso_scroll input iso)))) as Hh2.
  { unfold iso_select in Hsel.
    destruct (IsMouseButtonPressed input MOUSE_BUTTON_LEFT);
      cbn [i_selecting set_i_selection] in Hsel;
      repeat match type of Hsel with
             | context [if ?b then _ else _] => destruct b
             end; by injection Hsel as <- _. }
  unfold iso_smooth, iso_reset. destruct (IsKeyPressed input KEY_R); [reflexivity|].
  cbn [i_height]. rewrite Hh2. unfold iso_zoom.
  assert (i_height (iso_drag input (iso_scroll input iso)) = i_height iso) as Hd.
  { unfold iso_drag, iso_scroll. destruct (iso_move input) as [mx mz].
    by destruct (IsMouseButtonDown input MOUSE_BUTTON_MIDDLE). }
  destruct (F32.ne (GetMouseWheelMove input) (F32.of_int 0)); cbn [i_height set_i_height];
    by rewrite Hd.
Qed.

Lemma iso_height_range (input : Input) (camera : Camera)
    (iso : IsometricCamera) (w : World) :
  (F32.ne (GetMouseWheelMove input) (F32.of_int 0) = true ∨
   IsKeyPressed input KEY_R = true →
   height_inside (i_height (UpdateIsometricCamera input camera iso w).1.2)) ∧
  (F32.ne (GetMouseWheelMove input) (F32.of_int 0) = false →
   IsKeyPressed input KEY_R = false →
   i_height (UpdateIsometricCamera input camera iso w).1.2 = i_height iso) ∧
  (height_kept (i_height iso) →
   height_kept (i_height (UpdateIsometricCamera input camera iso w).1.2)).
Proof.
  rewrite iso_height_after.
  assert (height_inside (F32.of_int 15)) as H15 by (split; vm_compute; reflexivity).
  assert (∀ h, height_inside
                 (F32.fmaxf ISO_CAMERA_MIN_HEIGHT (F32.fminf ISO_CAMERA_MAX_HEIGHT h)))
    as Hclamp.
  { intros h. apply fmaxf_fminf_inside; vm_compute; reflexivity. }
  destruct (IsKeyPressed input KEY_R) eqn:HR;
    destruct (F32.ne (GetMouseWheelMove input) (F32.of_int 0)) eqn:Hw.
  - split; [done|]. split; [done|]. intros _. by apply height_inside_kept.
  - split; [done|]. split; [done|]. intros _. by apply height_inside_kept.
  - split; [intros _; apply Hclamp|]. split; [done|].
    intros _. apply height_inside_kept, Hclamp.
  - split; [intros [?|?]; discriminate|]. split; done.
Qed.

(** X21. UpdateIsometricCamera keeps the camera height in
    [ISO_CAMERA_MIN_HEIGHT, ISO_CAMERA_MAX_HEIGHT]. After a call that
    zoomed or reset the camera the height is inside the range, whatever
    it was before (a NaN included); after any other call it is what it
    was. *)
Theorem UpdateIsometricCamera_height (input : Input) (camera : Camera)
    (iso : IsometricCamera) (w : World) :
  (F32.ne (GetMouseWheelMove input) (F32.of_int 0) = true ∨
   IsKeyPressed input KEY_R = true →
   height_inside (i_height (UpdateIsometricCamera input camera iso w).1.2)) ∧
  (F32.ne (GetMouseWheelMove input) (F32.of_int 0) = false →
   IsKeyPressed input KEY_R = false →
   i_height (UpdateIsometricCamera input camera iso w).1.2 = i_height iso) ∧
  (height_kept (i_height iso) →
   height_kept (i_height (UpdateIsometricCamera input camera iso w).1.2)).
Proof. apply iso_height_range. Qed.

Lemma iso_select_outcome (input : Input) (camera : Camera)
    (iso : IsometricCamera) (w : World) :
  (UpdateIsometricCamera input camera iso w).2 =
    (if (IsMouseButtonPressed input MOUSE_BUTTON_LEFT || i_selecting iso) &&
        IsMouseButtonReleased input MOUSE_BUTTON_LEFT
     then SelectUnitsInBox
            (if IsMouseButtonPressed input MOUSE_BUTTON_LEFT
             then GetMousePosition input else i_selectionStart iso)
            (GetMousePosition input) (to_Camera3D camera) w
     else w) ∧
  i_selecting (UpdateIsometricCamera input camera iso w).1.2 =
    (IsMouseButtonPressed input MOUSE_BUTTON_LEFT || i_selecting iso) &&
    negb (IsMouseButtonReleased input MOUSE_BUTTON_LEFT).
Proof.
  unfold UpdateIsometricCamera.
  set (iso1 := iso_zoom input (iso_drag input (iso_scroll input iso))).
  assert (i_selecting iso1 = i_selecting iso ∧
          i_selectionStart iso1 = i_selectionStart iso) as [Hs Hst].
  { unfold iso1, iso_zoom, iso_drag, iso_scroll. destruct (iso_move input) as [mx mz].
    destruct (F32.ne (GetMouseWheelMove input) (F32.of_int 0));
      by destruct (IsMouseButtonDown input MOUSE_BUTTON_MIDDLE). }
  unfold iso_select. rewrite <- Hs, <- Hst. clearbody iso1.
  destruct (IsMouseButtonPressed input MOUSE_BUTTON_LEFT);
    cbn [i_selecting i_selectionStart i_selectionEnd set_i_selection orb andb].
  - destruct (IsMouseButtonReleased input MOUSE_BUTTON_LEFT); cbn [fst snd negb];
      unfold iso_smooth, iso_reset; by destruct (IsKeyPressed input KEY_R).
  - destruct (i_selecting iso1) eqn:Hsel; cbn [andb].
    + destruct (IsMouseButtonReleased input MOUSE_BUTTON_LEFT); cbn [fst snd negb];
        unfold iso_smooth, iso_reset; by destruct (IsKeyPressed input KEY_R).
    + cbn [fst snd]. unfold iso_smooth, iso_reset.
      destruct (IsKeyPressed input KEY_R); cbn [i_selecting]; by rewrite Hsel.
Qed.

(** X22. Box selection through the isometric camera. The units are
    reselected in exactly one case: the left button is released in a
    frame in which a drag is in progress or begins. The box then runs
    from where the drag began (the mouse position itself when it begins
    in this frame) to the mouse position, and it is projected with the
    camera as the call received it, not as the call leaves it. In every
    other frame the globals are untouched. A drag is in progress
    afterwards exactly when it was or began, and the button was not
    released. *)
Theorem UpdateIsometricCamera_selection (input : Input) (camera : Camera)
    (iso : IsometricCamera) (w : World) :
  (UpdateIsometricCamera input camera iso w).2 =
    (if (IsMouseButtonPressed input MOUSE_BUTTON_LEFT || i_selecting iso) &&
        IsMouseButtonReleased input MOUSE_BUTTON_LEFT
     then SelectUnitsInBox
            (if IsMouseButtonPressed input MOUSE_BUTTON_LEFT
             then GetMousePosition input else i_selectionStart iso)
            (GetMousePosition input) (to_Camera3D camera) w
     else w) ∧
  i_selecting (UpdateIsometricCamera input camera iso w).1.2 =
    (IsMouseButtonPressed input MOUSE_BUTTON_LEFT || i_selecting iso) &&
    negb (IsMouseButtonReleased input MOUSE_BUTTON_LEFT).
Proof. apply iso_select_outcome. Qed.

End Cameras.

(** ** The bounding box of the model (GetModelBounds) *)

Lemma nan_not_lt (a b : float) : F32.is_nan a = true → (a <f b) = false.
Proof. by destruct a. Qed.

Lemma lt_not_nan (a b : float) :
  (a <f b) = true → F32.is_nan a = false ∧ F32.is_nan b = false.
Proof. by destruct a, b. Qed.

(** Below [y], and [r] not below [y]: below [r]. *)
Lemma lt_through (x y r : float) :
  (x <f y) = true → (r <f y) = false → F32.is_nan r = false → (x <f r) = true.
Proof.
  unfold F32.lt, SFltb.
  destruct x as [sx|sx| |sx mx ex], y as [sy|sy| |sy my ey],
           r as [sr|sr| |sr mr er]; float_cases;
    intros H1 H2 _; order_cases; try discriminate; try done; subst; try lia.
Qed.

(** The running minimum of the loop: nothing seen is below it, and it is
    NaN only when everything seen is. *)
Lemma fminf_running (l : list float) : ∀ (seen : list float) (r : float),
  (∀ x, x ∈ seen → (x <f r) = false ∧ (F32.is_nan r = true → F32.is_nan x = true)) →
  ∀ x, x ∈ seen ++ l →
    (x <f foldl F32.fminf r l) = false ∧
    (F32.is_nan (foldl F32.fminf r l) = true → F32.is_nan x = true).
Proof.
  induction l as [|y l IH]; intros seen r Hseen x Hx.
  - rewrite app_nil_r in Hx. by apply Hseen.
  - replace (seen ++ y :: l) with ((seen ++ [y]) ++ l) in Hx
      by (rewrite <- app_assoc; reflexivity).
    cbn [foldl]. apply (IH (seen ++ [y])); [|exact Hx]. clear IH x Hx.
    intros x [Hx| ->%list_elem_of_singleton]%elem_of_app.
    + destruct (Hseen x Hx) as [Hlow Hnan]. unfold F32.fminf.
      destruct (F32.is_nan r) eqn:Hr.
      { rewrite (nan_not_lt x y (Hnan eq_refl)). split; [done|]. intros _. by apply Hnan. }
      destruct (F32.is_nan y) eqn:Hy; [by rewrite Hr|].
      destruct (r <f y) eqn:Hry; [by rewrite Hr|]. rewrite Hy. split; [|done].
      destruct (x <f y) eqn:Hxy; [|done].
      by rewrite (lt_through x y r Hxy Hry Hr) in Hlow.
    + unfold F32.fminf. destruct (F32.is_nan r) eqn:Hr; [by rewrite lt_irrefl|].
      destruct (F32.is_nan y) eqn:Hy; [by rewrite (nan_not_lt y r Hy), Hr|].
      destruct (r <f y) eqn:Hry.
      * rewrite (lt_asym _ _ Hry), Hr. done.
      * rewrite lt_irrefl, Hy. done.
Qed.

Lemma fmaxf_running (l : list float) : ∀ (seen : list float) (r : float),
  (∀ x, x ∈ seen → (r <f x) = false ∧ (F32.is_nan r = true → F32.is_nan x = true)) →
  ∀ x, x ∈ seen ++ l →
    (foldl F32.fmaxf r l <f x) = false ∧
    (F32.is_nan (foldl F32.fmaxf r l) = true → F32.is_nan x = true).
Proof.
  induction l as [|y l IH]; intros seen r Hseen x Hx.
  - rewrite app_nil_r in Hx. by apply Hseen.
  - replace (seen ++ y :: l) with ((seen ++ [y]) ++ l) in Hx
      by (rewrite <- app_assoc; reflexivity).
    cbn [foldl]. apply (IH (seen ++ [y])); [|exact Hx]. clear IH x Hx.
    intros x [Hx| ->%list_elem_of_singleton]%elem_of_app.
    + destruct (Hseen x Hx) as [Hlow Hnan]. unfold F32.fmaxf.
      destruct (F32.is_nan r) eqn:Hr.
      { specialize (Hnan eq_refl). split; [by destruct y, x|]. intros _. exact Hnan. }
      destruct (F32.is_nan y) eqn:Hy; [by rewrite Hr|].
      destruct (r <f y) eqn:Hry; [|by rewrite Hr]. rewrite Hy. split; [|done].
      destruct (y <f x) eqn:Hyx; [|done].
      by rewrite (lt_trans _ _ _ Hry Hyx) in Hlow.
    + unfold F32.fmaxf. destruct (F32.is_nan r) eqn:Hr; [by rewrite lt_irrefl|].
      destruct (F32.is_nan y) eqn:Hy; [split; [by destruct r, y|by rewrite Hr]|].
      destruct (r <f y) eqn:Hry.
      * rewrite lt_irrefl, Hy. done.
      * rewrite Hry, Hr. done.
Qed.

Lemma fminf_attained (l : list float) (r : float) : foldl F32.fminf r l ∈ r :: l.
Proof.
  revert r. induction l as [|y l IH]; intros r; cbn [foldl]; [by left|].
  specialize (IH (F32.fminf r y)). apply elem_of_cons in IH as [->|IH].
  - unfold F32.fminf. destruct (F32.is_nan r); [by right; left|].
    destruct (F32.is_nan y); [by left|]. destruct (r <f y); [by left|by right; left].
  - by right; right.
Qed.

Lemma fmaxf_attained (l : list float) (r : float) : foldl F32.fmaxf r l ∈ r :: l.
Proof.
  revert r. induction l as [|y l IH]; intros r; cbn [foldl]; [by left|].
  specialize (IH (F32.fmaxf r y)). apply elem_of_cons in IH as [->|IH].
  - unfold F32.fmaxf. destruct (F32.is_nan r); [by right; left|].
    destruct (F32.is_nan y); [by left|]. destruct (r <f y); [by right; left|by left].
  - by right; right.
Qed.

Section Bounds.
Context {E : Externals} {V : Structs}.

Lemma grow_bounds_min (a : Axis) (l : list Mesh) (b : Bounds) :
  coord a (b_min (foldl grow_bounds b l)) =
  foldl F32.fminf (coord a (b_min b)) ((λ m, coord a (b_min (mesh_bounds m))) <$> l).
Proof.
  revert b. induction l as [|m l IH]; intros b; [done|].
  cbn [foldl fmap list_fmap]. rewrite IH. by destruct a.
Qed.

Lemma grow_bounds_max (a : Axis) (l : list Mesh) (b : Bounds) :
  coord a (b_max (foldl grow_bounds b l)) =
  foldl F32.fmaxf (coord a (b_max b)) ((λ m, coord a (b_max (mesh_bounds m))) <$> l).
Proof.
  revert b. induction l as [|m l IH]; intros b; [done|].
  cbn [foldl fmap list_fmap]. rewrite IH. by destruct a.
Qed.

(** X23. GetModelBounds returns the box around all mesh boxes. On every
    axis no mesh box reaches below its minimum corner or above its maximum
    corner, and each of the two corner coordinates is that of some mesh
    box (a NaN coordinate is passed over unless all are NaN); a model
    without meshes gets the zero box. *)
Theorem GetModelBounds_encloses (model : Model) :
  (meshes model = [] → GetModelBounds model = zeroBounds) ∧
  (∀ mesh a, mesh ∈ meshes model →
     (coord a (b_min (mesh_bounds mesh)) <f coord a (b_min (GetModelBounds model)))
       = false ∧
     (coord a (b_max (GetModelBounds model)) <f coord a (b_max (mesh_bounds mesh)))
       = false) ∧
  (meshes model ≠ [] → ∀ a, ∃ m1 m2,
     m1 ∈ meshes model ∧ m2 ∈ meshes model ∧
     coord a (b_min (GetModelBounds model)) = coord a (b_min (mesh_bounds m1)) ∧
     coord a (b_max (GetModelBounds model)) = coord a (b_max (mesh_bounds m2))).
Proof.
  unfold GetModelBounds. destruct (meshes model) as [|mesh0 rest].
  { split; [done|]. split; [intros mesh a Hin; by apply elem_of_nil in Hin|done]. }
  split; [done|]. split.
  - intros mesh a Hin. rewrite grow_bounds_min, grow_bounds_max.
    assert (coord a (b_min (mesh_bounds mesh)) ∈
              [coord a (b_min (mesh_bounds mesh0))] ++
              ((λ m, coord a (b_min (mesh_bounds m))) <$> rest)) as Hmin.
    { apply elem_of_cons in Hin as [->|Hin]; [by left|].
      right. by apply (list_elem_of_fmap_2 (λ m, coord a (b_min (mesh_bounds m)))). }
    assert (coord a (b_max (mesh_bounds mesh)) ∈
              [coord a (b_max (mesh_bounds mesh0))] ++
              ((λ m, coord a (b_max (mesh_bounds m))) <$> rest)) as Hmax.
    { apply elem_of_cons in Hin as [->|Hin]; [by left|].
      right. by apply (list_elem_of_fmap_2 (λ m, coord a (b_max (mesh_bounds m)))). }
    split.
    + eapply fminf_running; [|exact Hmin].
      intros x ->%list_elem_of_singleton. split; [apply lt_irrefl|done].
    + eapply fmaxf_running; [|exact Hmax].
      intros x ->%list_elem_of_singleton. split; [apply lt_irrefl|done].
  - intros _ a. rewrite grow_bounds_min, grow_bounds_max.
    pose proof (fminf_attained ((λ m, coord a (b_min (mesh_bounds m))) <$> rest)
                  (coord a (b_min (mesh_bounds mesh0)))) as Hmin.
    pose proof (fmaxf_attained ((λ m, coord a (b_max (mesh_bounds m))) <$> rest)
                  (coord a (b_max (mesh_bounds mesh0)))) as Hmax.
    change (?x :: (?f <$> rest)) with (f <$> (mesh0 :: rest)) in Hmin, Hmax.
    apply list_elem_of_fmap in Hmin as (m1 & H1 & Hin1).
    apply list_elem_of_fmap in Hmax as (m2 & H2 & Hin2).
    exists m1, m2. done.
Qed.

End Bounds.

(** ** Group lists and group numbers agree *)

Section Agreement.
Context {E : Externals}.

Lemma groups_agree_spec (w : World) :
  groups_agree w ↔
  ∀ g x, (1 ≤ g ≤ 9)%Z → x ∈ members (group_at w g) →
    (0 ≤ x < unitCount w)%Z ∧ groupId (unit_at w (Z.to_nat x)) = g.
Proof.
  unfold groups_agree. rewrite Forall_forall. split.
  - intros H g x Hg Hx.
    assert (g ∈ Z.succ <$> Zrange 9) as Hin.
    { replace g with (Z.succ (g - 1)) by lia. apply list_elem_of_fmap_2. unfold Zrange.
      replace (g - 1)%Z with (Z.of_nat (Z.to_nat (g - 1))) by lia.
      apply list_elem_of_fmap_2, elem_of_seq. lia. }
    specialize (H g Hin). rewrite Forall_forall in H. by apply H.
  - intros H g (k & -> & Hk)%list_elem_of_fmap. apply Forall_forall. intros x Hx.
    apply H; [|done]. unfold Zrange in Hk.
    apply list_elem_of_fmap in Hk as (n & -> & Hn%elem_of_seq). lia.
Qed.

(** An operation that keeps the count, the groups and every group number
    keeps the agreement. *)
Lemma groups_agree_same (w w' : World) :
  unitCount w' = unitCount w → controlGroups w' = controlGroups w →
  (∀ i, groupId (unit_at w' i) = groupId (unit_at w i)) →
  groups_agree w → groups_agree w'.
Proof.
  intros Hc Hg Hid. rewrite !groups_agree_spec. intros H g x HG Hx.
  unfold group_at in Hx. rewrite Hg in Hx. rewrite Hc, Hid. by apply H.
Qed.

Lemma map_slots_groupId n f (w : World) i :
  (∀ u, groupId (f u) = groupId u) →
  groupId (unit_at (set_units w (map_slots n f (units w))) i) = groupId (unit_at w i).
Proof.
  intros Hf. unfold unit_at. cbn [units set_units]. rewrite lookup_map_slots.
  destruct (units w !! i); simpl; [|done]. by destruct (decide (i < n)).
Qed.

Lemma set_unit_groupId (w : World) k (u : Unit) i :
  groupId u = groupId (unit_at w k) →
  groupId (unit_at (set_unit w k u) i) = groupId (unit_at w i).
Proof.
  intros Hu. destruct (decide (i = k)) as [->|Hne].
  - destruct (decide (k < length (units w))).
    + by rewrite unit_at_set_unit.
    + unfold set_unit. by rewrite list_insert_ge, set_units_id by lia.
  - by rewrite unit_at_set_unit_ne.
Qed.

Lemma SelectUnitsInBox_agree start end_ camera (w : World) :
  groups_agree w → groups_agree (SelectUnitsInBox start end_ camera w).
Proof.
  rewrite SelectUnitsInBox_spec. apply groups_agree_same; [done..|].
  intros i. by apply map_slots_groupId.
Qed.

Lemma delete_selected_agree (w : World) :
  groups_agree w → groups_agree (delete_selected w).
Proof.
  rewrite delete_selected_spec. apply groups_agree_same; [done..|].
  intros i. apply map_slots_groupId. intros u. unfold strike. by destruct (selected u).
Qed.

Lemma select_loop_groupId (group : ControlGroup) (l : list Z) :
  ∀ (w : World) center validCount,
  unitCount (foldl (select_member group) (w, center, validCount) l).1.1 = unitCount w ∧
  controlGroups (foldl (select_member group) (w, center, validCount) l).1.1 =
    controlGroups w ∧
  ∀ i, groupId (unit_at (foldl (select_member group) (w, center, validCount) l).1.1 i) =
       groupId (unit_at w i).
Proof.
  induction l as [|x l IH]; intros w center validCount; [done|].
  change (foldl (select_member group) (w, center, validCount) (x :: l))
    with (foldl (select_member group)
            (select_member group (w, center, validCount) x) l).
  unfold select_member at 2 4 6.
  destruct (_ && _); [|by apply IH].
  edestruct IH as (Hc & Hg & Hid). rewrite Hc, Hg. split; [done|]. split; [done|].
  intros i. rewrite Hid. by apply set_unit_groupId.
Qed.

Lemma SelectControlGroup_agree (groupNum : Z) (w : World) :
  groups_agree w → groups_agree (SelectControlGroup groupNum w).2.
Proof.
  intros H. unfold SelectControlGroup.
  destruct (_ || _); [done|]. destruct (_ || _); [done|].
  pose proof (select_loop_groupId (group_at w groupNum)
                (Zrange (g_unitCount (group_at w groupNum)))
                (deselect_all w) zeroVector3 0%Z) as (Hc & Hg & Hid).
  destruct (foldl _ _ _) as [[w2 center] validCount]. cbn [fst snd] in *.
  assert (groups_agree w2) as H2.
  { apply (groups_agree_same w); [by rewrite Hc, deselect_all_spec
                                  |by rewrite Hg, deselect_all_spec| |done].
    intros i. rewrite Hid, deselect_all_spec. by apply map_slots_groupId. }
  by destruct (validCount >? 0)%Z.
Qed.

Lemma CommandUnitsToPosition_agree targetPos (model : Model) (w : World) :
  groups_agree w → groups_agree (CommandUnitsToPosition targetPos model w).
Proof.
  unfold CommandUnitsToPosition. destruct (_ =? 0)%Z; [done|].
  rewrite command_loop. cbn [fst]. apply groups_agree_same; [done..|].
  intros i. unfold unit_at. cbn [units set_commandMarker set_units].
  rewrite list_lookup_imap. destruct (units w !! i) as [u|]; simpl; [|done].
  destruct (decide _); [|done]. by destruct (active u && selected u).
Qed.

Lemma UpdateUnit_agree fuel i (model : Model) deltaTime (w w' : World) :
  UpdateUnit fuel i model deltaTime w = Some w' → groups_agree w → groups_agree w'.
Proof.
  intros Hrun. destruct (UpdateUnit_same_cast _ _ _ _ _ _ Hrun) as (Hc & Hg & _ & _ & Hu).
  apply groups_agree_same; [done..|]. intros j.
  by destruct (Hu j) as ((_ & _ & Hid & _) & _).
Qed.

Lemma SpawnUnit_agree centerPos radius (w : World) :
  wf_world w → groups_agree w → groups_agree (SpawnUnit centerPos radius w).
Proof.
  intros Hwf. pose proof Hwf as (Hn & Hlu & _).
  destruct (Z.ltb_spec (unitCount w) MAX_UNITS) as [Hlt|Hge].
  2:{ by rewrite SpawnUnit_full. }
  destruct (SpawnUnit_below centerPos radius w) as (Hc & _ & Hother & Hg & _);
    [lia | rewrite Hlu; unfold MAX_UNITS in *; lia |].
  rewrite !groups_agree_spec. intros H g x HG Hx.
  unfold group_at in Hx. rewrite Hg in Hx. destruct (H g x HG Hx) as [Hr Hid].
  rewrite Hc, Hother by lia. split; [lia|done].
Qed.

Lemma AssignControlGroup_agree (groupNum : Z) (w : World) :
  wf_world w → groups_agree w → groups_agree (AssignControlGroup groupNum w).
Proof.
  intros Hwf Hag.
  destruct (decide (1 ≤ groupNum ≤ 9)%Z) as [HG|HG].
  2:{ unfold AssignControlGroup.
      destruct (Z.ltb_spec groupNum 1); [done|].
      destruct (Z.gtb_spec groupNum 9); [done|lia]. }
  destruct (AssignControlGroup_spec groupNum w Hwf HG)
    as (Hu & Hn & Hm & _ & _ & _ & Hothers).
  destruct Hwf as (Hcount & Hlen & _).
  assert (∀ i, i < Z.to_nat (unitCount w) →
            unit_at (AssignControlGroup groupNum w) i =
            regroup groupNum (unit_at w i)) as Hunit.
  { intros i Hi. apply (unit_at_map_slots _ _ _ _ _ Hu); lia. }
  rewrite groups_agree_spec in Hag. apply groups_agree_spec. intros g x Hg Hx.
  rewrite Hn. destruct (decide (g = groupNum)) as [->|Hne].
  - rewrite Hm in Hx. unfold assigned_slots in Hx.
    apply list_elem_of_fmap in Hx as (i & -> & Hi).
    apply list_elem_of_In, List.filter_In in Hi as [Hi Ha].
    apply List.in_seq in Hi. unfold slots in Hi. split; [lia|].
    rewrite Nat2Z.id, Hunit by lia. unfold regroup. unfold is_assigned in Ha.
    by rewrite Ha.
  - destruct (Hothers g Hg Hne) as [Hmem _]. rewrite Hmem in Hx.
    apply list_elem_of_filter in Hx as [Hleft Hx].
    destruct (Hag g x Hg Hx) as [Hr Hid]. split; [done|].
    rewrite Hunit by lia. unfold regroup.
    destruct (active (unit_at w (Z.to_nat x)) && selected (unit_at w (Z.to_nat x)))
      eqn:Ha; [|done].
    exfalso. unfold leaves, is_assigned in Hleft. rewrite Ha, Hid in Hleft.
    rewrite bool_decide_eq_true_2 in Hleft by lia.
    rewrite Z.eqb_refl in Hleft. discriminate.
Qed.

End Agreement.

(** ** One round of the frame loop, and any number of rounds *)

Section Rounds.
Context {E : Externals} {V : Structs}.

(** What it takes for a property of the globals to survive a round. *)
Section Kept.
Variable P : World → Prop.
Variable input : Input.
Hypothesis P_assign : ∀ g w, P w → P (AssignControlGroup g w).
Hypothesis P_select : ∀ g w, P w → P (SelectControlGroup g w).2.
Hypothesis P_box : ∀ s e c w, P w → P (SelectUnitsInBox s e c w).
Hypothesis P_command : ∀ t (m : Model) w, P w → P (CommandUnitsToPosition t m w).
Hypothesis P_spawn : ∀ c r w, P w → P (SpawnUnit c r w).
Hypothesis P_clear : IsKeyPressed input KEY_C = true → ∀ w, P w → P (clear_units w).
Hypothesis P_delete : ∀ w, P w → P (delete_selected w).
Hypothesis P_update : ∀ fuel i (m : Model) dt w w',
  UpdateUnit fuel i m dt w = Some w' → P w → P w'.
Hypothesis P_marker : ∀ w mk, P w → P (set_commandMarker w mk).

Lemma center_on_world groupCenter (s : App) :
  a_world (center_on groupCenter s) = a_world s.
Proof.
  unfold center_on. destruct (_ || _); [|done]. by destruct (a_viewMode s).
Qed.

Lemma group_key_kept (s : App) (i : Z) :
  P (a_world s) → P (a_world (group_key input s i)).
Proof.
  intros H. unfold group_key. destruct (IsKeyPressed input (_ + _ - 1)); [|done].
  destruct (_ || _); [by apply P_assign|].
  pose proof (P_select i (a_world s) H) as Hs.
  destruct (SelectControlGroup i (a_world s)) as [groupCenter w1].
  by rewrite center_on_world.
Qed.

Lemma group_keys_kept (s : App) : P (a_world s) → P (a_world (group_keys input s)).
Proof.
  unfold group_keys. generalize (Z.succ <$> Zrange 9). intros l. revert s.
  induction l as [|i l IH]; intros s H; [done|]. cbn [foldl].
  by apply IH, group_key_kept.
Qed.

Lemma right_click_kept (model : Model) camera (w : World) :
  P w → P (right_click input model camera w).
Proof.
  intros H. unfold right_click. destruct (IsMouseButtonPressed input _); [|done].
  by apply P_command.
Qed.

Lemma update_camera_kept (model : Model) (s : App) :
  P (a_world s) → P (a_world (update_camera input model s)).
Proof.
  intros H. unfold update_camera. destruct (a_viewMode s).
  - destruct (UpdateOrbitCamera _ _ _) as [camera orbit]. by apply right_click_kept.
  - pose proof (iso_select_outcome input (a_camera s) (a_isometric s) (a_world s))
      as [Hw _].
    destruct (UpdateIsometricCamera _ _ _ _) as [[camera iso] w1]. cbn [snd] in Hw.
    cbn [a_world]. apply right_click_kept. rewrite Hw.
    destruct (_ && _); [by apply P_box|done].
Qed.

Lemma unit_keys_kept modelCenter maxDimension (w : World) :
  P w → P (unit_keys input modelCenter maxDimension w).
Proof.
  intros H. unfold unit_keys.
  assert (P (if IsKeyPressed input KEY_SPACE
             then spawn_five modelCenter maxDimension w else w)) as H1.
  { destruct (IsKeyPressed input KEY_SPACE); [|done].
    unfold spawn_five. generalize (seq 0 5). intros l. revert w H.
    induction l as [|x l IH]; intros w H; [done|]. cbn [foldl]. by apply IH, P_spawn. }
  revert H1. generalize (if IsKeyPressed input KEY_SPACE
                         then spawn_five modelCenter maxDimension w else w).
  intros w1 H1.
  assert (P (if IsKeyPressed input KEY_C then clear_units w1 else w1)) as H2.
  { destruct (IsKeyPressed input KEY_C) eqn:HC; [by apply P_clear|done]. }
  revert H2. generalize (if IsKeyPressed input KEY_C then clear_units w1 else w1).
  intros w2 H2. destruct (IsKeyPressed input KEY_DELETE); [by apply P_delete|done].
Qed.

Lemma update_all_kept fuel (model : Model) deltaTime (w w' : World) :
  update_all fuel model deltaTime w = Some w' → P w → P w'.
Proof.
  unfold update_all. generalize (slots w). intros l. revert w.
  induction l as [|i l IH]; intros w.
  - by intros [= <-].
  - cbn [foldl mbind option_bind].
    destruct (active (unit_at w i)) eqn:Hact.
    + destruct (UpdateUnit fuel i model deltaTime w) as [w1|] eqn:Hrun.
      * intros Hrest Hw. eapply IH; [exact Hrest|]. by eapply P_update.
      * by rewrite update_loop_None.
    + apply IH.
Qed.

Lemma frame_kept fuel (model : Model) modelCenter maxDimension (s s' : App) :
  P (a_world s) → frame fuel model modelCenter maxDimension input s = Some s' →
  P (a_world s').
Proof.
  intros H. unfold frame.
  assert (P (a_world (update_camera input model (group_keys input (toggle_view input s)))))
    as H1.
  { apply update_camera_kept, group_keys_kept. unfold toggle_view.
    by destruct (IsKeyPressed input KEY_TAB). }
  revert H1. generalize (update_camera input model (group_keys input (toggle_view input s))).
  intros s1 H1.
  pose proof (unit_keys_kept modelCenter maxDimension _ H1) as H2.
  revert H2. generalize (unit_keys input modelCenter maxDimension (a_world s1)).
  intros w1 H2.
  destruct (a_showUnits s1).
  - destruct (update_all fuel model (GetFrameTime input) w1) as [w2|] eqn:Hup; [|done].
    cbn [mbind option_bind]. intros [= <-]. cbn [a_world set_a_world toggle_displays].
    apply P_marker. by eapply update_all_kept.
  - cbn [mbind option_bind]. intros [= <-]. cbn [a_world set_a_world toggle_displays].
    by apply P_marker.
Qed.

End Kept.

Lemma frame_wf fuel (model : Model) modelCenter maxDimension input (s s' : App) :
  wf_world (a_world s) → frame fuel model modelCenter maxDimension input s = Some s' →
  wf_world (a_world s').
Proof.
  apply (frame_kept wf_world input).
  - apply AssignControlGroup_wf.
  - apply SelectControlGroup_wf.
  - apply SelectUnitsInBox_wf.
  - apply CommandUnitsToPosition_wf.
  - apply SpawnUnit_wf.
  - intros _. apply clear_units_wf.
  - apply delete_selected_wf.
  - intros fuel0 i m dt w w'. apply UpdateUnit_wf.
  - by intros w mk.
Qed.

Lemma frame_agree fuel (model : Model) modelCenter maxDimension input (s s' : App) :
  IsKeyPressed input KEY_C = false →
  wf_world (a_world s) ∧ groups_agree (a_world s) →
  frame fuel model modelCenter maxDimension input s = Some s' →
  wf_world (a_world s') ∧ groups_agree (a_world s').
Proof.
  intros HC. apply (frame_kept (λ w, wf_world w ∧ groups_agree w) input).
  - intros g w [Hwf Hag]. split; [by apply AssignControlGroup_wf|].
    by apply AssignControlGroup_agree.
  - intros g w [Hwf Hag]. split; [by apply SelectControlGroup_wf|].
    by apply SelectControlGroup_agree.
  - intros st e c w [Hwf Hag]. split; [by apply SelectUnitsInBox_wf|].
    by apply SelectUnitsInBox_agree.
  - intros t m w [Hwf Hag]. split; [by apply CommandUnitsToPosition_wf|].
    by apply CommandUnitsToPosition_agree.
  - intros c r w [Hwf Hag]. split; [by apply SpawnUnit_wf|]. by apply SpawnUnit_agree.
  - intros HC'. rewrite HC in HC'. discriminate.
  - intros w [Hwf Hag]. split; [by apply delete_selected_wf|].
    by apply delete_selected_agree.
  - intros fuel0 i m dt w w' Hrun [Hwf Hag]. split; [by eapply UpdateUnit_wf|].
    by eapply UpdateUnit_agree.
  - by intros w mk.
Qed.

Lemma frames_wf fuel (model : Model) modelCenter maxDimension
    (inputs : list Input) (s s' : App) :
  wf_world (a_world s) →
  frames fuel model modelCenter maxDimension inputs s = Some s' →
  wf_world (a_world s').
Proof.
  revert s. induction inputs as [|input rest IH]; intros s Hwf.
  - by intros [= <-].
  - cbn [frames].
    destruct (frame fuel model modelCenter maxDimension input s) as [s1|] eqn:Hf;
      [|done].
    cbn [mbind option_bind]. apply IH. by eapply frame_wf.
Qed.

(** X24. The frame loop keeps the globals in shape. If the unit array
    and the group table have their sizes, the unit count and the group
    counts are within 0..MAX_UNITS, no group list holds a slot twice and
    every group number is in 0..9, then the same holds after any number
    of rounds that return, whatever the keys and the mouse did. *)
Theorem frames_keep_shape fuel (model : Model) modelCenter maxDimension
    (inputs : list Input) (s s' : App) :
  wf_world (a_world s) →
  frames fuel model modelCenter maxDimension inputs s = Some s' →
  wf_world (a_world s').
Proof. apply frames_wf. Qed.

(** X25. As long as the C key is not pressed, the rounds of the frame
    loop keep the group lists and the units' group numbers in agreement:
    every member of a group of 1..9 is a counted slot whose unit carries
    that group's number. Hence no slot is listed in two groups. *)
Theorem frames_keep_groups_apart fuel (model : Model) modelCenter maxDimension
    (inputs : list Input) (s s' : App) :
  Forall (λ input, IsKeyPressed input KEY_C = false) inputs →
  wf_world (a_world s) → groups_agree (a_world s) →
  frames fuel model modelCenter maxDimension inputs s = Some s' →
  groups_agree (a_world s') ∧
  ∀ g1 g2 x, (1 ≤ g1 ≤ 9)%Z → (1 ≤ g2 ≤ 9)%Z →
    x ∈ members (group_at (a_world s') g1) →
    x ∈ members (group_at (a_world s') g2) → g1 = g2.
Proof.
  intros HC Hwf Hag Hrun.
  assert (wf_world (a_world s') ∧ groups_agree (a_world s')) as [_ Hag'].
  { revert s Hwf Hag Hrun. induction HC as [|input rest Hc _ IH]; intros s Hwf Hag.
    - by intros [= <-].
    - cbn [frames].
      destruct (frame fuel model modelCenter maxDimension input s) as [s1|] eqn:Hf;
        [|done].
      cbn [mbind option_bind].
      destruct (frame_agree _ _ _ _ _ _ _ Hc (conj Hwf Hag) Hf) as [Hwf1 Hag1].
      by apply IH. }
  split; [done|]. intros g1 g2 x Hg1 Hg2 H1 H2.
  rewrite groups_agree_spec in Hag'.
  destruct (Hag' g1 x Hg1 H1) as [_ <-]. by destruct (Hag' g2 x Hg2 H2) as [_ <-].
Qed.

End Rounds.

Lemma frames_keep_shape_witness :
  wf_world (a_world squad_app) ∧
  ∃ s', frames 2 flat_model (v3 f0 f0 f0) (fi 4) squad_keys squad_app = Some s' ∧
    unitCount (a_world s') = 7%Z ∧ wf_world (a_world s').
Proof.
  assert (wf_world (a_world squad_app)) as Hwf
    by (apply (bool_decide_unpack _); vm_compute; exact I).
  assert (is_Some (frames 2 flat_model (v3 f0 f0 f0) (fi 4) squad_keys squad_app))
    as [s' Hrun] by (vm_compute; eexists; reflexivity).
  split; [exact Hwf|]. exists s'. split; [exact Hrun|]. split.
  - revert Hrun. vm_compute. by intros [= <-].
  - exact (frames_keep_shape _ _ _ _ _ _ _ Hwf Hrun).
Defined.

Lemma frames_keep_groups_apart_witness :
  groups_agree (a_world squad_app) ∧
  ∃ s', frames 2 flat_model (v3 f0 f0 f0) (fi 4) squad_keys squad_app = Some s' ∧
    members (group_at (a_world s') 1) = [0%Z] ∧
    members (group_at (a_world s') 2) = [1%Z] ∧
    groups_agree (a_world s').
Proof.
  assert (wf_world (a_world squad_app)) as Hwf
    by (apply (bool_decide_unpack _); vm_compute; exact I).
  assert (groups_agree (a_world squad_app)) as Hag
    by (apply (bool_decide_unpack _); vm_compute; exact I).
  assert (Forall (λ input, IsKeyPressed input KEY_C = false) squad_keys) as Hkeys
    by (repeat constructor).
  assert (is_Some (frames 2 flat_model (v3 f0 f0 f0) (fi 4) squad_keys squad_app))
    as [s' Hrun] by (vm_compute; eexists; reflexivity).
  split; [exact Hag|]. exists s'. split; [exact Hrun|].
  split; [revert Hrun; vm_compute; by intros [= <-]|].
  split; [revert Hrun; vm_compute; by intros [= <-]|].
  exact (proj1 (frames_keep_groups_apart _ _ _ _ _ _ _ Hkeys Hwf Hag Hrun)).
Defined.

(** ** The cameras over the whole run of [main] *)

Section Session.
Context {E : Externals} {V : Structs}.

Lemma center_on_cameras groupCenter (s : App) :
  cameras_kept s → cameras_kept (center_on groupCenter s).
Proof.
  intros H. unfold center_on. destruct (_ || _); [|done]. by destruct (a_viewMode s).
Qed.

Lemma group_key_cameras input (s : App) (i : Z) :
  cameras_kept s → cameras_kept (group_key input s i).
Proof.
  intros H. unfold group_key. destruct (IsKeyPressed input _); [|done].
  destruct (_ || _); [done|].
  destruct (SelectControlGroup i (a_world s)) as [groupCenter w1].
  by apply center_on_cameras.
Qed.

Lemma group_keys_cameras input (s : App) :
  cameras_kept s → cameras_kept (group_keys input s).
Proof.
  unfold group_keys. generalize (Z.succ <$> Zrange 9). intros l. revert s.
  induction l as [|i l IH]; intros s H; [done|]. cbn [foldl].
  by apply IH, group_key_cameras.
Qed.

Lemma update_camera_cameras input (model : Model) (s : App) :
  cameras_kept s → cameras_kept (update_camera input model s).
Proof.
  intros (Hd & Hp & Hh). unfold update_camera. destruct (a_viewMode s).
  - pose proof (orbit_ranges input (a_camera s) (a_orbit s)) as (Hd' & Hp' & _).
    destruct (UpdateOrbitCamera _ _ _) as [camera orbit]. cbn [snd] in Hd', Hp'.
    split; [|split]; cbn [a_orbit a_isometric]; [apply Hd'; auto|apply Hp'; auto|done].
  - pose proof (iso_height_range input (a_camera s) (a_isometric s) (a_world s))
      as (_ & _ & Hh').
    destruct (UpdateIsometricCamera _ _ _ _) as [[camera iso] w1].
    cbn [fst snd] in Hh'.
    split; [|split]; cbn [a_orbit a_isometric]; [done|done|by apply Hh'].
Qed.

Lemma frame_cameras fuel (model : Model) modelCenter maxDimension input (s s' : App) :
  cameras_kept s → frame fuel model modelCenter maxDimension input s = Some s' →
  cameras_kept s'.
Proof.
  intros H. unfold frame.
  assert (cameras_kept (update_camera input model (group_keys input (toggle_view input s))))
    as H1.
  { apply update_camera_cameras, group_keys_cameras. unfold toggle_view.
    by destruct (IsKeyPressed input KEY_TAB). }
  revert H1. generalize (update_camera input model (group_keys input (toggle_view input s))).
  intros s1 H1.
  destruct (if a_showUnits s1 then _ else _) as [w2|]; [|done].
  cbn [mbind option_bind]. by intros [= <-].
Qed.

Lemma frames_cameras fuel (model : Model) modelCenter maxDimension inputs (s s' : App) :
  cameras_kept s → frames fuel model modelCenter maxDimension inputs s = Some s' →
  cameras_kept s'.
Proof.
  revert s. induction inputs as [|input rest IH]; intros s H.
  - by intros [= <-].
  - cbn [frames].
    destruct (frame fuel model modelCenter maxDimension input s) as [s1|] eqn:Hf;
      [|done].
    cbn [mbind option_bind]. apply IH. by eapply frame_cameras.
Qed.

Lemma clamp_steps_kept (lo hi d : float) :
  (lo <f lo) = false → (hi >f hi) = false → (lo >f hi) = false → (hi <f lo) = false →
  ((if (if d <f lo then lo else d) >f hi then hi
    else if d <f lo then lo else d) <f lo) = false ∧
  ((if (if d <f lo then lo else d) >f hi then hi
    else if d <f lo then lo else d) >f hi) = false.
Proof.
  intros H1 H2 H3 H4. destruct (d <f lo) eqn:Hlo.
  - rewrite H3. by split.
  - destruct (d >f hi) eqn:Hhi; by split.
Qed.

Lemma fit_orbit_kept modelCenter maxDimension :
  distance_kept (o_distance (fit_orbit modelCenter maxDimension)) ∧
  pitch_kept (o_rotationV (fit_orbit modelCenter maxDimension)).
Proof.
  split.
  - apply clamp_steps_kept; vm_compute; reflexivity.
  - split; vm_compute; reflexivity.
Qed.

Lemma fit_isometric_kept modelCenter maxDimension :
  height_kept (i_height (fit_isometric modelCenter maxDimension)).
Proof. apply clamp_steps_kept; vm_compute; reflexivity. Qed.

(** The globals at the start are in shape, with no unit and no group. *)
Lemma start_world_shape (r : RngState) :
  wf_world (start_world r) ∧ groups_agree (start_world r) ∧
  unitCount (start_world r) = 0%Z.
Proof.
  split; [|split].
  - apply (bool_decide_unpack _). vm_compute. exact I.
  - apply (bool_decide_unpack _). vm_compute. exact I.
  - reflexivity.
Qed.

(** X26. From the start of main on, whatever the model and the input,
    after any number of rounds that return neither camera controller is
    outside its limits: the orbit distance is not below
    CAMERA_MIN_DISTANCE nor above CAMERA_MAX_DISTANCE, the orbit pitch is
    not outside [-PI/2 + 0.1, PI/2 - 0.1], and the isometric height is not
    below ISO_CAMERA_MIN_HEIGHT nor above ISO_CAMERA_MAX_HEIGHT (each in
    the sense of the test the clamp makes, so a NaN counts as not
    outside). The globals are in shape as well. *)
Theorem session_keeps_limits fuel (loaded : Model) (r : RngState)
    (inputs : list Input) (s' : App) :
  session fuel loaded r inputs = Some s' →
  cameras_kept s' ∧ wf_world (a_world s').
Proof.
  unfold session, start. destruct (meshes loaded) as [|mesh rest]; [done|].
  cbn [mbind option_bind]. intros Hrun.
  destruct (start_world_shape r) as (Hwf & _ & _). split.
  - eapply frames_cameras; [|exact Hrun]. unfold cameras_kept. cbn [a_orbit a_isometric].
    destruct (fit_orbit_kept
                (model_center (GetModelBounds (mkModel MatrixIdentity (mesh :: rest))))
                (max_dimension (GetModelBounds (mkModel MatrixIdentity (mesh :: rest)))))
      as [Hd Hp].
    split; [exact Hd|]. split; [exact Hp|]. apply fit_isometric_kept.
  - eapply frames_wf; [|exact Hrun]. exact Hwf.
Qed.

End Session.

Lemma session_keeps_limits_witness :
  ∃ s', session 2 flat_model 0%Z
          [scroll (fi 100) quiet; press KEY_TAB quiet; scroll (fi (-100)) quiet] =
        Some s' ∧
    a_viewMode s' = VIEW_MODE_ISOMETRIC ∧ cameras_kept s' ∧ wf_world (a_world s').
Proof.
  assert (is_Some (session 2 flat_model 0%Z
            [scroll (fi 100) quiet; press KEY_TAB quiet; scroll (fi (-100)) quiet]))
    as [s' Hrun] by (vm_compute; eexists; reflexivity).
  exists s'. split; [exact Hrun|]. split.
  - revert Hrun. vm_compute. by intros [= <-].
  - exact (session_keeps_limits _ _ _ _ _ Hrun).
Defined.
